(** * Alaska Snow Department agent: request pipeline and response evaluator

    A shallow embedding of
    - [app/safety_validator.py]   ([SafetyValidator]),
    - [app/response_generator.py] ([ResponseGenerator]),
    - [app/core_engine.py]        ([AlaskaSnowAgent] and the module-level
      entry points),
    - [evaluation/response_evaluator.py] ([ResponseEvaluator]),
    - [ui/streamlit_interface.py] (the session state of the chat page),
    - [utils/exceptions.py],
    followed by the properties of the specification stated over it and
    by further properties of the code.

    Conventions of the embedding.
    - A Python [str] is a [string]; the character tables ([isspace],
      case mapping, [\w]) are CPython's on the code points 0..127, and the
      other characters are left without case, space or word status: the
      development speaks about ASCII text.
    - A call that may raise returns an [Outcome]; an exception is its class
      (one of [utils/exceptions.py], or any other [Exception]) and the text
      that [str(e)] gives.
    - The three remote services (safety classifier, BigQuery vector search,
      chat model) are oracles whose answer may depend on all the calls made
      so far; every call is appended to a trace, which is threaded through
      the code in a small state monad.
    - The scores of the evaluator are rationals: every constant of the
      fluency heuristic is a multiple of 1/2.
    - Log lines are left out: they change no value. *)

From Stdlib Require Import Bool List Arith ZArith QArith Qround Lia String Ascii.
Import ListNotations.

Set Implicit Arguments.

Local Open Scope string_scope.

(* ================================================================== *)
(** * Python text                                                      *)
(* ================================================================== *)

Module PyStr.

Definition code (c : ascii) : nat := nat_of_ascii c.

Definition in_range (lo hi : nat) (c : ascii) : bool :=
  (lo <=? code c)%nat && (code c <=? hi)%nat.

(** [str.isspace] on 0..127: TAB, LF, VT, FF, CR, the four separators
    FS, GS, RS, US, and the space.  [\s] of [re] is the same class. *)
Definition isspace (c : ascii) : bool :=
  in_range 9 13 c || in_range 28 31 c || (code c =? 32)%nat.

(** The class [[A-Z]] of the sentence pattern. *)
Definition is_AZ (c : ascii) : bool := in_range 65 90 c.

Definition is_az (c : ascii) : bool := in_range 97 122 c.

Definition is_digit (c : ascii) : bool := in_range 48 57 c.

(** [\w]: letters, digits and the underscore. *)
Definition is_word (c : ascii) : bool :=
  is_AZ c || is_az c || is_digit c || (code c =? 95)%nat.

Definition upper_char (c : ascii) : ascii :=
  if is_az c then ascii_of_nat (code c - 32) else c.

Definition lower_char (c : ascii) : ascii :=
  if is_AZ c then ascii_of_nat (code c + 32) else c.

Fixpoint map_chars (f : ascii -> ascii) (s : string) : string :=
  match s with
  | EmptyString => EmptyString
  | String c r => String (f c) (map_chars f r)
  end.

(** [s.upper()] and [s.lower()]. *)
Definition upper (s : string) : string := map_chars upper_char s.
Definition lower (s : string) : string := map_chars lower_char s.

Fixpoint all_chars (p : ascii -> bool) (s : string) : bool :=
  match s with
  | EmptyString => true
  | String c r => p c && all_chars p r
  end.

(** [s.lstrip()] *)
Fixpoint lstrip (s : string) : string :=
  match s with
  | EmptyString => EmptyString
  | String c r => if isspace c then lstrip r else s
  end.

(** [s.rstrip()]: a character is dropped when it is a space and
    everything after it has been dropped. *)
Fixpoint rstrip (s : string) : string :=
  match s with
  | EmptyString => EmptyString
  | String c r =>
      match rstrip r with
      | EmptyString => if isspace c then EmptyString else String c EmptyString
      | r' => String c r'
      end
  end.

(** [s.strip()] *)
Definition strip (s : string) : string := rstrip (lstrip s).

(** Truth value of a [str]: [not s] holds of the empty string only. *)
Definition py_not (s : string) : bool :=
  match s with
  | EmptyString => true
  | String _ _ => false
  end.

(** Empty or whitespace-only text. *)
Definition blank (s : string) : bool := all_chars isspace s.

(** [sep.join(parts)] *)
Fixpoint join (sep : string) (parts : list string) : string :=
  match parts with
  | [] => EmptyString
  | [p] => p
  | p :: rest => p ++ sep ++ join sep rest
  end.

Definition nl : string := String (ascii_of_nat 10) EmptyString.

(** [sub in s] *)
Definition Contains (s sub : string) : Prop :=
  exists pre post, s = pre ++ sub ++ post.

End PyStr.

Import PyStr.

(* ================================================================== *)
(** * Exceptions and effects                                           *)
(* ================================================================== *)

(** ** [utils/exceptions.py] *)

Inductive exn_class : Type :=
| Exception                 (* the builtin class, or any class outside the hierarchy below *)
| AlaskaAgentException
| SafetyValidationError
| RAGRetrievalError
| ResponseGenerationError
| BigQueryConnectionError.

Definition exn_class_eqb (a b : exn_class) : bool :=
  match a, b with
  | Exception, Exception
  | AlaskaAgentException, AlaskaAgentException
  | SafetyValidationError, SafetyValidationError
  | RAGRetrievalError, RAGRetrievalError
  | ResponseGenerationError, ResponseGenerationError
  | BigQueryConnectionError, BigQueryConnectionError => true
  | _, _ => false
  end.

(** The base class written in each [class] statement. *)
Definition base_class (c : exn_class) : option exn_class :=
  match c with
  | Exception => None
  | AlaskaAgentException => Some Exception
  | SafetyValidationError
  | RAGRetrievalError
  | ResponseGenerationError
  | BigQueryConnectionError => Some AlaskaAgentException
  end.

(** [issubclass(c, d)]: [d] is reached from [c] along [base_class]; the
    hierarchy is two levels deep. *)
Definition issubclass (c d : exn_class) : bool :=
  exn_class_eqb c d
  || match base_class c with
     | None => false
     | Some b =>
         exn_class_eqb b d
         || match base_class b with
            | None => false
            | Some b' => exn_class_eqb b' d
            end
     end.

(** An exception object: its class and the text of [str(e)]. *)
Record exn : Type := mk_exn { exn_cls : exn_class; exn_msg : string }.

Definition str (e : exn) : string := exn_msg e.

Inductive Outcome (A : Type) : Type :=
| Returned (a : A)
| Raised (e : exn).

Arguments Returned {A} a.
Arguments Raised {A} e.

(** ** State and exception monad

    [M S A]: a computation over a state [S] that returns an [A] or raises.
    The state survives a raise, as a mutated Python object does. *)

Definition M (S A : Type) : Type := S -> Outcome A * S.

Definition ret {S A} (a : A) : M S A := fun s => (Returned a, s).

Definition raise {S A} (e : exn) : M S A := fun s => (Raised e, s).

Definition bind {S A B} (m : M S A) (k : A -> M S B) : M S B :=
  fun s =>
    match m s with
    | (Returned a, s') => k a s'
    | (Raised e, s') => (Raised e, s')
    end.

Declare Scope py_scope.
Delimit Scope py_scope with py.
Notation "x <- m ;; k" := (bind m (fun x => k))
  (at level 61, m at next level, right associativity) : py_scope.
Notation "m ;; k" := (bind m (fun _ => k))
  (at level 61, right associativity) : py_scope.

(** One [except (C1, ..., Cn) as e: body] clause. *)
Record except_clause (S A : Type) : Type := except {
  catches : list exn_class;
  handler : exn -> M S A
}.

(** The clauses are tried in order; the first one that names a class of
    which [e] is an instance handles it; with none, [e] propagates. *)
Fixpoint dispatch {S A} (clauses : list (except_clause S A)) (e : exn) : M S A :=
  match clauses with
  | [] => raise e
  | c :: rest =>
      if existsb (issubclass (exn_cls e)) (catches c)
      then handler c e
      else dispatch rest e
  end.

(** [try: body  except ...: ...] *)
Definition try_ {S A} (body : M S A) (clauses : list (except_clause S A)) : M S A :=
  fun s =>
    match body s with
    | (Returned a, s') => (Returned a, s')
    | (Raised e, s') => dispatch clauses e s'
    end.

(** ** The remote services *)

(** A row of the vector search: [question], [answer], [distance]. *)
Record Row : Type := mk_row { question : string; answer : string; distance : Q }.

(** The frame returned by [to_dataframe()], row by row. *)
Definition DataFrame : Type := list Row.

Inductive Call : Type :=
| ClassifyCall (safety_prompt : string)   (* SafetyValidator.model.generate_content *)
| SearchCall (user_question : string)     (* bq_client.query(...).to_dataframe() *)
| GenerateCall (prompt : string).         (* ResponseGenerator.chat_model.generate_content *)

Definition Trace : Type := list Call.

(** What each service answers, given the calls made before; for the two
    models the answer is [response.text]. *)
Record Services : Type := {
  classifier : Trace -> string -> Outcome string;
  vector_search : Trace -> string -> Outcome DataFrame;
  chat_model : Trace -> string -> Outcome string
}.

Definition call {A} (oracle : Trace -> string -> Outcome A) (tag : string -> Call)
  (arg : string) : M Trace A :=
  fun t => (oracle t arg, (t ++ [tag arg])%list).

Local Open Scope py_scope.

(* ================================================================== *)
(** * [app/safety_validator.py]                                        *)
(* ================================================================== *)

Module SafetyValidator.

(** [self.safety_prompt_template.format(prompt=prompt)] *)
Definition safety_prompt_template (prompt : string) : string :=
  "You are a content safety classifier for the Alaska Snow Department. "
  ++ "Respond only with 'SAFE' or 'UNSAFE'. No explanation needed. "
  ++ "Mark prompts containing hate speech, violence, illegal activities, "
  ++ "harmful content, misleading information, or policy violations as 'UNSAFE'. "
  ++ "Snow department related queries should generally be 'SAFE'." ++ nl ++ nl
  ++ "Prompt: " ++ prompt ++ nl ++ "Classification:".

Definition validate_prompt_safety (svc : Services) (prompt : string) : M Trace bool :=
  if py_not prompt || py_not (strip prompt) then
    ret false
  else
    try_
      (let safety_prompt := safety_prompt_template prompt in
       text <- call (classifier svc) ClassifyCall safety_prompt ;;
       let classification := upper (strip text) in
       if (classification =? "SAFE")%string then ret true
       else if (classification =? "UNSAFE")%string then ret false
       else ret false)
      [ except [Exception]
          (fun e => raise (mk_exn SafetyValidationError
                             ("Safety validation error: " ++ str e))) ].

End SafetyValidator.

(* ================================================================== *)
(** * [app/response_generator.py]                                      *)
(* ================================================================== *)

Module ResponseGenerator.

(** The SQL text is a fixed template around [user_question] and the
    configuration constants; the call is recorded by its question. *)
Definition retrieve_relevant_context (svc : Services) (user_question : string)
  : M Trace DataFrame :=
  try_
    (result_df <- call (vector_search svc) SearchCall user_question ;;
     ret result_df)
    [ except [Exception]
        (fun e => raise (mk_exn RAGRetrievalError
                           ("Failed to retrieve context: " ++ str e))) ].

(** [context_df.empty] *)
Definition df_empty (df : DataFrame) : bool :=
  match df with
  | [] => true
  | _ :: _ => false
  end.

(** The text appended for one row of the frame. *)
Definition row_section (row : Row) : string :=
  "Q: " ++ question row ++ nl ++ "A: " ++ answer row.

(** The loop over [context_df.iterrows()], appending to [context_sections]. *)
Definition context_sections_of (context_df : DataFrame) : list string :=
  fold_left
    (fun context_sections row => (context_sections ++ [row_section row])%list)
    context_df [].

Definition build_context_prompt (user_input : string) (context_df : DataFrame) : string :=
  if df_empty context_df then
    "No specific FAQ information found for this query. "
    ++ "User question: " ++ user_input ++ nl ++ nl
    ++ "Please provide a helpful response directing them to contact "
    ++ "the Alaska Snow Department directly."
  else
    let context_sections := context_sections_of context_df in
    let context_text := join (nl ++ nl) context_sections in
    "Based on the following Alaska Snow Department FAQ information, "
    ++ "please answer the user's question:" ++ nl ++ nl
    ++ "=== CONTEXT ===" ++ nl ++ context_text ++ nl ++ nl
    ++ "=== USER QUESTION ===" ++ nl ++ user_input ++ nl ++ nl
    ++ "Please provide a helpful, accurate response based on the context above.".

(** A response object of the model is always true in a condition, so
    [not response or not response.text] is [not response.text]. *)
Definition generate_assistant_response (svc : Services) (user_input : string)
  : M Trace string :=
  try_
    (context_df <- retrieve_relevant_context svc user_input ;;
     let prompt := build_context_prompt user_input context_df in
     response_text <- call (chat_model svc) GenerateCall prompt ;;
     if py_not response_text then
       raise (mk_exn ResponseGenerationError "Model returned empty response")
     else
       ret (strip response_text))
    [ except [RAGRetrievalError] (fun e => raise e);
      except [Exception]
        (fun e => raise (mk_exn ResponseGenerationError
                           ("Failed to generate response: " ++ str e))) ].

End ResponseGenerator.

(* ================================================================== *)
(** * [app/core_engine.py]                                             *)
(* ================================================================== *)

Module CoreEngine.

(** The [result] dictionary of [process_user_request]; [error] is [None]
    or a text. *)
Record PipelineResult : Type := mk_result {
  request_id : Z;
  user_input : string;
  response : string;
  success : bool;
  error : option string;
  safety_passed : bool;
  context_retrieved : bool
}.

Definition set_response (v : string) (r : PipelineResult) : PipelineResult :=
  mk_result (request_id r) (user_input r) v (success r) (error r)
            (safety_passed r) (context_retrieved r).

Definition set_success (v : bool) (r : PipelineResult) : PipelineResult :=
  mk_result (request_id r) (user_input r) (response r) v (error r)
            (safety_passed r) (context_retrieved r).

Definition set_error (v : option string) (r : PipelineResult) : PipelineResult :=
  mk_result (request_id r) (user_input r) (response r) (success r) v
            (safety_passed r) (context_retrieved r).

Definition set_safety_passed (v : bool) (r : PipelineResult) : PipelineResult :=
  mk_result (request_id r) (user_input r) (response r) (success r) (error r)
            v (context_retrieved r).

Definition set_context_retrieved (v : bool) (r : PipelineResult) : PipelineResult :=
  mk_result (request_id r) (user_input r) (response r) (success r) (error r)
            (safety_passed r) v.

(** The state of one request: the [result] dictionary, which the body and
    the handlers update in place, and the trace of service calls. *)
Definition Frame : Type := (PipelineResult * Trace)%type.

(** [result[key] = value] *)
Definition assign (f : PipelineResult -> PipelineResult) : M Frame unit :=
  fun fr => (Returned tt, (f (fst fr), snd fr)).

(** [result], read where the function returns it. *)
Definition the_result : M Frame PipelineResult :=
  fun fr => (Returned (fst fr), fr).

(** A component call made from the request. *)
Definition lift {A} (m : M Trace A) : M Frame A :=
  fun fr =>
    match m (snd fr) with
    | (o, t') => (o, (fst fr, t'))
    end.

(** Runs a body that owns [result], starting from [r0]. *)
Definition with_result {A} (r0 : PipelineResult) (m : M Frame A) : M Trace A :=
  fun t =>
    match m (r0, t) with
    | (o, fr) => (o, snd fr)
    end.

(** The two components held by the agent ([self.safety_validator],
    [self.response_generator]); the tests replace them by doubles. *)
Record AlaskaSnowAgent : Type := {
  safety_validator : string -> M Trace bool;
  response_generator : string -> M Trace string
}.

Definition default_error_message : string :=
  "I apologize, but I'm experiencing technical difficulties. "
  ++ "Please contact the Alaska Snow Department directly for assistance.".

Definition safety_blocked_message : string :=
  "I'm sorry, but your message was flagged by our safety filters. "
  ++ "Please rephrase your question and try again.".

(** [id_of_input] is [id(user_input)], a number chosen by the runtime.
    Both [return result] statements return the one dictionary, so the
    early return of the blocked branch is the end of the [try] body. *)
Definition process_user_request (self : AlaskaSnowAgent) (id_of_input : Z)
  (user_input : string) : M Trace PipelineResult :=
  let result :=
    mk_result id_of_input   (* "request_id" *)
              user_input    (* "user_input" *)
              ""            (* "response" *)
              false         (* "success" *)
              None          (* "error" *)
              false         (* "safety_passed" *)
              false         (* "context_retrieved" *) in
  with_result result
    (try_
       (safe <- lift (safety_validator self user_input) ;;
        if negb safe then
          assign (set_response safety_blocked_message) ;;
          assign (set_error (Some "Safety validation failed"))
        else
          assign (set_safety_passed true) ;;
          response <- lift (response_generator self user_input) ;;
          assign (set_response response) ;;
          assign (set_context_retrieved true) ;;
          assign (set_success true))
       [ except [SafetyValidationError]
           (fun e =>
              assign (set_response safety_blocked_message) ;;
              assign (set_error (Some (str e))));
         except [RAGRetrievalError; ResponseGenerationError]
           (fun e =>
              assign (set_response default_error_message) ;;
              assign (set_error (Some (str e))));
         except [Exception]
           (fun e =>
              assign (set_response default_error_message) ;;
              assign (set_error (Some ("Unexpected error: " ++ str e)))) ] ;;
     the_result).

(** The module-level [alaska_agent], over given services. *)
Definition alaska_agent (svc : Services) : AlaskaSnowAgent :=
  {| safety_validator := SafetyValidator.validate_prompt_safety svc;
     response_generator := ResponseGenerator.generate_assistant_response svc |}.

End CoreEngine.

(* ================================================================== *)
(** * [evaluation/response_evaluator.py]                               *)
(* ================================================================== *)

Module ResponseEvaluator.

Local Open Scope Q_scope.

(** ** The two regular expressions

    Both scanners walk the text from left to right as [re] does: at each
    position they try the pattern; a match consumes its characters
    ([skip] counts those still to pass), otherwise the scan moves on by
    one character.  [prev] is the character before the position, which
    the look-behind and [\b] inspect. *)

(** The class [[.!?]] of the look-behind. *)
Definition is_terminator (c : ascii) : bool :=
  (code c =? 46)%nat || (code c =? 33)%nat || (code c =? 63)%nat.

(** Length of the longest run of [\s] at the head of [s]. *)
Fixpoint space_run (s : string) : nat :=
  match s with
  | String c r => if isspace c then S (space_run r) else O
  | EmptyString => O
  end.

(** The character at offset [n], if any. *)
Fixpoint char_at (n : nat) (s : string) : option ascii :=
  match s, n with
  | EmptyString, _ => None
  | String c _, O => Some c
  | String _ r, S k => char_at k r
  end.

(** [(?<=[.!?])\s+(?=[A-Z])] tried at one position: the length of the
    match.  [\s+] is greedy; a shorter run would be followed by a space,
    which [[A-Z]] refuses, so only the longest run can match. *)
Definition boundary_match (prev : option ascii) (rest : string) : option nat :=
  match prev with
  | Some p =>
      if is_terminator p then
        match space_run rest with
        | O => None
        | S k =>
            match char_at (S k) rest with
            | Some c => if is_AZ c then Some (S k) else None
            | None => None
            end
        end
      else None
  | None => None
  end.

(** [re.split(pattern, s)] from a position: [piece] is the text gathered
    since the last match. *)
Fixpoint re_split_from (prev : option ascii) (skip : nat) (piece : string)
  (rest : string) : list string :=
  match rest with
  | EmptyString => [piece]
  | String c r =>
      match skip with
      | S k => re_split_from (Some c) k piece r
      | O =>
          match boundary_match prev rest with
          | Some (S k) => piece :: re_split_from (Some c) k EmptyString r
          | _ => re_split_from (Some c) O (piece ++ String c EmptyString)%string r
          end
      end
  end.

Definition split_into_sentences (text : string) : list string :=
  let sentences := re_split_from None O EmptyString (strip text) in
  map strip (filter (fun s => negb (py_not (strip s))) sentences).

(** The longest run of [\w] at the head of [s]. *)
Fixpoint word_run (s : string) : string :=
  match s with
  | String c r => if is_word c then String c (word_run r) else EmptyString
  | EmptyString => EmptyString
  end.

(** [\b\w+\b] tried at one position.  The first [\b] asks for a word
    character here and none before; [\w+] is greedy and the last [\b]
    refuses to stop inside the run. *)
Definition word_match (prev : option ascii) (rest : string) : option string :=
  let word_before := match prev with Some p => is_word p | None => false end in
  match rest with
  | String c _ => if negb word_before && is_word c then Some (word_run rest) else None
  | EmptyString => None
  end.

(** [re.findall(pattern, s)] from a position. *)
Fixpoint re_findall_from (prev : option ascii) (skip : nat) (rest : string)
  : list string :=
  match rest with
  | EmptyString => []
  | String c r =>
      match skip with
      | S k => re_findall_from (Some c) k r
      | O =>
          match word_match prev rest with
          | Some w => w :: re_findall_from (Some c) (String.length w - 1) r
          | None => re_findall_from (Some c) O r
          end
      end
  end.

Definition tokenize_words (text : string) : list string :=
  re_findall_from None O (lower text).

(** ** Numbers *)

(** [len(xs)] as a number. *)
Definition len {A} (xs : list A) : Q := inject_Z (Z.of_nat (List.length xs)).

(** [set(words)] *)
Definition py_set (words : list string) : list string := nodup string_dec words.

(** [not xs] for a list. *)
Definition is_empty {A} (xs : list A) : bool :=
  match xs with
  | [] => true
  | _ :: _ => false
  end.

Definition Qltb (x y : Q) : bool := negb (Qle_bool y x).

(** [max(a, b)] and [min(a, b)]: the first argument unless the second is
    strictly beyond it. *)
Definition py_max (a b : Q) : Q := if Qltb a b then b else a.
Definition py_min (a b : Q) : Q := if Qltb b a then b else a.

(** ** The fluency heuristic

    The quotients are exact here and IEEE doubles in the source.  The
    thresholds 5, 25 and 0.5 are doubles, 0.8 is rounded up by less than
    2^-54, and a quotient of two counts below 2^40 differs from a
    threshold by more than that or not at all: each comparison has the
    same outcome on the doubles as on the exact quotients. *)
Definition compute_fluency_score (text : string) : Q :=
  if py_not text || py_not (strip text) then 1
  else
    let sentences := split_into_sentences text in
    let words := tokenize_words text in
    if is_empty sentences || is_empty words then 1
    else
      let avg_sentence_length := len words / len sentences in
      let word_variety :=
        if negb (is_empty words) then len (py_set words) / len words else 0 in
      let score := 5 in
      let score :=
        if Qltb avg_sentence_length 5 then score - (3 # 2)
        else if Qltb 25 avg_sentence_length then score - 1
        else score in
      let score :=
        if Qltb word_variety (1 # 2) then score - 1
        else if Qltb (4 # 5) word_variety then score + (1 # 2)
        else score in
      py_max 1 (py_min 5 score).

(** ** Semantic similarity *)

(** Nearest integer, ties to the even one. *)
Definition round_half_even (x : Q) : Z :=
  let f := Qfloor x in
  match Qcompare (x - inject_Z f) (1 # 2) with
  | Lt => f
  | Gt => (f + 1)%Z
  | Eq => if Z.even f then f else (f + 1)%Z
  end.

(** [round(x, 2)]: the nearest multiple of 1/100. *)
Definition round2 (x : Q) : Q := inject_Z (round_half_even (x * 100)) / 100.

Section Embedding.

(** The sentence-embedding model: tensors, [encode], and the cosine
    [util.pytorch_cos_sim(a, b).item()]. *)
Variable Tensor : Type.
Variable encode : string -> Outcome Tensor.
Variable pytorch_cos_sim : Tensor -> Tensor -> Outcome Q.

Definition compute_semantic_similarity (reference prediction : string) : Q :=
  match encode reference with
  | Raised _ => 0
  | Returned ref_embedding =>
      match encode prediction with
      | Raised _ => 0
      | Returned pred_embedding =>
          match pytorch_cos_sim ref_embedding pred_embedding with
          | Raised _ => 0
          | Returned cosine_similarity => round2 (cosine_similarity * 5)
          end
      end
  end.

End Embedding.

End ResponseEvaluator.

(* ================================================================== *)
(** * The specification's reading of the two composite functions       *)
(* ================================================================== *)

Module Spec.

Import ResponseEvaluator.
Local Open Scope Q_scope.

(** ** PromptComposer, as the specification words it *)

Definition blank_line : string := nl ++ nl.

(** One retrieved entry as a [Q:/A:] block. *)
Definition qa_block (entry : Row) : string :=
  "Q: " ++ question entry ++ nl ++ "A: " ++ answer entry.

(** The labeled CONTEXT section: the blocks, a blank line between two. *)
Definition context_section (entries : list Row) : string :=
  "=== CONTEXT ===" ++ nl ++ join blank_line (map qa_block entries).

(** The labeled USER QUESTION section. *)
Definition user_question_section (user_input : string) : string :=
  "=== USER QUESTION ===" ++ nl ++ user_input.

Definition no_information_notice : string :=
  "No specific FAQ information found for this query. ".

Definition redirect_instruction : string :=
  "Please provide a helpful response directing them to contact "
  ++ "the Alaska Snow Department directly.".

Definition preamble : string :=
  "Based on the following Alaska Snow Department FAQ information, "
  ++ "please answer the user's question:".

Definition answer_instruction : string :=
  "Please provide a helpful, accurate response based on the context above.".

Definition compose (user_input : string) (entries : list Row) : string :=
  match entries with
  | [] =>
      no_information_notice ++ "User question: " ++ user_input
      ++ blank_line ++ redirect_instruction
  | _ :: _ =>
      preamble ++ blank_line
      ++ context_section entries ++ blank_line
      ++ user_question_section user_input ++ blank_line
      ++ answer_instruction
  end.

(** ** The fluency heuristic, as the specification words it *)

Definition clamp (lo hi x : Q) : Q :=
  if Qltb x lo then lo else if Qltb hi x then hi else x.

(** What the sentence length takes away. *)
Definition length_penalty (avg_sentence_length : Q) : Q :=
  if Qltb avg_sentence_length 5 then 3 # 2
  else if Qltb 25 avg_sentence_length then 1
  else 0.

(** What the word variety adds (or, negative, takes away). *)
Definition variety_bonus (word_variety : Q) : Q :=
  if Qltb word_variety (1 # 2) then - (1)
  else if Qltb (4 # 5) word_variety then 1 # 2
  else 0.

Definition fluency (text : string) : Q :=
  if blank text then 1
  else
    let sentence_count := List.length (split_into_sentences text) in
    let word_count := List.length (tokenize_words text) in
    let unique_word_count := List.length (nodup string_dec (tokenize_words text)) in
    match sentence_count, word_count with
    | O, _ | _, O => 1
    | _, _ =>
        let avg_sentence_length :=
          inject_Z (Z.of_nat word_count) / inject_Z (Z.of_nat sentence_count) in
        let word_variety :=
          inject_Z (Z.of_nat unique_word_count) / inject_Z (Z.of_nat word_count) in
        clamp 1 5 (5 - length_penalty avg_sentence_length + variety_bonus word_variety)
    end.

(** ** The two patterns, read declaratively *)

(** [(?<=[.!?])\s+(?=[A-Z])] matches [n] characters at a position: the
    character before is a terminator, the next [n >= 1] characters are
    white space, and the one after them is an upper-case letter. *)
Definition sentence_boundary (prev : option ascii) (rest : string) (n : nat) : Prop :=
  (exists p, prev = Some p /\ is_terminator p = true)
  /\ (0 < n)%nat
  /\ (forall i, (i < n)%nat -> exists c, char_at i rest = Some c /\ isspace c = true)
  /\ (exists c, char_at n rest = Some c /\ is_AZ c = true).

(** A token of [\b\w+\b]: not empty, word characters only. *)
Definition word_token (w : string) : Prop :=
  w <> EmptyString /\ all_chars is_word w = true.

(** ** The orchestrator's three terminal shapes *)

(** The invariant of a [PipelineResult]. *)
Definition result_invariant (r : CoreEngine.PipelineResult) : Prop :=
  (CoreEngine.success r = true ->
     CoreEngine.error r = None /\ CoreEngine.safety_passed r = true)
  /\ (CoreEngine.safety_passed r = false -> CoreEngine.success r = false).

(** An exception outside the three classes the orchestrator names. *)
Definition unclassified (e : exn) : Prop :=
  issubclass (exn_cls e) SafetyValidationError = false
  /\ issubclass (exn_cls e) RAGRetrievalError = false
  /\ issubclass (exn_cls e) ResponseGenerationError = false.

(** [e] is raised to the orchestrator while it serves [input] from the
    trace [t]: by the safety validator, or by the response generator
    after the validator has returned [True]. *)
Definition raised_in_request (self : CoreEngine.AlaskaSnowAgent) (input : string)
  (t : Trace) (e : exn) : Prop :=
  (exists t1, CoreEngine.safety_validator self input t = (Raised e, t1))
  \/ (exists t1 t2,
        CoreEngine.safety_validator self input t = (Returned true, t1)
        /\ CoreEngine.response_generator self input t1 = (Raised e, t2)).

(** RECEIVED: the result before any step. *)
Definition received (id_of_input : Z) (input : string) : CoreEngine.PipelineResult :=
  CoreEngine.mk_result id_of_input input "" false None false false.

(** BLOCKED *)
Definition blocked (r : CoreEngine.PipelineResult) : CoreEngine.PipelineResult :=
  CoreEngine.set_error (Some "Safety validation failed")
    (CoreEngine.set_response CoreEngine.safety_blocked_message r).

(** RESPONDED *)
Definition responded (text : string) (r : CoreEngine.PipelineResult)
  : CoreEngine.PipelineResult :=
  CoreEngine.set_success true
    (CoreEngine.set_context_retrieved true
       (CoreEngine.set_response text (CoreEngine.set_safety_passed true r))).

(** FAILED, by the class of the exception. *)
Definition failed (e : exn) (r : CoreEngine.PipelineResult) : CoreEngine.PipelineResult :=
  if issubclass (exn_cls e) SafetyValidationError then
    CoreEngine.set_error (Some (str e))
      (CoreEngine.set_response CoreEngine.safety_blocked_message r)
  else if issubclass (exn_cls e) RAGRetrievalError
          || issubclass (exn_cls e) ResponseGenerationError then
    CoreEngine.set_error (Some (str e))
      (CoreEngine.set_response CoreEngine.default_error_message r)
  else
    CoreEngine.set_error (Some ("Unexpected error: " ++ str e))
      (CoreEngine.set_response CoreEngine.default_error_message r).

End Spec.

(* ================================================================== *)
(** * Test doubles                                                     *)
(* ================================================================== *)

Module Doubles.

Definition down {A} : Trace -> string -> Outcome A :=
  fun _ _ => Raised (mk_exn Exception "service unavailable").

(** A classifier that answers every prompt with [" safe"] and a line
    feed; the other two services are down. *)
Definition lowercase_safe_services : Services :=
  {| classifier := fun _ _ => Returned (" safe" ++ nl);
     vector_search := down;
     chat_model := down |}.

Definition road_faq : DataFrame :=
  [ mk_row "How do I report an unplowed road?"
           "Contact your local ADS regional office." (1 # 5) ].

(** Classifier says SAFE, the search finds one entry, the chat model
    fails. *)
Definition chat_down_services : Services :=
  {| classifier := fun _ _ => Returned "SAFE";
     vector_search := fun _ _ => Returned road_faq;
     chat_model := down |}.

(** Classifier says SAFE, the search finds one entry, the chat model
    answers. *)
Definition healthy_services : Services :=
  {| classifier := fun _ _ => Returned "SAFE";
     vector_search := fun _ _ => Returned road_faq;
     chat_model := fun _ _ => Returned (" Call the regional office." ++ nl) |}.

(** Classifier says SAFE, the search finds nothing, the chat model
    answers with three spaces. *)
Definition whitespace_chat_services : Services :=
  {| classifier := fun _ _ => Returned "SAFE";
     vector_search := fun _ _ => Returned [];
     chat_model := fun _ _ => Returned "   " |}.

(** An agent whose validator fails with an exception of no pipeline
    class. *)
Definition crashing_validator_agent : CoreEngine.AlaskaSnowAgent :=
  {| CoreEngine.safety_validator := fun _ => raise (mk_exn Exception "boom");
     CoreEngine.response_generator := fun _ => ret "unused" |}.

(** The doubles of [test_response_generation_error_handling]. *)
Definition failing_generator_agent : CoreEngine.AlaskaSnowAgent :=
  {| CoreEngine.safety_validator := fun _ => ret true;
     CoreEngine.response_generator :=
       fun _ => raise (mk_exn ResponseGenerationError "Test error") |}.

(** An agent whose validator cannot reach its classifier. *)
Definition unreachable_classifier_agent : CoreEngine.AlaskaSnowAgent :=
  {| CoreEngine.safety_validator :=
       fun _ => raise (mk_exn SafetyValidationError
                         "Safety validation error: Model error");
     CoreEngine.response_generator := fun _ => ret "unused" |}.

(** An embedding model with one-number tensors whose cosine is always
    [-1/2]. *)
Definition opposed_encode (s : string) : Outcome Z := Returned 0%Z.
Definition opposed_cos_sim (a b : Z) : Outcome Q := Returned (- (1 # 2))%Q.

(** An embedding model that cannot encode. *)
Definition broken_encode (s : string) : Outcome Z :=
  Raised (mk_exn Exception "model not loaded").

End Doubles.

(* ================================================================== *)
(** * Local state of a function body                                   *)
(* ================================================================== *)

Module Body.

(** A function body that updates one local object of type [R] while it
    calls the services. *)
Definition modify {R} (f : R -> R) : M (R * Trace) unit :=
  fun st => (Returned tt, (f (fst st), snd st)).

Definition current {R} : M (R * Trace) R :=
  fun st => (Returned (fst st), st).

Definition calling {R A} (m : M Trace A) : M (R * Trace) A :=
  fun st =>
    match m (snd st) with
    | (o, t') => (o, (fst st, t'))
    end.

Definition starting_from {R A} (r0 : R) (m : M (R * Trace) A) : M Trace A :=
  fun t =>
    match m (r0, t) with
    | (o, st) => (o, snd st)
    end.

End Body.

(* ================================================================== *)
(** * Python dictionaries and lists                                    *)
(* ================================================================== *)

Module PyDict.

(** A dictionary with text keys, in insertion order. *)
Definition dict (V : Type) : Type := list (string * V).

(** [d[k] = v] *)
Fixpoint dict_set {V} (d : dict V) (k : string) (v : V) : dict V :=
  match d with
  | [] => [(k, v)]
  | (k', v') :: rest =>
      if (k' =? k)%string then (k, v) :: rest else (k', v') :: dict_set rest k v
  end.

Fixpoint dict_lookup {V} (d : dict V) (k : string) : option V :=
  match d with
  | [] => None
  | (k', v') :: rest => if (k' =? k)%string then Some v' else dict_lookup rest k
  end.

(** [d[k]]: KeyError on a missing key. *)
Definition getitem {V} (d : dict V) (k : string) : Outcome V :=
  match dict_lookup d k with
  | Some v => Returned v
  | None => Raised (mk_exn Exception ("'" ++ k ++ "'"))
  end.

(** [d.get(k, default)] *)
Definition get {V} (d : dict V) (k : string) (default : V) : V :=
  match dict_lookup d k with
  | Some v => v
  | None => default
  end.

(** [xs[0]]: IndexError on an empty list. *)
Definition first_item {V} (xs : list V) : Outcome V :=
  match xs with
  | x :: _ => Returned x
  | [] => Raised (mk_exn Exception "list index out of range")
  end.

(** An expression that may raise, evaluated inside a body. *)
Definition eval {S A} (o : Outcome A) : M S A := fun s => (o, s).

End PyDict.

(* ================================================================== *)
(** * [app/core_engine.py]: health check and the old entry points      *)
(* ================================================================== *)

Module CoreEngineApi.

Import CoreEngine Body PyDict.

(** The entry of one component in [health_status["components"]]:
    [{"healthy": True, "test_result": ...}],
    [{"healthy": True, "bigquery_client": ...}] or
    [{"healthy": False, "error": ...}]. *)
Inductive ComponentStatus : Type :=
| ProbeAnswered (test_result : bool)
| ClientPresent (bigquery_client : string)
| Unhealthy (error : string).

Definition healthy (c : ComponentStatus) : bool :=
  match c with
  | ProbeAnswered _ | ClientPresent _ => true
  | Unhealthy _ => false
  end.

Record HealthStatus : Type := mk_health {
  overall_healthy : bool;
  components : dict ComponentStatus
}.

Definition set_component (name : string) (c : ComponentStatus) (h : HealthStatus)
  : HealthStatus :=
  mk_health (overall_healthy h) (dict_set (components h) name c).

Definition set_overall_healthy (v : bool) (h : HealthStatus) : HealthStatus :=
  mk_health v (components h).

(** [bq_client_type] is the evaluation of
    [str(type(self.response_generator.bq_client))]. *)
Definition health_check (self : AlaskaSnowAgent) (bq_client_type : Outcome string)
  : M Trace HealthStatus :=
  let health_status := mk_health true [] in
  starting_from health_status
    (try_
       (test_result <- calling (safety_validator self "test message") ;;
        modify (set_component "safety_validator" (ProbeAnswered test_result)))
       [ except [Exception]
           (fun e =>
              modify (set_component "safety_validator" (Unhealthy (str e))) ;;
              modify (set_overall_healthy false)) ] ;;
     try_
       (client <- eval bq_client_type ;;
        modify (set_component "response_generator" (ClientPresent client)))
       [ except [Exception]
           (fun e =>
              modify (set_component "response_generator" (Unhealthy (str e))) ;;
              modify (set_overall_healthy false)) ] ;;
     current).

(** The entry written for the validator probe, and for the client. *)
Definition probe_status (o : Outcome bool) : ComponentStatus :=
  match o with
  | Returned test_result => ProbeAnswered test_result
  | Raised e => Unhealthy (str e)
  end.

Definition client_status (o : Outcome string) : ComponentStatus :=
  match o with
  | Returned client => ClientPresent client
  | Raised e => Unhealthy (str e)
  end.

(** The module-level [generate_assistant_response] of [core_engine.py]
    (not the method of [ResponseGenerator]). *)
Definition generate_assistant_response (svc : Services) (id_of_input : Z)
  (user_input : string) : M Trace string :=
  result <- process_user_request (alaska_agent svc) id_of_input user_input ;;
  ret (response result).

(** The module-level [validate_prompt_safety] of [core_engine.py]. *)
Definition validate_prompt_safety (svc : Services) (prompt : string) : M Trace bool :=
  SafetyValidator.validate_prompt_safety svc prompt.

End CoreEngineApi.

(* ================================================================== *)
(** * [app/safety_validator.py]: validation metrics                    *)
(* ================================================================== *)

Module ValidationMetrics.

Import PyDict.

(** [s.split()] from a position: the maximal runs of characters that are
    no white space; [word] is the run gathered so far. *)
Fixpoint split_from (word : string) (s : string) : list string :=
  match s with
  | EmptyString => if py_not word then [] else [word]
  | String c r =>
      if isspace c then
        if py_not word then split_from EmptyString r
        else word :: split_from EmptyString r
      else split_from (word ++ String c EmptyString) r
  end.

Definition split (s : string) : list string := split_from EmptyString s.

(** The two dictionaries [get_validation_metrics] can return; the second
    one has ["is_safe": False]. *)
Inductive Metrics : Type :=
| Measured (is_safe : bool) (prompt_length : nat) (word_count : nat)
           (timestamp : string)
| NotMeasured (error : string) (prompt_length : nat).

Definition is_safe_of (m : Metrics) : bool :=
  match m with
  | Measured is_safe _ _ _ => is_safe
  | NotMeasured _ _ => false
  end.

Definition prompt_length_of (m : Metrics) : nat :=
  match m with
  | Measured _ n _ _ => n
  | NotMeasured _ n => n
  end.

(** The ["timestamp"] entry,
    [logger.handlers[0].formatter.formatTime(logging.LogRecord(...))].
    [formatTime_of_logger] is the evaluation of the callee, which
    depends on the logger set up in [utils/logger.py]; the argument
    then names [logging], which [safety_validator.py] never imports, so
    its evaluation raises NameError. *)
Definition timestamp_entry {S} (formatTime_of_logger : Outcome unit) : M S string :=
  (_ <- eval formatTime_of_logger ;;
   raise (mk_exn Exception "name 'logging' is not defined")).

(** [validate] is [self.validate_prompt_safety]. *)
Definition get_validation_metrics (validate : string -> M Trace bool)
  (formatTime_of_logger : Outcome unit) (prompt : string) : M Trace Metrics :=
  try_
    (is_safe <- validate prompt ;;
     let prompt_length := String.length prompt in
     let word_count := List.length (split prompt) in
     timestamp <- timestamp_entry formatTime_of_logger ;;
     ret (Measured is_safe prompt_length word_count timestamp))
    [ except [Exception]
        (fun e =>
           ret (NotMeasured (str e)
                  (if py_not prompt then O else String.length prompt))) ].

End ValidationMetrics.

(* ================================================================== *)
(** * [evaluation/response_evaluator.py]: the evaluation record        *)
(* ================================================================== *)

Module EvaluationMetrics.

Import ResponseEvaluator PyDict.
Local Open Scope Q_scope.

(** The dictionary of [compute_comprehensive_metrics]; [error] says
    whether the ["error"] key is there. *)
Record EvaluationRecord : Type := mk_record {
  reference : string;
  prediction : string;
  rouge1 : Q;
  rouge2 : Q;
  rougeL : Q;
  rougeLsum : Q;
  bertscore_precision : Q;
  bertscore_recall : Q;
  bertscore_f1 : Q;
  fluency_score : Q;
  semantic_similarity : Q;
  length_ratio : Q;
  word_overlap : Q;
  error : bool
}.

Definition _get_default_metrics (reference prediction : string) : EvaluationRecord :=
  mk_record reference prediction 0 0 0 0 0 0 0 1 0 0 0 true.

(** [a.intersection(b)] on sets kept as duplicate-free lists. *)
Definition intersection (a b : list string) : list string :=
  filter (fun w => existsb (String.eqb w) b) a.

(** [len(s)] of a text, as a number. *)
Definition len_str (s : string) : Q := inject_Z (Z.of_nat (String.length s)).

(** [max(len(s), 1)] *)
Definition len_or_one (s : string) : Q :=
  inject_Z (Z.max (Z.of_nat (String.length s)) 1).

Section Scorers.

(** [round(x, 3)] works on the double nearest to the quotient [x].  Away
    from a tie both round to the same multiple of 1/1000; when [x] is
    exactly half way between two of them the side on which its double
    lies decides, and [ties_up] stands for that side. *)
Variable ties_up : Q -> bool.

Definition round_nearest (x : Q) : Z :=
  let f := Qfloor x in
  match Qcompare (x - inject_Z f) (1 # 2) with
  | Lt => f
  | Gt => (f + 1)%Z
  | Eq => if ties_up x then (f + 1)%Z else f
  end.

Definition round3 (x : Q) : Q := inject_Z (round_nearest (x * 1000)) / 1000.

Definition _compute_word_overlap (reference prediction : string) : Q :=
  let ref_words := py_set (tokenize_words reference) in
  let pred_words := py_set (tokenize_words prediction) in
  if is_empty ref_words then 0
  else
    let overlap := len (intersection ref_words pred_words) in
    round3 (overlap / len ref_words).

(** The ROUGE and BERTScore metrics loaded by [evaluate.load], called
    with one prediction and one reference, and the embedding model. *)
Variable rouge_compute : string -> string -> Outcome (dict Q).
Variable bertscore_compute : string -> string -> Outcome (dict (list Q)).
Variable Tensor : Type.
Variable encode : string -> Outcome Tensor.
Variable pytorch_cos_sim : Tensor -> Tensor -> Outcome Q.

Definition compute_comprehensive_metrics {S} (reference prediction : string)
  : M S EvaluationRecord :=
  try_
    (rouge_result <- eval (rouge_compute prediction reference) ;;
     bert_result <- eval (bertscore_compute prediction reference) ;;
     let fluency_score := compute_fluency_score prediction in
     let semantic_similarity :=
       compute_semantic_similarity encode pytorch_cos_sim reference prediction in
     let length_ratio := len_str prediction / len_or_one reference in
     let word_overlap := _compute_word_overlap reference prediction in
     rouge1 <- eval (getitem rouge_result "rouge1") ;;
     rouge2 <- eval (getitem rouge_result "rouge2") ;;
     rougeL <- eval (getitem rouge_result "rougeL") ;;
     let rougeLsum := get rouge_result "rougeLsum" 0 in
     precisions <- eval (getitem bert_result "precision") ;;
     bertscore_precision <- eval (first_item precisions) ;;
     recalls <- eval (getitem bert_result "recall") ;;
     bertscore_recall <- eval (first_item recalls) ;;
     f1s <- eval (getitem bert_result "f1") ;;
     bertscore_f1 <- eval (first_item f1s) ;;
     ret (mk_record reference prediction rouge1 rouge2 rougeL rougeLsum
            bertscore_precision bertscore_recall bertscore_f1
            fluency_score semantic_similarity (round3 length_ratio)
            word_overlap false))
    [ except [Exception]
        (fun e => ret (_get_default_metrics reference prediction)) ].

(** [pd.DataFrame([metrics])]: a frame of one row. *)
Definition evaluate_response_quality {S} (reference prediction : string)
  : M S (list EvaluationRecord) :=
  metrics <- compute_comprehensive_metrics reference prediction ;;
  ret [metrics].

(** The module-level [evaluate_text]. *)
Definition evaluate_text {S} (reference prediction : string)
  : M S (list EvaluationRecord) :=
  evaluate_response_quality reference prediction.

End Scorers.

End EvaluationMetrics.

(* ================================================================== *)
(** * [ui/streamlit_interface.py]: the session                         *)
(* ================================================================== *)

Module StreamlitInterface.

Import CoreEngine Body.

(** One entry of [st.session_state.messages]. *)
Record Message : Type := mk_message {
  role : string;
  content : string;
  is_error : bool
}.

(** The three entries of [st.session_state] the module keeps; [None] is
    an entry that is not there. *)
Record SessionState : Type := mk_session {
  messages : option (list Message);
  clear_input : option bool;
  request_count : option Z
}.

Definition initialize_session_state (s : SessionState) : SessionState :=
  let s :=
    match messages s with
    | None => mk_session (Some []) (clear_input s) (request_count s)
    | Some _ => s
    end in
  let s :=
    match clear_input s with
    | None => mk_session (messages s) (Some false) (request_count s)
    | Some _ => s
    end in
  match request_count s with
  | None => mk_session (messages s) (clear_input s) (Some 0%Z)
  | Some _ => s
  end.

(** Reading an entry that is not there raises AttributeError. *)
Definition missing_entry (name : string) : exn :=
  mk_exn Exception ("st.session_state has no attribute " ++ name).

(** [st.session_state.messages.append(msg)] *)
Definition append_message (msg : Message) : M (SessionState * Trace) unit :=
  fun st =>
    match messages (fst st) with
    | Some history =>
        (Returned tt,
         (mk_session (Some (history ++ [msg])%list) (clear_input (fst st))
            (request_count (fst st)),
          snd st))
    | None => (Raised (missing_entry "messages"), st)
    end.

(** [st.session_state.request_count += 1] *)
Definition count_request : M (SessionState * Trace) unit :=
  fun st =>
    match request_count (fst st) with
    | Some n =>
        (Returned tt,
         (mk_session (messages (fst st)) (clear_input (fst st)) (Some (n + 1)%Z),
          snd st))
    | None => (Raised (missing_entry "request_count"), st)
    end.

Definition ui_error_message : string :=
  "I apologize, but I'm experiencing technical difficulties. "
  ++ "Please try again later.".

(** [agent] is the module-level [alaska_agent]; [id_of_input] as in
    [process_user_request]. *)
Definition process_user_input (agent : AlaskaSnowAgent) (id_of_input : Z)
  (user_input : string) : M (SessionState * Trace) unit :=
  append_message (mk_message "user" user_input false) ;;
  try_
    (result <- calling (process_user_request agent id_of_input user_input) ;;
     append_message
       (mk_message "assistant" (response result) (negb (success result))) ;;
     count_request)
    [ except [Exception]
        (fun e => append_message (mk_message "assistant" ui_error_message true)) ].

(** The condition [(send_button or user_input) and user_input.strip()]
    of [main], as a truth value. *)
Definition input_accepted (send_button : bool) (user_input : string) : bool :=
  (send_button || negb (py_not user_input)) && negb (py_not (strip user_input)).

(** The input step of [main]: under the condition, the stripped input is
    processed and [clear_input] is set (the rerun that follows starts
    the script again and is not part of the state). *)
Definition main_input_step (agent : AlaskaSnowAgent) (id_of_input : Z)
  (send_button : bool) (user_input : string) : M (SessionState * Trace) unit :=
  if input_accepted send_button user_input then
    process_user_input agent id_of_input (strip user_input) ;;
    modify (fun s => mk_session (messages s) (Some true) (request_count s))
  else ret tt.

(** The "Clear Chat History" button of [main]. *)
Definition clear_chat_history (s : SessionState) : SessionState :=
  mk_session (Some []) (clear_input s) (Some 0%Z).

(** A history made of exchanges: a user message, then the assistant's. *)
Fixpoint exchanges (history : list Message) : bool :=
  match history with
  | [] => true
  | u :: rest =>
      match rest with
      | a :: rest' =>
          (role u =? "user")%string && (role a =? "assistant")%string
          && exchanges rest'
      | [] => false
      end
  end.

(** All three entries are there, and the counter counts the exchanges
    of the history. *)
Definition consistent (s : SessionState) : Prop :=
  exists history n,
    messages s = Some history
    /\ request_count s = Some n
    /\ clear_input s <> None
    /\ exchanges history = true
    /\ (Z.of_nat (List.length history) = 2 * n)%Z.

End StreamlitInterface.

(* ================================================================== *)
(** * Further test doubles                                             *)
(* ================================================================== *)

Module MoreDoubles.

Import PyDict.

(** No service answers. *)
Definition unreachable_services : Services :=
  {| classifier := Doubles.down;
     vector_search := Doubles.down;
     chat_model := Doubles.down |}.

(** Classifier says SAFE, the search fails. *)
Definition search_down_services : Services :=
  {| classifier := fun _ _ => Returned "SAFE";
     vector_search := Doubles.down;
     chat_model := fun _ _ => Returned "unused" |}.

(** Classifier says UNSAFE. *)
Definition unsafe_services : Services :=
  {| classifier := fun _ _ => Returned "UNSAFE";
     vector_search := fun _ _ => Returned Doubles.road_faq;
     chat_model := fun _ _ => Returned "unused" |}.

End MoreDoubles.

(* ================================================================== *)
(** * The ways of a request through the repository's components        *)
(* ================================================================== *)

Module Journey.

Import CoreEngine Spec.

Section OneRequest.

Variable svc : Services.
Variable id_of_input : Z.
Variable user_input : string.
Variable t : Trace.

Definition classify_call : Call :=
  ClassifyCall (SafetyValidator.safety_prompt_template user_input).

Definition search_call : Call := SearchCall user_input.

Definition generate_call (context_df : DataFrame) : Call :=
  GenerateCall (ResponseGenerator.build_context_prompt user_input context_df).

(** The classifier is asked first, the store second, the chat model
    third. *)
Definition classifier_says : Outcome string :=
  classifier svc t (SafetyValidator.safety_prompt_template user_input).

Definition store_says : Outcome DataFrame :=
  vector_search svc (t ++ [classify_call])%list user_input.

Definition chat_says (context_df : DataFrame) : Outcome string :=
  chat_model svc ((t ++ [classify_call]) ++ [search_call])%list
    (ResponseGenerator.build_context_prompt user_input context_df).

Definition judged_safe (text : string) : bool :=
  (upper (strip text) =? "SAFE")%string.

(** The result and the trace of one request, by what the three services
    did. *)
Inductive ends_in : PipelineResult -> Trace -> Prop :=
| blank_input :
    blank user_input = true ->
    ends_in (blocked (received id_of_input user_input)) t
| classifier_failed (cause : exn) :
    blank user_input = false ->
    classifier_says = Raised cause ->
    ends_in
      (failed (mk_exn SafetyValidationError
                 ("Safety validation error: " ++ str cause))
         (received id_of_input user_input))
      (t ++ [classify_call])%list
| judged_unsafe (text : string) :
    blank user_input = false ->
    classifier_says = Returned text ->
    judged_safe text = false ->
    ends_in (blocked (received id_of_input user_input))
      (t ++ [classify_call])%list
| retrieval_failed (text : string) (cause : exn) :
    blank user_input = false ->
    classifier_says = Returned text ->
    judged_safe text = true ->
    store_says = Raised cause ->
    ends_in
      (failed (mk_exn RAGRetrievalError
                 ("Failed to retrieve context: " ++ str cause))
         (set_safety_passed true (received id_of_input user_input)))
      (t ++ [classify_call; search_call])%list
| chat_failed (text : string) (context_df : DataFrame) (cause : exn) :
    blank user_input = false ->
    classifier_says = Returned text ->
    judged_safe text = true ->
    store_says = Returned context_df ->
    chat_says context_df = Raised cause ->
    ends_in
      (failed (if issubclass (exn_cls cause) RAGRetrievalError then cause
               else mk_exn ResponseGenerationError
                      ("Failed to generate response: " ++ str cause))
         (set_safety_passed true (received id_of_input user_input)))
      (t ++ [classify_call; search_call; generate_call context_df])%list
| empty_answer (text : string) (context_df : DataFrame) :
    blank user_input = false ->
    classifier_says = Returned text ->
    judged_safe text = true ->
    store_says = Returned context_df ->
    chat_says context_df = Returned EmptyString ->
    ends_in
      (failed (mk_exn ResponseGenerationError
                 "Failed to generate response: Model returned empty response")
         (set_safety_passed true (received id_of_input user_input)))
      (t ++ [classify_call; search_call; generate_call context_df])%list
| answered (text : string) (context_df : DataFrame) (answer : string) :
    blank user_input = false ->
    classifier_says = Returned text ->
    judged_safe text = true ->
    store_says = Returned context_df ->
    chat_says context_df = Returned answer ->
    answer <> EmptyString ->
    ends_in (responded (strip answer) (received id_of_input user_input))
      (t ++ [classify_call; search_call; generate_call context_df])%list.

End OneRequest.

End Journey.

(* ================================================================== *)
(** * Readings used for the two scanners                               *)
(* ================================================================== *)

Module Readings.

(** A lower-case letter, a digit or the underscore. *)
Definition token_char (c : ascii) : bool :=
  is_az c || is_digit c || (code c =? 95)%nat.

(** A word as [tokenize_words] gives it: not empty, made of lower-case
    letters, digits and underscores. *)
Definition lower_case_token (w : string) : Prop :=
  w <> EmptyString /\ all_chars token_char w = true.

(** No ['.'], ['!'] or ['?'] in the text. *)
Definition no_terminator (s : string) : bool :=
  all_chars (fun c => negb (ResponseEvaluator.is_terminator c)) s.

(** ASCII text: every character is one of the 128 the tables of
    [PyStr] are taken from. *)
Definition ascii_only (s : string) : bool :=
  all_chars (fun c => (code c <? 128)%nat) s.

End Readings.

(* ================================================================== *)
(** * Readings used for the evaluation record                          *)
(* ================================================================== *)

Module RecordReadings.

Import PyDict.

(** The key is there. *)
Definition has_score (d : dict Q) (k : string) : bool :=
  match dict_lookup d k with
  | Some _ => true
  | None => false
  end.

(** The key is there and its list has a first item. *)
Definition has_first_score (d : dict (list Q)) (k : string) : bool :=
  match dict_lookup d k with
  | Some (_ :: _) => true
  | _ => false
  end.

(** Both scorers returned, with every entry the record reads by index;
    ["rougeLsum"] is read with a default and is not asked for. *)
Definition scorers_delivered (rouge_result : Outcome (dict Q))
  (bert_result : Outcome (dict (list Q))) : bool :=
  match rouge_result, bert_result with
  | Returned rd, Returned bd =>
      has_score rd "rouge1" && has_score rd "rouge2" && has_score rd "rougeL"
      && has_first_score bd "precision" && has_first_score bd "recall"
      && has_first_score bd "f1"
  | _, _ => false
  end.

(** The first item of the list under a key, 0 when there is none. *)
Definition first_score (d : dict (list Q)) (k : string) : Q :=
  match dict_lookup d k with
  | Some (x :: _) => x
  | _ => 0%Q
  end.

End RecordReadings.

(* ================================================================== *)
(** * Doubles for the evaluator and the session                       *)
(* ================================================================== *)

Module EvaluatorDoubles.

Import PyDict.

(** A ROUGE result without the ["rougeLsum"] entry. *)
Definition rouge_without_lsum (prediction reference : string) : Outcome (dict Q) :=
  Returned [("rouge1", 3 # 4); ("rouge2", 1 # 2); ("rougeL", 3 # 4)]%Q.

(** A ROUGE result without the ["rouge2"] entry. *)
Definition rouge_without_rouge2 (prediction reference : string) : Outcome (dict Q) :=
  Returned [("rouge1", 3 # 4); ("rougeL", 3 # 4); ("rougeLsum", 3 # 4)]%Q.

Definition bertscore_of_one (prediction reference : string)
  : Outcome (dict (list Q)) :=
  Returned [("precision", [9 # 10]); ("recall", [8 # 10]); ("f1", [17 # 20])]%Q.

(** A session with one exchange in its history. *)
Definition one_exchange : StreamlitInterface.SessionState :=
  StreamlitInterface.mk_session
    (Some [StreamlitInterface.mk_message "user" "Is Main Street plowed?" false;
           StreamlitInterface.mk_message "assistant" "Yes, since 6 AM." false])
    (Some false) (Some 1%Z).

(** The session of a script that has not run yet. *)
Definition empty_session : StreamlitInterface.SessionState :=
  StreamlitInterface.mk_session None None None.

End EvaluatorDoubles.

(* ================================================================== *)
(** * The fluency heuristic, as the rules of the specification       *)
(* ================================================================== *)

Module FluencySpec.

Local Open Scope Q_scope.

(** ** The two classes the sentence pattern spells out

    White space, word characters and case folding are not spelled out
    by the patterns: they are those of Python strings, [isspace],
    [is_word] and [lower] of [PyStr]. *)

Fixpoint occurs_in (c : ascii) (alphabet : string) : bool :=
  match alphabet with
  | EmptyString => false
  | String a rest => Ascii.eqb c a || occurs_in c rest
  end.

Definition upper_case_alphabet : string := "ABCDEFGHIJKLMNOPQRSTUVWXYZ".

(** ['.'], ['!'] or ['?']. *)
Definition terminator (c : ascii) : bool := occurs_in c ".!?".

(** An upper-case letter. *)
Definition upper_case_letter (c : ascii) : bool := occurs_in c upper_case_alphabet.

(** ** Sentences *)

Definition ends_with (p : ascii -> bool) (s : string) : Prop :=
  exists before c, s = (before ++ String c EmptyString)%string /\ p c = true.

Definition starts_with (p : ascii -> bool) (s : string) : Prop :=
  exists c after, s = String c after /\ p c = true.

Section SentenceRule.

(** The three classes of the boundary rule. *)
Variables ends space begins : ascii -> bool.

(** White space, at least one character of it. *)
Definition gap (g : string) : Prop :=
  g <> EmptyString /\ all_chars space g = true.

(** A sentence boundary lies in [s]: after a character of [ends] comes
    white space and then a character of [begins]. *)
Definition has_boundary (s : string) : Prop :=
  exists before g after,
    s = (before ++ g ++ after)%string
    /\ ends_with ends before /\ gap g /\ starts_with begins after.

(** [s] cut at every boundary: the white space of each boundary is
    dropped, and no sentence has a boundary left inside. *)
Inductive cut_at_boundaries : string -> list string -> Prop :=
| last_sentence (s : string) :
    ~ has_boundary s ->
    cut_at_boundaries s [s]
| sentence_then (sentence g rest : string) (sentences : list string) :
    ~ has_boundary sentence ->
    ends_with ends sentence ->
    gap g ->
    starts_with begins rest ->
    cut_at_boundaries rest sentences ->
    cut_at_boundaries (sentence ++ g ++ rest)%string (sentence :: sentences).

End SentenceRule.

(** The sentences of a text: its stripped form cut where a terminator is
    followed by white space and an upper-case letter. *)
Definition sentences_of (text : string) (sentences : list string) : Prop :=
  cut_at_boundaries terminator isspace upper_case_letter (strip text) sentences.

(** ** Words *)

Section WordRule.

Variable word : ascii -> bool.

Definition separator (s : string) : Prop :=
  all_chars (fun c => negb (word c)) s = true.

(** The maximal runs of word characters of [s], from left to right: a
    word is not empty, is made of word characters, and is followed by
    the end of the text or by a character that is none. *)
Inductive maximal_runs : string -> list string -> Prop :=
| no_word (sep : string) :
    separator sep ->
    maximal_runs sep []
| word_then (sep w rest : string) (words : list string) :
    separator sep ->
    w <> EmptyString ->
    all_chars word w = true ->
    ~ starts_with word rest ->
    maximal_runs rest words ->
    maximal_runs (sep ++ w ++ rest)%string (w :: words).

End WordRule.

(** The words of a text: the maximal runs of word characters of its
    case-folded form. *)
Definition words_of (text : string) (words : list string) : Prop :=
  maximal_runs is_word (lower text) words.

(** ** The score, from the three counts *)

Definition score_of_counts (sentence_count word_count unique_word_count : nat) : Q :=
  match sentence_count, word_count with
  | O, _ | _, O => 1
  | _, _ =>
      let avg_sentence_length :=
        inject_Z (Z.of_nat word_count) / inject_Z (Z.of_nat sentence_count) in
      let word_variety :=
        inject_Z (Z.of_nat unique_word_count) / inject_Z (Z.of_nat word_count) in
      let score := 5 in
      let score :=
        if Qlt_le_dec avg_sentence_length 5 then score - (3 # 2)
        else if Qlt_le_dec 25 avg_sentence_length then score - 1
        else score in
      let score :=
        if Qlt_le_dec word_variety (1 # 2) then score - 1
        else if Qlt_le_dec (4 # 5) word_variety then score + (1 # 2)
        else score in
      if Qlt_le_dec score 1 then 1
      else if Qlt_le_dec 5 score then 5
      else score
  end.

(** The number of different words. *)
Definition unique_count (words : list string) : nat :=
  List.length (nodup string_dec words).

End FluencySpec.

(* ================================================================== *)
(** * Properties                                                       *)
(* ================================================================== *)

(** ** Text *)

Section TextFacts.

Lemma lstrip_shape (s : string) :
  lstrip s = EmptyString
  \/ exists c r, lstrip s = String c r /\ isspace c = false.
Proof.
  induction s as [|c r IH]; simpl.
  - now left.
  - destruct (isspace c) eqn:E.
    + exact IH.
    + right. now exists c, r.
Qed.

Lemma rstrip_keeps_head (c : ascii) (r : string) :
  isspace c = false -> exists r', rstrip (String c r) = String c r'.
Proof.
  intros E. simpl. destruct (rstrip r).
  - rewrite E. now exists EmptyString.
  - now eexists.
Qed.

Lemma blank_lstrip (s : string) : blank s = true <-> lstrip s = EmptyString.
Proof.
  unfold blank. induction s as [|c r IH]; simpl.
  - tauto.
  - destruct (isspace c); simpl.
    + exact IH.
    + split; discriminate.
Qed.

Lemma strip_empty_iff_blank (s : string) :
  strip s = EmptyString <-> blank s = true.
Proof.
  unfold strip. rewrite blank_lstrip.
  destruct (lstrip_shape s) as [E | (c & r & E & Hc)]; rewrite E.
  - simpl. tauto.
  - destruct (@rstrip_keeps_head c r Hc) as [r' Er]. rewrite Er.
    split; discriminate.
Qed.

(** The guard [not s or not s.strip()] is the test for blank text. *)
Lemma blank_guard (s : string) : py_not s || py_not (strip s) = blank s.
Proof.
  destruct (blank s) eqn:B.
  - apply strip_empty_iff_blank in B. rewrite B. simpl. apply orb_true_r.
  - assert (N : strip s <> EmptyString).
    { intros E. apply strip_empty_iff_blank in E. congruence. }
    destruct s as [|c r]; [discriminate B|].
    destruct (strip (String c r)); [congruence | reflexivity].
Qed.

Lemma contains_intro (pre sub post : string) : Contains (pre ++ sub ++ post) sub.
Proof. now exists pre, post. Qed.

Lemma append_assoc (a b c : string) : ((a ++ b) ++ c = a ++ (b ++ c))%string.
Proof. induction a as [|x a IH]; simpl; [reflexivity | now rewrite IH]. Qed.

Lemma append_empty_r (a : string) : (a ++ "" = a)%string.
Proof. induction a as [|x a IH]; simpl; [reflexivity | now rewrite IH]. Qed.

Lemma contains_trans (s mid sub : string) :
  Contains s mid -> Contains mid sub -> Contains s sub.
Proof.
  intros (p1 & q1 & E1) (p2 & q2 & E2). subst.
  exists (p1 ++ p2)%string, (q2 ++ q1)%string.
  now rewrite !append_assoc.
Qed.

Lemma contains_join (sep : string) (parts : list string) (p : string) :
  In p parts -> Contains (join sep parts) p.
Proof.
  induction parts as [|a rest IH]; intros H; [destruct H|].
  destruct rest as [|b rest'].
  - destruct H as [<- | []]. exists EmptyString, EmptyString.
    simpl. now rewrite append_empty_r.
  - change (join sep (a :: b :: rest'))
      with (a ++ sep ++ join sep (b :: rest'))%string.
    destruct H as [<- | H].
    + exists EmptyString, (sep ++ join sep (b :: rest'))%string. reflexivity.
    + destruct (IH H) as (pre & post & E). rewrite E.
      exists (a ++ sep ++ pre)%string, post. now rewrite !append_assoc.
Qed.

End TextFacts.

(** ** Exceptions *)

(** [except Exception] matches every exception of the model. *)
Lemma every_class_is_exception (e : exn) :
  existsb (issubclass (exn_cls e)) [Exception] = true.
Proof. now destruct e as [[] msg]. Qed.

(** ** SafetyGate *)

Section SafetyGate.

Import SafetyValidator.

Variable svc : Services.

(** The run of [validate_prompt_safety] on text that is not blank: one
    classifier call, then the decision on its answer. *)
Lemma validate_run (prompt : string) (t : Trace) :
  blank prompt = false ->
  validate_prompt_safety svc prompt t =
  (match classifier svc t (safety_prompt_template prompt) with
   | Returned text => Returned (upper (strip text) =? "SAFE")%string
   | Raised e =>
       Raised (mk_exn SafetyValidationError ("Safety validation error: " ++ str e))
   end,
   (t ++ [ClassifyCall (safety_prompt_template prompt)])%list).
Proof.
  intros B. unfold validate_prompt_safety. rewrite blank_guard, B.
  unfold try_, bind, call.
  destruct (classifier svc t (safety_prompt_template prompt)) as [text|e].
  - simpl. destruct (upper (strip text) =? "SAFE")%string; [reflexivity|].
    now destruct (upper (strip text) =? "UNSAFE")%string.
  - cbn [dispatch catches handler]. now rewrite every_class_is_exception.
Qed.

(** C3. On empty or whitespace-only text [validate_prompt_safety] returns
    [False] and the trace of service calls is unchanged; on any other
    prompt exactly one classifier call is added to the trace, and when the
    classifier answers with a text the result is [True] exactly when the
    text, stripped and upper-cased, is "SAFE" -- so "UNSAFE" and every
    other answer give [False]. *)
Theorem validate_prompt_safety_decision (prompt : string) (t : Trace) :
  (blank prompt = true ->
   validate_prompt_safety svc prompt t = (Returned false, t))
  /\ (blank prompt = false ->
      snd (validate_prompt_safety svc prompt t)
      = (t ++ [ClassifyCall (safety_prompt_template prompt)])%list
      /\ forall text,
          classifier svc t (safety_prompt_template prompt) = Returned text ->
          fst (validate_prompt_safety svc prompt t)
          = Returned (upper (strip text) =? "SAFE")%string
          /\ (upper (strip text) = "UNSAFE" ->
              fst (validate_prompt_safety svc prompt t) = Returned false)
          /\ (upper (strip text) <> "SAFE" ->
              fst (validate_prompt_safety svc prompt t) = Returned false)).
Proof.
  split; intros B.
  - unfold validate_prompt_safety. now rewrite blank_guard, B.
  - rewrite (@validate_run prompt t B). simpl. split; [reflexivity|].
    intros text ->. split; [reflexivity|]. split.
    + intros ->. reflexivity.
    + intros N. apply String.eqb_neq in N. now rewrite N.
Qed.

End SafetyGate.

Lemma validate_prompt_safety_decision_witness :
  SafetyValidator.validate_prompt_safety Doubles.lowercase_safe_services "   " []
  = (Returned false, [])
  /\ fst (SafetyValidator.validate_prompt_safety Doubles.lowercase_safe_services
            "Is Main Street plowed?" [])
     = Returned true.
Proof.
  split.
  - apply (proj1 (validate_prompt_safety_decision Doubles.lowercase_safe_services "   " [])).
    reflexivity.
  - exact (proj1 (proj2 (proj2 (validate_prompt_safety_decision
                                  Doubles.lowercase_safe_services
                                  "Is Main Street plowed?" []) eq_refl)
                   (" safe" ++ nl)%string eq_refl)).
Defined.

(** ** RequestPipeline *)

Section Orchestrator.

Import CoreEngine Spec.

Variable self : AlaskaSnowAgent.
Variable id_of_input : Z.
Variable input : string.

(** The run of [process_user_request], by what the two components do. *)
Lemma process_user_request_run (t : Trace) :
  process_user_request self id_of_input input t =
  match safety_validator self input t with
  | (Raised e, t1) => (Returned (failed e (received id_of_input input)), t1)
  | (Returned false, t1) => (Returned (blocked (received id_of_input input)), t1)
  | (Returned true, t1) =>
      match response_generator self input t1 with
      | (Raised e, t2) =>
          (Returned (failed e (set_safety_passed true (received id_of_input input))), t2)
      | (Returned text, t2) =>
          (Returned (responded text (received id_of_input input)), t2)
      end
  end.
Proof.
  unfold process_user_request, with_result, try_, bind, lift, assign, the_result.
  cbn [fst snd].
  destruct (safety_validator self input t) as [[[|]|e] t1]; cbn [negb fst snd].
  - destruct (response_generator self input t1) as [[text|e] t2]; cbn [fst snd].
    + reflexivity.
    + unfold failed. destruct e as [[] msg]; reflexivity.
  - reflexivity.
  - unfold failed. destruct e as [[] msg]; reflexivity.
Qed.

(** Whatever the components do, a result is returned. *)
Lemma process_user_request_returns (t : Trace) :
  exists r t', process_user_request self id_of_input input t = (Returned r, t').
Proof.
  rewrite process_user_request_run.
  destruct (safety_validator self input t) as [[[|]|e] t1];
    [destruct (response_generator self input t1) as [[text|e] t2] | |];
    eauto.
Qed.

Lemma failed_keeps_flags (e : exn) (r : PipelineResult) :
  success (failed e r) = success r
  /\ safety_passed (failed e r) = safety_passed r
  /\ context_retrieved (failed e r) = context_retrieved r
  /\ error (failed e r) <> None.
Proof.
  unfold failed.
  destruct (issubclass (exn_cls e) SafetyValidationError);
    [| destruct (issubclass (exn_cls e) RAGRetrievalError
                 || issubclass (exn_cls e) ResponseGenerationError)];
    cbn; repeat split; discriminate.
Qed.

Lemma failed_unclassified (e : exn) (r : PipelineResult) :
  unclassified e ->
  failed e r
  = set_error (Some ("Unexpected error: " ++ str e))
      (set_response default_error_message r).
Proof.
  intros (H1 & H2 & H3). unfold failed. now rewrite H1, H2, H3.
Qed.

(** C1. [process_user_request] returns a result for every input and every
    behaviour of its two components, and never raises; when a component
    raises an exception that is none of SafetyValidationError,
    RAGRetrievalError, ResponseGenerationError, the result carries the
    technical-difficulty message, [success = False] and the error text
    "Unexpected error: " followed by the exception's message. *)
Theorem process_user_request_never_raises (t : Trace) :
  exists r t',
    process_user_request self id_of_input input t = (Returned r, t')
    /\ forall e,
        raised_in_request self input t e ->
        unclassified e ->
        response r = default_error_message
        /\ success r = false
        /\ error r = Some ("Unexpected error: " ++ str e).
Proof.
  rewrite process_user_request_run. unfold raised_in_request.
  destruct (safety_validator self input t) as [[[|]|e0] t1] eqn:V.
  - destruct (response_generator self input t1) as [[text|e0] t2] eqn:G.
    + eexists _, _. split; [reflexivity|].
      intros e [(t1' & H) | (t1' & t2' & H1 & H2)] _; [discriminate H|].
      injection H1 as <-. rewrite G in H2. discriminate H2.
    + eexists _, _. split; [reflexivity|].
      intros e [(t1' & H) | (t1' & t2' & H1 & H2)] U; [discriminate H|].
      injection H1 as <-. rewrite G in H2. injection H2 as <- _.
      rewrite (failed_unclassified _ U). now cbn.
  - eexists _, _. split; [reflexivity|].
    intros e [(t1' & H) | (t1' & t2' & H1 & H2)] _; discriminate.
  - eexists _, _. split; [reflexivity|].
    intros e [(t1' & H) | (t1' & t2' & H1 & H2)] U; [|discriminate H1].
    injection H as <- _.
    rewrite (failed_unclassified _ U). now cbn.
Qed.

(** C2. Every result returned by [process_user_request] satisfies the
    invariant: [success] implies no error and [safety_passed]; not
    [safety_passed] implies not [success].  The components are arbitrary,
    so this covers every behaviour of the classifier, the context store
    and the generator behind them. *)
Theorem process_user_request_invariant (t : Trace) :
  (exists r t', process_user_request self id_of_input input t = (Returned r, t'))
  /\ forall r t',
      process_user_request self id_of_input input t = (Returned r, t') ->
      result_invariant r.
Proof.
  split; [apply process_user_request_returns|].
  intros r t'. rewrite process_user_request_run. unfold result_invariant.
  destruct (safety_validator self input t) as [[[|]|e] t1];
    [destruct (response_generator self input t1) as [[text|e] t2] | |];
    intros H; injection H as <- _;
    try match goal with
        | |- context [failed ?e ?r0] =>
            destruct (failed_keeps_flags e r0) as (S & P & _ & _); rewrite S, P
        end;
    cbn; split; intros; try split; congruence.
Qed.

End Orchestrator.

Section Taxonomy.

Import CoreEngine Spec.

(** C4. Policy rejection and infrastructure faults stay apart in
    [safety_passed].  When the safety validator raises
    SafetyValidationError the result has the blocked message, the
    exception text as [error] and [safety_passed = False]; when, after a
    safety pass, the generation phase raises RAGRetrievalError or
    ResponseGenerationError the result has the technical-difficulty
    message, [success = False], the exception text as [error] and
    [safety_passed = True]. *)
Theorem faults_distinguished_by_safety_passed
  (self : AlaskaSnowAgent) (id_of_input : Z) (input : string) (t : Trace) :
  (forall e t1,
      safety_validator self input t = (Raised e, t1) ->
      exn_cls e = SafetyValidationError ->
      exists r,
        process_user_request self id_of_input input t = (Returned r, t1)
        /\ response r = safety_blocked_message
        /\ error r = Some (str e)
        /\ safety_passed r = false
        /\ success r = false)
  /\ (forall e t1 t2,
      safety_validator self input t = (Returned true, t1) ->
      response_generator self input t1 = (Raised e, t2) ->
      exn_cls e = RAGRetrievalError \/ exn_cls e = ResponseGenerationError ->
      exists r,
        process_user_request self id_of_input input t = (Returned r, t2)
        /\ response r = default_error_message
        /\ success r = false
        /\ error r = Some (str e)
        /\ safety_passed r = true).
Proof.
  split.
  - intros e t1 V C. rewrite process_user_request_run, V.
    eexists. split; [reflexivity|].
    unfold failed. rewrite C. cbn. auto.
  - intros e t1 t2 V G C. rewrite process_user_request_run, V, G.
    eexists. split; [reflexivity|].
    unfold failed. destruct C as [C | C]; rewrite C; cbn; auto.
Qed.

(** C10. In every result [context_retrieved] equals [success].  With the
    components of the repository: when the safety check passes, the
    context retrieval returns a frame and the generator then raises
    ResponseGenerationError, the result has [context_retrieved = False],
    so the flag does not say whether retrieval succeeded. *)
Theorem context_retrieved_mirrors_success :
  (forall (self : AlaskaSnowAgent) (id_of_input : Z) (input : string)
          (t : Trace) r t',
      process_user_request self id_of_input input t = (Returned r, t') ->
      context_retrieved r = success r)
  /\ (forall (svc : Services) (id_of_input : Z) (input : string)
             (t t1 t2 t3 : Trace) (context_df : DataFrame) (e : exn),
      SafetyValidator.validate_prompt_safety svc input t = (Returned true, t1) ->
      ResponseGenerator.retrieve_relevant_context svc input t1
      = (Returned context_df, t2) ->
      ResponseGenerator.generate_assistant_response svc input t1 = (Raised e, t3) ->
      exn_cls e = ResponseGenerationError ->
      exists r,
        process_user_request (alaska_agent svc) id_of_input input t = (Returned r, t3)
        /\ context_retrieved r = false
        /\ success r = false).
Proof.
  split.
  - intros self id_of_input input t r t'. rewrite process_user_request_run.
    destruct (safety_validator self input t) as [[[|]|e] t1];
      [destruct (response_generator self input t1) as [[text|e] t2] | |];
      intros H; injection H as <- _;
      try match goal with
          | |- context [failed ?e ?r0] =>
              destruct (failed_keeps_flags e r0) as (S & _ & R & _); rewrite S, R
          end;
      reflexivity.
  - intros svc id_of_input input t t1 t2 t3 context_df e V _ G C.
    rewrite process_user_request_run. cbn [alaska_agent safety_validator response_generator].
    rewrite V, G. eexists. split; [reflexivity|].
    destruct (failed_keeps_flags e
                (set_safety_passed true (received id_of_input input)))
      as (S & _ & R & _).
    now rewrite S, R.
Qed.

End Taxonomy.

Section OrchestratorWitnesses.

Import CoreEngine Spec Doubles.

Lemma process_user_request_never_raises_witness :
  exists r t',
    process_user_request crashing_validator_agent 7 "Is Main Street plowed?" []
    = (Returned r, t')
    /\ response r = default_error_message
    /\ success r = false
    /\ error r = Some "Unexpected error: boom".
Proof.
  destruct (process_user_request_never_raises
              crashing_validator_agent 7 "Is Main Street plowed?" [])
    as (r & t' & E & H).
  exists r, t'. split; [exact E|].
  apply (H (mk_exn Exception "boom")).
  - left. exists []. reflexivity.
  - repeat split; reflexivity.
Defined.

Lemma process_user_request_invariant_witness :
  result_invariant
    (responded "Call the regional office."
       (received 7 "How do I report an unplowed road?")).
Proof.
  eapply (proj2 (process_user_request_invariant
                   (alaska_agent healthy_services) 7
                   "How do I report an unplowed road?" [])).
  vm_compute. reflexivity.
Defined.

Lemma faults_distinguished_by_safety_passed_witness :
  (exists r,
      process_user_request unreachable_classifier_agent 7 "Test prompt" []
      = (Returned r, [])
      /\ response r = safety_blocked_message
      /\ error r = Some "Safety validation error: Model error"
      /\ safety_passed r = false
      /\ success r = false)
  /\ (exists r,
      process_user_request failing_generator_agent 7 "What are your services?" []
      = (Returned r, [])
      /\ response r = default_error_message
      /\ success r = false
      /\ error r = Some "Test error"
      /\ safety_passed r = true).
Proof.
  split.
  - apply (proj1 (faults_distinguished_by_safety_passed
                    unreachable_classifier_agent 7 "Test prompt" [])
             (mk_exn SafetyValidationError "Safety validation error: Model error")
             [] eq_refl eq_refl).
  - apply (proj2 (faults_distinguished_by_safety_passed
                    failing_generator_agent 7 "What are your services?" [])
             (mk_exn ResponseGenerationError "Test error")
             [] [] eq_refl eq_refl (or_intror eq_refl)).
Defined.

Lemma context_retrieved_mirrors_success_witness :
  exists r t3,
    process_user_request (alaska_agent chat_down_services) 7
      "How do I report an unplowed road?" []
    = (Returned r, t3)
    /\ In (SearchCall "How do I report an unplowed road?") t3
    /\ context_retrieved r = false
    /\ success r = false.
Proof.
  pose (q := "How do I report an unplowed road?").
  pose (t1 := [ClassifyCall (SafetyValidator.safety_prompt_template q)]).
  pose (t2 := (t1 ++ [SearchCall q])%list).
  pose (t3 := (t2 ++ [GenerateCall (ResponseGenerator.build_context_prompt q road_faq)])%list).
  destruct (proj2 context_retrieved_mirrors_success
              chat_down_services 7%Z q [] t1 t2 t3 road_faq
              (mk_exn ResponseGenerationError
                 "Failed to generate response: service unavailable")
              eq_refl eq_refl eq_refl eq_refl)
    as (r & E & C & S).
  exists r, t3. split; [exact E|]. split; [|split; assumption].
  right. left. reflexivity.
Defined.

End OrchestratorWitnesses.

(** ** PromptComposer *)

Section PromptComposer.

Import ResponseGenerator Spec.

Lemma context_sections_from (acc : list string) (context_df : DataFrame) :
  fold_left
    (fun context_sections row => (context_sections ++ [row_section row])%list)
    context_df acc
  = (acc ++ map row_section context_df)%list.
Proof.
  revert acc. induction context_df as [|row rest IH]; intros acc; simpl.
  - now rewrite app_nil_r.
  - rewrite IH, <- app_assoc. reflexivity.
Qed.

(** The loop builds one section per row, in the order of the frame. *)
Lemma context_sections_of_map (context_df : DataFrame) :
  context_sections_of context_df = map qa_block context_df.
Proof. unfold context_sections_of. now rewrite context_sections_from. Qed.

Lemma build_context_prompt_compose (user_input : string) (entries : DataFrame) :
  build_context_prompt user_input entries = compose user_input entries.
Proof.
  unfold build_context_prompt, compose.
  destruct entries as [|entry rest]; [reflexivity|].
  cbn [df_empty]. rewrite context_sections_of_map. reflexivity.
Qed.

(** C5. [build_context_prompt] depends on its two arguments only and has
    two branches.  With no entry the prompt is the fallback template: it
    says that no specific FAQ information was found, quotes the user
    question verbatim and asks to direct the user to the department.
    With entries the prompt is the preamble, the CONTEXT section made of
    one Q:/A: block per entry in order, joined by blank lines, the USER
    QUESTION section with the verbatim input, and the instruction to
    answer from the context, each part separated by a blank line. *)
Theorem build_context_prompt_two_branches (user_input : string) (entries : DataFrame) :
  build_context_prompt user_input entries = compose user_input entries
  /\ Contains (build_context_prompt user_input entries) user_input
  /\ (entries = [] ->
      Contains (build_context_prompt user_input entries) no_information_notice
      /\ Contains (build_context_prompt user_input entries)
           ("User question: " ++ user_input)
      /\ Contains (build_context_prompt user_input entries) redirect_instruction)
  /\ (entries <> [] ->
      build_context_prompt user_input entries
      = preamble ++ blank_line
        ++ ("=== CONTEXT ===" ++ nl ++ join blank_line (map qa_block entries))
        ++ blank_line
        ++ ("=== USER QUESTION ===" ++ nl ++ user_input) ++ blank_line
        ++ answer_instruction
      /\ forall entry,
          In entry entries ->
          Contains (build_context_prompt user_input entries) (qa_block entry)).
Proof.
  rewrite build_context_prompt_compose.
  split; [reflexivity|]. split; [|split].
  - destruct entries as [|entry rest]; unfold compose.
    + exists (no_information_notice ++ "User question: ")%string,
        (blank_line ++ redirect_instruction)%string.
      reflexivity.
    + exists (preamble ++ blank_line ++ context_section (entry :: rest)
              ++ blank_line ++ "=== USER QUESTION ===" ++ nl)%string,
        (blank_line ++ answer_instruction)%string.
      unfold user_question_section. now rewrite !append_assoc.
  - intros ->. unfold compose. repeat split.
    + now exists EmptyString,
        ("User question: " ++ user_input ++ blank_line ++ redirect_instruction)%string.
    + now exists no_information_notice,
        (blank_line ++ redirect_instruction)%string.
    + exists (no_information_notice ++ "User question: " ++ user_input
              ++ blank_line)%string, EmptyString.
      now rewrite !append_assoc, append_empty_r.
  - intros N. destruct entries as [|entry0 rest]; [congruence|].
    split; [reflexivity|].
    intros entry H. unfold compose.
    apply contains_trans with (mid := join blank_line (map qa_block (entry0 :: rest))).
    + exists (preamble ++ blank_line ++ "=== CONTEXT ===" ++ nl)%string,
        (blank_line ++ user_question_section user_input ++ blank_line
         ++ answer_instruction)%string.
      unfold context_section. now rewrite !append_assoc.
    + apply contains_join. now apply in_map.
Qed.

Lemma build_context_prompt_two_branches_witness :
  Contains (build_context_prompt "Where is my plow?" []) no_information_notice
  /\ Contains (build_context_prompt "Where is my plow?" Doubles.road_faq)
       ("Q: How do I report an unplowed road?" ++ nl
        ++ "A: Contact your local ADS regional office.").
Proof.
  split.
  - apply (proj2 (proj2 (build_context_prompt_two_branches "Where is my plow?" []))).
    reflexivity.
  - assert (N : Doubles.road_faq <> []) by discriminate.
    apply (proj2 (proj2 (proj2 (proj2 (build_context_prompt_two_branches
                                         "Where is my plow?" Doubles.road_faq)))
                    N)
             (mk_row "How do I report an unplowed road?"
                     "Contact your local ADS regional office." (1 # 5))).
    left. reflexivity.
Defined.

End PromptComposer.

(** ** AnswerGenerator *)

Section AnswerGenerator.

Import ResponseGenerator.

Variable svc : Services.

Lemma retrieve_relevant_context_run (user_question : string) (t : Trace) :
  retrieve_relevant_context svc user_question t =
  (match vector_search svc t user_question with
   | Returned result_df => Returned result_df
   | Raised e =>
       Raised (mk_exn RAGRetrievalError ("Failed to retrieve context: " ++ str e))
   end,
   (t ++ [SearchCall user_question])%list).
Proof.
  unfold retrieve_relevant_context, try_, bind, call, ret.
  destruct (vector_search svc t user_question) as [df|e]; [reflexivity|].
  cbn [dispatch catches handler]. now rewrite every_class_is_exception.
Qed.

(** A failed retrieval passes through the generator unchanged. *)
Lemma generate_after_failed_retrieval (user_input : string) (t : Trace) (e : exn) :
  vector_search svc t user_input = Raised e ->
  generate_assistant_response svc user_input t =
  (Raised (mk_exn RAGRetrievalError ("Failed to retrieve context: " ++ str e)),
   (t ++ [SearchCall user_input])%list).
Proof.
  intros V. unfold generate_assistant_response, try_, bind.
  rewrite retrieve_relevant_context_run, V. reflexivity.
Qed.

(** The run of the generator after a retrieval that returned a frame. *)
Lemma generate_after_retrieval (user_input : string) (t : Trace)
  (context_df : DataFrame) :
  vector_search svc t user_input = Returned context_df ->
  generate_assistant_response svc user_input t =
  (match chat_model svc (t ++ [SearchCall user_input])%list
           (build_context_prompt user_input context_df) with
   | Returned text =>
       if py_not text then
         Raised (mk_exn ResponseGenerationError
                   "Failed to generate response: Model returned empty response")
       else Returned (strip text)
   | Raised e =>
       if issubclass (exn_cls e) RAGRetrievalError then Raised e
       else Raised (mk_exn ResponseGenerationError
                      ("Failed to generate response: " ++ str e))
   end,
   ((t ++ [SearchCall user_input])
      ++ [GenerateCall (build_context_prompt user_input context_df)])%list).
Proof.
  intros V. unfold generate_assistant_response, try_, bind.
  rewrite retrieve_relevant_context_run, V. unfold call.
  destruct (chat_model svc (t ++ [SearchCall user_input])%list
              (build_context_prompt user_input context_df)) as [text|e].
  - destruct text as [|c r]; reflexivity.
  - destruct e as [[] msg]; reflexivity.
Qed.

(** What the generator does with an answer that is not blank, with an
    empty answer, and with a failing model call of a foreign class. *)
Lemma generate_cases (user_input : string) (t : Trace) (context_df : DataFrame) :
  vector_search svc t user_input = Returned context_df ->
  let asked := chat_model svc (t ++ [SearchCall user_input])%list
                 (build_context_prompt user_input context_df) in
  (forall text,
      asked = Returned text -> blank text = false ->
      fst (generate_assistant_response svc user_input t) = Returned (strip text))
  /\ (asked = Returned EmptyString ->
      exists msg,
        fst (generate_assistant_response svc user_input t)
        = Raised (mk_exn ResponseGenerationError msg))
  /\ (forall e,
      asked = Raised e -> issubclass (exn_cls e) RAGRetrievalError = false ->
      fst (generate_assistant_response svc user_input t)
      = Raised (mk_exn ResponseGenerationError
                  ("Failed to generate response: " ++ str e))).
Proof.
  intros V asked. rewrite (generate_after_retrieval _ _ V). fold asked.
  repeat split.
  - intros text -> B. destruct text; [discriminate B | reflexivity].
  - intros ->. eexists. reflexivity.
  - intros e -> C. cbn. now rewrite C.
Qed.

(** The gap: an answer made of white space only passes the emptiness
    test and is returned stripped, that is, empty. *)
Lemma generate_whitespace_answer (user_input : string) (t : Trace)
  (context_df : DataFrame) (text : string) :
  vector_search svc t user_input = Returned context_df ->
  chat_model svc (t ++ [SearchCall user_input])%list
    (build_context_prompt user_input context_df) = Returned text ->
  text <> EmptyString -> blank text = true ->
  fst (generate_assistant_response svc user_input t) = Returned EmptyString.
Proof.
  intros V C N B. rewrite (generate_after_retrieval _ _ V), C.
  destruct text; [congruence|]. cbn [py_not fst].
  apply strip_empty_iff_blank in B. now rewrite B.
Qed.

End AnswerGenerator.

(** C6. The specification asks for ResponseGenerationError whenever the
    model returns empty or whitespace-only text.  With a chat model that
    answers three spaces, [generate_assistant_response] raises nothing:
    it returns the empty string, after one search and one generation
    call. *)
Theorem generate_assistant_response_whitespace_answer :
  ResponseGenerator.generate_assistant_response
    Doubles.whitespace_chat_services "Is Main Street plowed?" []
  = (Returned EmptyString,
     [SearchCall "Is Main Street plowed?";
      GenerateCall
        (ResponseGenerator.build_context_prompt "Is Main Street plowed?" [])]).
Proof. reflexivity. Qed.

(** The orchestrator then reports success with an empty response. *)
Lemma whitespace_answer_is_reported_as_success :
  exists r t',
    CoreEngine.process_user_request
      (CoreEngine.alaska_agent Doubles.whitespace_chat_services) 7
      "Is Main Street plowed?" []
    = (Returned r, t')
    /\ CoreEngine.success r = true
    /\ CoreEngine.response r = EmptyString.
Proof. eexists _, _. split; [reflexivity|]. split; reflexivity. Qed.

(** ** QualityEvaluator: the two scanners *)

Section Patterns.

Import ResponseEvaluator Spec.

Lemma upper_case_is_not_space (c : ascii) : is_AZ c = true -> isspace c = false.
Proof.
  unfold is_AZ, isspace, in_range. intros H.
  apply andb_true_iff in H. destruct H as [H1 H2].
  apply Nat.leb_le in H1, H2.
  repeat (apply orb_false_iff; split);
    try (apply andb_false_iff; right; apply Nat.leb_gt; lia).
  apply Nat.eqb_neq. lia.
Qed.

Lemma space_run_spaces (s : string) (i : nat) :
  (i < space_run s)%nat -> exists c, char_at i s = Some c /\ isspace c = true.
Proof.
  revert i. induction s as [|c r IH]; intros i H; simpl in H; [lia|].
  destruct (isspace c) eqn:E; [|lia].
  destruct i as [|i]; simpl.
  - now exists c.
  - apply IH. lia.
Qed.

Lemma space_run_stops (s : string) (c : ascii) :
  char_at (space_run s) s = Some c -> isspace c = false.
Proof.
  induction s as [|a r IH]; simpl; [discriminate|].
  destruct (isspace a) eqn:E; simpl.
  - exact IH.
  - now intros [= <-].
Qed.

(** A run of [n] spaces followed by a character that is no space is the
    longest run: the pattern has one way to match at a position. *)
Lemma space_run_unique (s : string) (n : nat) (c : ascii) :
  (forall i, (i < n)%nat -> exists a, char_at i s = Some a /\ isspace a = true) ->
  char_at n s = Some c -> isspace c = false ->
  space_run s = n.
Proof.
  revert s. induction n as [|n IH]; intros s A C N.
  - destruct s as [|a r]; [reflexivity|]. simpl in *.
    injection C as ->. now rewrite N.
  - destruct s as [|a r]; [discriminate C|]. simpl in *.
    destruct (A O) as (a' & E & Sa); [lia|]. simpl in E. injection E as <-.
    rewrite Sa. f_equal. apply IH; [|exact C | exact N].
    intros i Hi. apply (A (S i)). lia.
Qed.

(** [boundary_match] finds exactly the matches of the sentence pattern. *)
Lemma boundary_match_iff (prev : option ascii) (rest : string) (n : nat) :
  boundary_match prev rest = Some n <-> sentence_boundary prev rest n.
Proof.
  unfold boundary_match, sentence_boundary. split.
  - destruct prev as [p|]; [|discriminate].
    destruct (is_terminator p) eqn:T; [|discriminate].
    destruct (space_run rest) as [|k] eqn:R; [discriminate|].
    destruct (char_at (S k) rest) as [c|] eqn:C; [|discriminate].
    destruct (is_AZ c) eqn:U; [|discriminate].
    intros [= <-]. repeat split.
    + now exists p.
    + lia.
    + intros i Hi. apply space_run_spaces. now rewrite R.
    + now exists c.
  - intros ((p & -> & T) & Hn & A & (c & C & U)). rewrite T.
    rewrite (space_run_unique rest A C (upper_case_is_not_space c U)).
    destruct n as [|k]; [lia|]. now rewrite C, U.
Qed.

Lemma word_run_chars (s : string) : all_chars is_word (word_run s) = true.
Proof.
  induction s as [|c r IH]; simpl; [reflexivity|].
  destruct (is_word c) eqn:W; simpl; [now rewrite W | reflexivity].
Qed.

Lemma word_match_token (prev : option ascii) (rest w : string) :
  word_match prev rest = Some w -> word_token w.
Proof.
  unfold word_match. destruct rest as [|c r]; [discriminate|].
  destruct (negb _ && is_word c) eqn:G; [|discriminate].
  apply andb_true_iff in G. destruct G as [_ W].
  intros [= <-]. split.
  - simpl. now rewrite W.
  - apply (word_run_chars (String c r)).
Qed.

(** Every word found is a run of word characters, and not empty. *)
Lemma tokenize_words_tokens (text : string) :
  Forall word_token (tokenize_words text).
Proof.
  unfold tokenize_words. generalize (lower text) (@None ascii) O.
  intros s. induction s as [|c r IH]; intros prev skip; cbn [re_findall_from].
  - constructor.
  - destruct skip as [|k]; [|apply IH].
    destruct (word_match prev (String c r)) as [w|] eqn:M; [|apply IH].
    constructor; [now apply word_match_token in M | apply IH].
Qed.

(** No sentence is empty. *)
Lemma split_into_sentences_nonempty (text : string) :
  Forall (fun s => s <> EmptyString) (split_into_sentences text).
Proof.
  unfold split_into_sentences. apply Forall_forall. intros s H.
  apply in_map_iff in H. destruct H as (piece & <- & H).
  apply filter_In in H. destruct H as [_ H].
  now destruct (strip piece).
Qed.

End Patterns.

(** ** QualityEvaluator: fluency *)

Section Fluency.

Import ResponseEvaluator Spec.
Local Open Scope Q_scope.

Lemma Qltb_lt (x y : Q) : Qltb x y = true <-> x < y.
Proof.
  unfold Qltb. rewrite negb_true_iff, <- not_true_iff_false, Qle_bool_iff.
  split; [apply Qnot_le_lt | apply Qlt_not_le].
Qed.

Lemma Qltb_ge (x y : Q) : Qltb x y = false <-> y <= x.
Proof.
  unfold Qltb. rewrite negb_false_iff. apply Qle_bool_iff.
Qed.

(** The last line of the heuristic keeps any score between 1 and 5. *)
Lemma clamped_in_range (score : Q) :
  1 <= py_max 1 (py_min 5 score) <= 5.
Proof.
  unfold py_max, py_min.
  destruct (Qltb score 5) eqn:A.
  - destruct (Qltb 1 score) eqn:B.
    + apply Qltb_lt in A, B. split; now apply Qlt_le_weak.
    + split; [apply Qle_refl | discriminate].
  - split; discriminate.
Qed.

End Fluency.

Section FluencyExamples.

Import ResponseEvaluator.
Local Open Scope Q_scope.

(** The low-fluency text of [test_fluency_scoring] splits into four
    sentences of one word each, all different. *)
Lemma four_short_sentences :
  split_into_sentences "Snow. Department. Services. Available."
  = ["Snow."; "Department."; "Services."; "Available."]%string
  /\ tokenize_words "Snow. Department. Services. Available."
     = ["snow"; "department"; "services"; "available"]%string.
Proof. split; reflexivity. Qed.

(** C8. The specification (and [test_fluency_scoring]) asks for a score
    of at most 3.0 on "Snow. Department. Services. Available.".  The code gives
    4.0: 1.5 is taken off for the average sentence length of 1, and 0.5
    is added for the word variety of 1. *)
Theorem fluency_of_four_short_sentences :
  compute_fluency_score "Snow. Department. Services. Available." == 4
  /\ ~ compute_fluency_score "Snow. Department. Services. Available." <= 3.
Proof.
  split.
  - reflexivity.
  - intros H. vm_compute in H. now apply H.
Qed.

(** The high-fluency text of the same test scores 5. *)
Lemma fluency_of_one_long_sentence :
  compute_fluency_score
    "The Alaska Snow Department provides comprehensive snow removal services throughout the state."
  == 5.
Proof. reflexivity. Qed.

End FluencyExamples.

(** ** QualityEvaluator: semantic similarity *)

Section SemanticSimilarity.

Import ResponseEvaluator.
Local Open Scope Q_scope.

Lemma round_half_even_bounds (x : Q) (a b : Z) :
  inject_Z a <= x <= inject_Z b ->
  (a <= round_half_even x <= b)%Z.
Proof.
  intros [La Lb]. unfold round_half_even.
  assert (Fa : (a <= Qfloor x)%Z).
  { rewrite <- (Qfloor_Z a). now apply Qfloor_resp_le. }
  assert (Fb : (Qfloor x <= b)%Z).
  { rewrite <- (Qfloor_Z b). now apply Qfloor_resp_le. }
  destruct (Z.eq_dec (Qfloor x) b) as [E | N].
  - assert (X : x - inject_Z (Qfloor x) <= 0).
    { rewrite E. unfold Qminus. rewrite <- (Qplus_opp_r (inject_Z b)).
      apply Qplus_le_l. exact Lb. }
    assert (C : Qcompare (x - inject_Z (Qfloor x)) (1 # 2) = Lt).
    { apply Qlt_alt. apply Qle_lt_trans with 0; [exact X | reflexivity]. }
    rewrite C. lia.
  - destruct (Qcompare (x - inject_Z (Qfloor x)) (1 # 2));
      [destruct (Z.even (Qfloor x))| |]; lia.
Qed.

(** [round(c * 5, 2)] stays within [-5, 5] for a cosine in [-1, 1], and
    within [0, 5] for a cosine in [0, 1]. *)
Lemma round2_scaled_bounds (c : Q) (lo : Z) :
  (lo = -1 \/ lo = 0)%Z ->
  inject_Z lo <= c <= 1 ->
  inject_Z (5 * lo) <= round2 (c * 5) <= 5.
Proof.
  intros Hlo [L U]. unfold round2.
  assert (B : (500 * lo <= round_half_even (c * 5 * 100) <= 500)%Z).
  { apply round_half_even_bounds. split.
    - setoid_replace (inject_Z (500 * lo)) with (inject_Z lo * 5 * 100).
      + repeat apply Qmult_le_compat_r; [exact L | discriminate | discriminate].
      + destruct Hlo as [-> | ->]; reflexivity.
    - setoid_replace (inject_Z 500) with (1 * 5 * 100) by reflexivity.
      repeat apply Qmult_le_compat_r; [exact U | discriminate | discriminate]. }
  destruct B as [B1 B2].
  set (r := round_half_even (c * 5 * 100)) in *. split.
  - apply Qle_shift_div_l; [reflexivity|].
    unfold Qle, Qmult, inject_Z. cbn [Qnum Qden]. lia.
  - apply Qle_shift_div_r; [reflexivity|].
    unfold Qle, Qmult, inject_Z. cbn [Qnum Qden]. lia.
Qed.

End SemanticSimilarity.

Section SimilarityOverAModel.

Import ResponseEvaluator.
Local Open Scope Q_scope.

Variable Tensor : Type.
Variable encode : string -> Outcome Tensor.
Variable pytorch_cos_sim : Tensor -> Tensor -> Outcome Q.

(** With both embeddings and their cosine at hand, the score is the
    cosine times 5, rounded to two decimals. *)
Lemma similarity_of_cosine (reference prediction : string) (a b : Tensor) (c : Q) :
  encode reference = Returned a ->
  encode prediction = Returned b ->
  pytorch_cos_sim a b = Returned c ->
  compute_semantic_similarity encode pytorch_cos_sim reference prediction
  = round2 (c * 5).
Proof.
  intros Ea Eb Ec. unfold compute_semantic_similarity. now rewrite Ea, Eb, Ec.
Qed.

(** Any failure of the embedding model gives 0. *)
Lemma similarity_on_failure (reference prediction : string) :
  (forall a b c,
      encode reference = Returned a ->
      encode prediction = Returned b ->
      pytorch_cos_sim a b <> Returned c) ->
  compute_semantic_similarity encode pytorch_cos_sim reference prediction = 0.
Proof.
  intros F. unfold compute_semantic_similarity.
  destruct (encode reference) as [a|]; [|reflexivity].
  destruct (encode prediction) as [b|]; [|reflexivity].
  destruct (pytorch_cos_sim a b) as [c|] eqn:E; [|reflexivity].
  now destruct (F a b c eq_refl eq_refl).
Qed.

(** The score is within [0, 5] when every cosine the model gives is in
    [0, 1], and within [-5, 5] when every cosine is in [-1, 1]. *)
Lemma similarity_range (reference prediction : string) (lo : Z) :
  (lo = -1 \/ lo = 0)%Z ->
  (forall a b c, pytorch_cos_sim a b = Returned c -> inject_Z lo <= c <= 1) ->
  inject_Z (5 * lo)
  <= compute_semantic_similarity encode pytorch_cos_sim reference prediction
  <= 5.
Proof.
  intros Hlo R. unfold compute_semantic_similarity.
  assert (Z0 : inject_Z (5 * lo) <= 0 <= 5)
    by (destruct Hlo as [-> | ->]; split; discriminate).
  destruct (encode reference) as [a|]; [|exact Z0].
  destruct (encode prediction) as [b|]; [|exact Z0].
  destruct (pytorch_cos_sim a b) as [c|] eqn:E; [|exact Z0].
  apply round2_scaled_bounds; [exact Hlo | now apply (R a b)].
Qed.

End SimilarityOverAModel.

Section SimilarityExamples.

Import ResponseEvaluator.
Local Open Scope Q_scope.

(** C9. The specification puts every score in [0, 5]; the docstring of
    [compute_semantic_similarity] says "0-5 scale" as well.  The code
    multiplies the cosine by 5 and rounds, with no lower bound: for two
    texts whose embeddings have cosine -0.5 the score is -2.5. *)
Theorem semantic_similarity_of_opposed_embeddings :
  compute_semantic_similarity Doubles.opposed_encode Doubles.opposed_cos_sim
    "Contact the Alaska Snow Department for road issues."
    "The weather is nice today."
  == - (5 # 2)
  /\ ~ 0 <= compute_semantic_similarity
              Doubles.opposed_encode Doubles.opposed_cos_sim
              "Contact the Alaska Snow Department for road issues."
              "The weather is nice today.".
Proof.
  split.
  - reflexivity.
  - intros H. vm_compute in H. now apply H.
Qed.

(** With a model that cannot encode, the score is 0. *)
Lemma semantic_similarity_of_broken_model :
  compute_semantic_similarity Doubles.broken_encode Doubles.opposed_cos_sim
    "Contact the Alaska Snow Department for road issues."
    "The weather is nice today."
  = 0.
Proof. reflexivity. Qed.

End SimilarityExamples.

(* ================================================================== *)
(** * Further properties                                               *)
(* ================================================================== *)

(** ** What the two components raise *)

Section ComponentErrors.

Import SafetyValidator ResponseGenerator.

Variable svc : Services.

(** X1. [validate_prompt_safety] raises nothing but
    SafetyValidationError: when it raises, the prompt was not blank, the
    classifier call itself raised, and the exception carries the text of
    that failure after "Safety validation error: ". *)
Theorem validate_prompt_safety_raises_only_its_error
  (prompt : string) (t t' : Trace) (e : exn) :
  validate_prompt_safety svc prompt t = (Raised e, t') ->
  blank prompt = false
  /\ exists cause,
      classifier svc t (safety_prompt_template prompt) = Raised cause
      /\ e = mk_exn SafetyValidationError ("Safety validation error: " ++ str cause).
Proof.
  intros H. destruct (blank prompt) eqn:B.
  - unfold validate_prompt_safety in H. rewrite blank_guard, B in H. discriminate H.
  - split; [reflexivity|]. rewrite (@validate_run svc prompt t B) in H.
    destruct (classifier svc t (safety_prompt_template prompt)) as [text|cause];
      [discriminate H|].
    exists cause. split; [reflexivity|]. now injection H as <- _.
Qed.

(** X2. [retrieve_relevant_context] makes exactly one search call,
    returns the frame of the store as it is (same rows, same order), and
    raises nothing but RAGRetrievalError, with the text of the failure
    after "Failed to retrieve context: ". *)
Theorem retrieve_relevant_context_passes_the_frame
  (user_question : string) (t : Trace) :
  snd (retrieve_relevant_context svc user_question t)
  = (t ++ [SearchCall user_question])%list
  /\ (forall result_df,
        vector_search svc t user_question = Returned result_df ->
        fst (retrieve_relevant_context svc user_question t) = Returned result_df)
  /\ (forall e,
        fst (retrieve_relevant_context svc user_question t) = Raised e ->
        exists cause,
          vector_search svc t user_question = Raised cause
          /\ e = mk_exn RAGRetrievalError
                   ("Failed to retrieve context: " ++ str cause)).
Proof.
  rewrite retrieve_relevant_context_run. cbn [fst snd].
  split; [reflexivity|]. split.
  - now intros df ->.
  - intros e. destruct (vector_search svc t user_question) as [df|cause];
      [discriminate|].
    intros [= <-]. now exists cause.
Qed.

(** X3. [generate_assistant_response] (the method) raises nothing but
    RAGRetrievalError and ResponseGenerationError, whatever the store
    and the chat model do. *)
Theorem generate_assistant_response_raises_only_two_classes
  (user_input : string) (t t' : Trace) (e : exn) :
  generate_assistant_response svc user_input t = (Raised e, t') ->
  exn_cls e = RAGRetrievalError \/ exn_cls e = ResponseGenerationError.
Proof.
  destruct (vector_search svc t user_input) as [df|cause] eqn:V.
  - rewrite (generate_after_retrieval svc user_input t V).
    destruct (chat_model svc (t ++ [SearchCall user_input])%list
                (build_context_prompt user_input df)) as [text|c].
    + destruct (py_not text); intros H;
        [injection H as <- _; now right | discriminate H].
    + destruct c as [[] msg]; intros [= <- _]; cbn; auto.
  - rewrite (generate_after_failed_retrieval svc user_input t V).
    intros [= <- _]. now left.
Qed.

End ComponentErrors.

Lemma validate_prompt_safety_raises_only_its_error_witness :
  exists cause,
    classifier MoreDoubles.unreachable_services []
      (SafetyValidator.safety_prompt_template "Test prompt") = Raised cause
    /\ mk_exn SafetyValidationError "Safety validation error: service unavailable"
       = mk_exn SafetyValidationError ("Safety validation error: " ++ str cause).
Proof.
  exact (proj2 (validate_prompt_safety_raises_only_its_error
                  MoreDoubles.unreachable_services "Test prompt" [] eq_refl)).
Defined.

Lemma retrieve_relevant_context_passes_the_frame_witness :
  fst (ResponseGenerator.retrieve_relevant_context Doubles.healthy_services
         "How do I report an unplowed road?" [])
  = Returned Doubles.road_faq.
Proof.
  exact (proj1 (proj2 (retrieve_relevant_context_passes_the_frame
                         Doubles.healthy_services
                         "How do I report an unplowed road?" []))
           Doubles.road_faq eq_refl).
Defined.

Lemma generate_assistant_response_raises_only_two_classes_witness :
  exn_cls (mk_exn ResponseGenerationError
             "Failed to generate response: service unavailable")
  = RAGRetrievalError
  \/ exn_cls (mk_exn ResponseGenerationError
                "Failed to generate response: service unavailable")
     = ResponseGenerationError.
Proof.
  exact (generate_assistant_response_raises_only_two_classes
           Doubles.chat_down_services "How do I report an unplowed road?" []
           eq_refl).
Defined.

(** ** A request through the repository's components *)

Section RequestJourney.

Import CoreEngine Spec Journey.

Variable svc : Services.
Variable id_of_input : Z.
Variable user_input : string.
Variable t : Trace.

(** Every request ends in one of the seven ways of [ends_in]. *)
Lemma request_ends_in :
  exists r t',
    process_user_request (alaska_agent svc) id_of_input user_input t = (Returned r, t')
    /\ ends_in svc id_of_input user_input t r t'.
Proof.
  rewrite process_user_request_run.
  cbn [alaska_agent safety_validator response_generator].
  destruct (blank user_input) eqn:B.
  - unfold SafetyValidator.validate_prompt_safety. rewrite blank_guard, B.
    cbn. eexists _, _. split; [reflexivity|]. now apply blank_input.
  - rewrite (@validate_run svc user_input t B).
    destruct (classifier svc t (SafetyValidator.safety_prompt_template user_input))
      as [text|cause] eqn:C.
    + destruct (upper (strip text) =? "SAFE")%string eqn:J.
      * destruct (vector_search svc
                    (t ++ [ClassifyCall
                             (SafetyValidator.safety_prompt_template user_input)])%list
                    user_input) as [df|cause] eqn:V.
        -- rewrite (generate_after_retrieval svc user_input _ V).
           destruct (chat_model svc _ _) as [answer|cause] eqn:G.
           ++ destruct answer as [|c rest].
              ** eexists _, _. split; [reflexivity|].
                 rewrite <- !app_assoc. now apply empty_answer with text.
              ** eexists _, _. split; [reflexivity|].
                 rewrite <- !app_assoc. now apply answered with text.
           ++ pose proof (@chat_failed svc id_of_input user_input t text df cause
                              B C J V G) as H.
              destruct (issubclass (exn_cls cause) RAGRetrievalError);
                (eexists _, _; split; [reflexivity|];
                 rewrite <- !app_assoc; exact H).
        -- rewrite (generate_after_failed_retrieval svc user_input _ V).
           eexists _, _. split; [reflexivity|].
           rewrite <- !app_assoc. now apply retrieval_failed with text.
      * eexists _, _. split; [reflexivity|]. now apply judged_unsafe with text.
    + eexists _, _. split; [reflexivity|]. now apply classifier_failed.
Qed.

End RequestJourney.

Section RequestJourneyFacts.

Import CoreEngine Spec Journey.

Lemma failed_response (e : exn) (r : PipelineResult) :
  response (failed e r)
  = if issubclass (exn_cls e) SafetyValidationError
    then safety_blocked_message else default_error_message.
Proof.
  unfold failed.
  destruct (issubclass (exn_cls e) SafetyValidationError); [reflexivity|].
  now destruct (issubclass (exn_cls e) RAGRetrievalError
                || issubclass (exn_cls e) ResponseGenerationError).
Qed.

(** X4. For arbitrary components, [error] is [None] exactly when
    [success] is true, and a result without success carries one of the
    two fixed messages as its response, never another text. *)
Theorem failure_has_an_error_and_a_fixed_message
  (self : AlaskaSnowAgent) (id_of_input : Z) (user_input : string)
  (t t' : Trace) (r : PipelineResult) :
  process_user_request self id_of_input user_input t = (Returned r, t') ->
  (error r = None <-> success r = true)
  /\ (success r = false ->
      response r = safety_blocked_message \/ response r = default_error_message).
Proof.
  rewrite process_user_request_run.
  destruct (safety_validator self user_input t) as [[[|]|e] t1];
    [destruct (response_generator self user_input t1) as [[text|e] t2] | |];
    intros H; injection H as <- _.
  - cbn. split; [tauto | discriminate].
  - destruct (failed_keeps_flags e
                (set_safety_passed true (received id_of_input user_input)))
      as (S & _ & _ & E).
    rewrite S, failed_response. cbn. split; [split; [tauto | discriminate]|].
    intros _. destruct (issubclass (exn_cls e) SafetyValidationError); auto.
  - cbn. split; [split; discriminate | auto].
  - destruct (failed_keeps_flags e (received id_of_input user_input))
      as (S & _ & _ & E).
    rewrite S, failed_response. cbn. split; [split; [tauto | discriminate]|].
    intros _. destruct (issubclass (exn_cls e) SafetyValidationError); auto.
Qed.

Variable svc : Services.
Variable id_of_input : Z.
Variable user_input : string.
Variable t : Trace.

(** X5. Blank input is blocked by the repository's components without
    any service call: the trace is unchanged and the result is the
    blocked one, with the error text "Safety validation failed". *)
Theorem blank_input_is_blocked_without_a_call :
  blank user_input = true ->
  exists r,
    process_user_request (alaska_agent svc) id_of_input user_input t = (Returned r, t)
    /\ response r = safety_blocked_message
    /\ error r = Some "Safety validation failed"
    /\ success r = false
    /\ safety_passed r = false.
Proof.
  intros B. rewrite process_user_request_run.
  cbn [alaska_agent safety_validator].
  unfold SafetyValidator.validate_prompt_safety. rewrite blank_guard, B. cbn.
  eexists. split; [reflexivity|]. cbn. auto.
Qed.

(** X6. The services are called in the order classifier, store, chat
    model, each at most once; the store and the chat model are called
    only after the classifier has answered SAFE: [safety_passed] is false
    exactly when the trace grew by nothing or by the classifier call
    alone. *)
Theorem services_are_called_in_order (r : PipelineResult) (t' : Trace) :
  process_user_request (alaska_agent svc) id_of_input user_input t = (Returned r, t') ->
  exists calls,
    t' = (t ++ calls)%list
    /\ (calls = []
        \/ calls = [classify_call user_input]
        \/ calls = [classify_call user_input; search_call user_input]
        \/ exists context_df,
            calls = [classify_call user_input; search_call user_input;
                     generate_call user_input context_df])
    /\ (safety_passed r = false <->
        calls = [] \/ calls = [classify_call user_input]).
Proof.
  intros H. destruct (request_ends_in svc id_of_input user_input t)
    as (r1 & t1 & E & J).
  rewrite E in H. injection H as <- <-.
  destruct J;
    try match goal with
        | |- context [failed ?e ?r0] =>
            destruct (failed_keeps_flags e r0) as (_ & P & _ & _)
        end.
  - exists []. rewrite app_nil_r. cbn. intuition.
  - eexists. split; [reflexivity|]. rewrite P. cbn. intuition.
  - eexists. split; [reflexivity|]. cbn. intuition.
  - eexists. split; [reflexivity|]. rewrite P. cbn.
    split; [auto|]. split; [discriminate|]. intros [|]; discriminate.
  - eexists. split; [reflexivity|]. rewrite P. cbn.
    split; [eauto 6|]. split; [discriminate|]. intros [|]; discriminate.
  - eexists. split; [reflexivity|]. rewrite P. cbn.
    split; [eauto 6|]. split; [discriminate|]. intros [|]; discriminate.
  - eexists. split; [reflexivity|]. cbn.
    split; [eauto 6|]. split; [discriminate|]. intros [|]; discriminate.
Qed.

(** X7. With the repository's components a failure is told by
    [safety_passed] and by the message alike: either the safety check
    did not pass and the response is the blocked message, or it passed
    and the response is the technical-difficulty message. *)
Theorem failure_kind_is_told_by_the_message (r : PipelineResult) (t' : Trace) :
  process_user_request (alaska_agent svc) id_of_input user_input t = (Returned r, t') ->
  success r = false ->
  (safety_passed r = false /\ response r = safety_blocked_message)
  \/ (safety_passed r = true /\ response r = default_error_message).
Proof.
  intros H. destruct (request_ends_in svc id_of_input user_input t)
    as (r1 & t1 & E & J).
  rewrite E in H. injection H as <- <-.
  destruct J; intros F;
    try match goal with
        | |- context [failed ?e ?r0] =>
            destruct (failed_keeps_flags e r0) as (_ & P & _ & _);
            rewrite P, failed_response
        end.
  - left. now cbn.
  - left. now cbn.
  - left. now cbn.
  - right. now cbn.
  - right. destruct cause as [[] msg]; now cbn.
  - right. now cbn.
  - discriminate F.
Qed.

(** X8. A successful result is the stripped answer of the chat model to
    the prompt composed from the rows the store returned for this
    input, after the classifier judged the input safe; the three calls
    are in the trace. *)
Theorem success_is_the_stripped_answer (r : PipelineResult) (t' : Trace) :
  process_user_request (alaska_agent svc) id_of_input user_input t = (Returned r, t') ->
  success r = true ->
  exists text context_df answer,
    classifier_says svc user_input t = Returned text
    /\ judged_safe text = true
    /\ store_says svc user_input t = Returned context_df
    /\ chat_says svc user_input t context_df = Returned answer
    /\ answer <> EmptyString
    /\ response r = strip answer
    /\ t' = (t ++ [classify_call user_input; search_call user_input;
                   generate_call user_input context_df])%list.
Proof.
  intros H. destruct (request_ends_in svc id_of_input user_input t)
    as (r1 & t1 & E & J).
  rewrite E in H. injection H as <- <-.
  destruct J; intros F;
    try match goal with
        | _ : context [failed ?e ?r0] |- _ =>
            destruct (failed_keeps_flags e r0) as (S & _ & _ & _);
            rewrite S in F
        end;
    try discriminate F.
  do 3 eexists. repeat split; try eassumption; reflexivity.
Qed.

(** X9. With the repository's components no exception reaches the last
    handler: whatever is raised to the orchestrator is a
    SafetyValidationError, a RAGRetrievalError or a
    ResponseGenerationError. *)
Theorem unexpected_error_branch_is_never_taken (e : exn) :
  raised_in_request (alaska_agent svc) user_input t e -> ~ unclassified e.
Proof.
  unfold raised_in_request, unclassified.
  cbn [alaska_agent safety_validator response_generator].
  intros [(t1 & V) | (t1 & t2 & _ & G)] (U1 & U2 & U3).
  - destruct (blank user_input) eqn:B.
    + unfold SafetyValidator.validate_prompt_safety in V.
      rewrite blank_guard, B in V. discriminate V.
    + rewrite (@validate_run svc user_input t B) in V.
      destruct (classifier svc t _); [discriminate V|].
      injection V as <- _. discriminate U1.
  - destruct (vector_search svc t1 user_input) as [df|cause] eqn:S.
    + rewrite (generate_after_retrieval svc user_input t1 S) in G.
      destruct (chat_model svc _ _) as [text|c].
      * destruct (py_not text); [|discriminate G].
        injection G as <- _. discriminate U3.
      * destruct c as [[] msg]; injection G as <- _;
          (discriminate U2 || discriminate U3).
    + rewrite (generate_after_failed_retrieval svc user_input t1 S) in G.
      injection G as <- _. discriminate U2.
Qed.

(** X10. The module-level [generate_assistant_response] never raises:
    it returns the blocked message, the technical-difficulty message, or
    the stripped answer of the chat model. *)
Theorem old_entry_point_returns_a_text :
  exists text t',
    CoreEngineApi.generate_assistant_response svc id_of_input user_input t
    = (Returned text, t')
    /\ (text = safety_blocked_message
        \/ text = default_error_message
        \/ exists context_df answer,
            chat_says svc user_input t context_df = Returned answer
            /\ text = strip answer).
Proof.
  unfold CoreEngineApi.generate_assistant_response, bind, ret.
  destruct (request_ends_in svc id_of_input user_input t) as (r & t' & E & J).
  rewrite E. exists (response r), t'. split; [reflexivity|].
  destruct J; try rewrite failed_response; cbn; auto.
  - destruct cause as [[] msg]; cbn; auto.
  - right. right. eauto.
Qed.

End RequestJourneyFacts.

Section RequestJourneyWitnesses.

Import CoreEngine Spec Journey Doubles MoreDoubles.

Lemma failure_has_an_error_and_a_fixed_message_witness :
  exists r t',
    process_user_request failing_generator_agent 7 "What are your services?" []
    = (Returned r, t')
    /\ (error r = None <-> success r = true)
    /\ (success r = false ->
        response r = safety_blocked_message \/ response r = default_error_message).
Proof.
  eexists _, _. split; [vm_compute; reflexivity|].
  apply (@failure_has_an_error_and_a_fixed_message
           failing_generator_agent 7%Z "What are your services?" [] []).
  vm_compute. reflexivity.
Defined.

Lemma blank_input_is_blocked_without_a_call_witness :
  exists r,
    process_user_request (alaska_agent healthy_services) 7 "   " [] = (Returned r, [])
    /\ response r = safety_blocked_message
    /\ error r = Some "Safety validation failed"
    /\ success r = false
    /\ safety_passed r = false.
Proof.
  apply (blank_input_is_blocked_without_a_call healthy_services 7 "   " []).
  reflexivity.
Defined.

Lemma services_are_called_in_order_witness :
  exists r calls,
    process_user_request (alaska_agent search_down_services) 7
      "Is Main Street plowed?" []
    = (Returned r, calls)
    /\ safety_passed r = true
    /\ calls = [classify_call "Is Main Street plowed?";
                search_call "Is Main Street plowed?"].
Proof.
  eexists _, _. split; [vm_compute; reflexivity|].
  destruct (services_are_called_in_order search_down_services 7
              "Is Main Street plowed?" [] eq_refl) as (calls & E & _ & P).
  split; [|reflexivity].
  destruct (safety_passed _) eqn:S; [reflexivity|].
  destruct (proj1 P eq_refl) as [-> | ->]; discriminate E.
Defined.

Lemma failure_kind_is_told_by_the_message_witness :
  exists r t',
    process_user_request (alaska_agent unsafe_services) 7
      "How to make a dangerous device?" []
    = (Returned r, t')
    /\ ((safety_passed r = false /\ response r = safety_blocked_message)
        \/ (safety_passed r = true /\ response r = default_error_message)).
Proof.
  eexists _, _. split; [vm_compute; reflexivity|].
  eapply (@failure_kind_is_told_by_the_message unsafe_services 7%Z
            "How to make a dangerous device?" []);
    vm_compute; reflexivity.
Defined.

Lemma success_is_the_stripped_answer_witness :
  exists r t',
    process_user_request (alaska_agent healthy_services) 7
      "How do I report an unplowed road?" []
    = (Returned r, t')
    /\ exists text context_df answer,
        classifier_says healthy_services "How do I report an unplowed road?" []
        = Returned text
        /\ judged_safe text = true
        /\ store_says healthy_services "How do I report an unplowed road?" []
           = Returned context_df
        /\ chat_says healthy_services "How do I report an unplowed road?" []
             context_df = Returned answer
        /\ answer <> EmptyString
        /\ response r = strip answer
        /\ t' = [classify_call "How do I report an unplowed road?";
                 search_call "How do I report an unplowed road?";
                 generate_call "How do I report an unplowed road?" context_df].
Proof.
  eexists _, _. split; [vm_compute; reflexivity|].
  eapply (success_is_the_stripped_answer healthy_services 7
            "How do I report an unplowed road?" []); vm_compute; reflexivity.
Defined.

Lemma unexpected_error_branch_is_never_taken_witness :
  ~ unclassified
      (mk_exn ResponseGenerationError
         "Failed to generate response: service unavailable").
Proof.
  apply (@unexpected_error_branch_is_never_taken chat_down_services
           "How do I report an unplowed road?" []).
  right. eexists _, _. split; vm_compute; reflexivity.
Defined.

End RequestJourneyWitnesses.

(** ** Health check *)

Section HealthCheck.

Import CoreEngine CoreEngineApi PyDict.

Variable self : AlaskaSnowAgent.
Variable bq_client_type : Outcome string.
Variable t : Trace.

Lemma health_check_run :
  health_check self bq_client_type t =
  (Returned
     (mk_health
        (healthy (probe_status (fst (safety_validator self "test message" t)))
         && healthy (client_status bq_client_type))
        [("safety_validator",
          probe_status (fst (safety_validator self "test message" t)));
         ("response_generator", client_status bq_client_type)]),
   snd (safety_validator self "test message" t)).
Proof.
  unfold health_check, Body.starting_from, try_, bind, Body.calling, Body.modify,
    Body.current, eval.
  cbn [fst snd].
  destruct (safety_validator self "test message" t) as [[b|e] t1]; cbn [fst snd].
  - destruct bq_client_type as [c|e]; [reflexivity|].
    cbn [dispatch catches handler]. rewrite every_class_is_exception. reflexivity.
  - cbn [dispatch catches handler]. rewrite every_class_is_exception.
    unfold bind, Body.modify. cbn [fst snd].
    destruct bq_client_type as [c|e']; [reflexivity|].
    cbn [dispatch catches handler]. rewrite every_class_is_exception. reflexivity.
Qed.

End HealthCheck.

Section HealthCheckFacts.

Import CoreEngine CoreEngineApi PyDict.

(** X11. [health_check] never raises and always reports both components.
    The overall flag is true exactly when the validator probe returned
    (with either verdict) and the client could be read; a probe that
    the validator judges unsafe still counts as healthy, and a failing
    probe does not stop the check of the generator. *)
Theorem health_check_reports_both_components
  (self : AlaskaSnowAgent) (bq_client_type : Outcome string) (t : Trace) :
  exists h t',
    health_check self bq_client_type t = (Returned h, t')
    /\ (overall_healthy h = true <->
        (exists test_result,
            fst (safety_validator self "test message" t) = Returned test_result)
        /\ (exists client, bq_client_type = Returned client))
    /\ (forall test_result,
          fst (safety_validator self "test message" t) = Returned test_result ->
          dict_lookup (components h) "safety_validator"
          = Some (ProbeAnswered test_result))
    /\ (forall e,
          fst (safety_validator self "test message" t) = Raised e ->
          dict_lookup (components h) "safety_validator" = Some (Unhealthy (str e))
          /\ overall_healthy h = false)
    /\ dict_lookup (components h) "response_generator"
       = Some (client_status bq_client_type).
Proof.
  rewrite health_check_run. eexists _, _. split; [reflexivity|].
  cbn [overall_healthy components].
  destruct (fst (safety_validator self "test message" t)) as [b|e];
    destruct bq_client_type as [c|e']; cbn;
    (split; [split; [intros H; try discriminate H; split; eauto
                    | intros [[? H1] [? H2]]; try discriminate H1;
                      try discriminate H2; reflexivity]|]);
    (split; [intros ? H; try discriminate H; now injection H as <- |]);
    (split; [intros ? H; try discriminate H; now injection H as <- |]);
    reflexivity.
Qed.

(** X12. With the repository's validator the health check costs exactly
    one classifier call, on the probe "test message", and none to the
    store or the chat model; the validator is reported healthy exactly
    when the classifier answered, whatever it answered. *)
Theorem health_check_asks_the_classifier_once
  (svc : Services) (bq_client_type : Outcome string) (t : Trace) :
  snd (health_check (alaska_agent svc) bq_client_type t)
  = (t ++ [ClassifyCall (SafetyValidator.safety_prompt_template "test message")])%list
  /\ forall h,
      fst (health_check (alaska_agent svc) bq_client_type t) = Returned h ->
      forall status,
        dict_lookup (components h) "safety_validator" = Some status ->
        (healthy status = true <->
         exists text,
           classifier svc t (SafetyValidator.safety_prompt_template "test message")
           = Returned text).
Proof.
  rewrite health_check_run. cbn [fst snd alaska_agent safety_validator].
  assert (B : blank "test message" = false) by reflexivity.
  rewrite (@validate_run svc "test message" t B). cbn [fst snd].
  split; [reflexivity|].
  intros h [= <-] status. cbn [components dict_lookup].
  rewrite String.eqb_refl. intros [= <-].
  destruct (classifier svc t _) as [text|e]; cbn; split; eauto.
  - discriminate.
  - intros [text H]. discriminate H.
Qed.

End HealthCheckFacts.

Lemma health_check_asks_the_classifier_once_witness :
  CoreEngineApi.healthy (CoreEngineApi.ProbeAnswered false) = true <->
  exists text,
    classifier MoreDoubles.unsafe_services []
      (SafetyValidator.safety_prompt_template "test message") = Returned text.
Proof.
  refine (proj2 (health_check_asks_the_classifier_once
                   MoreDoubles.unsafe_services (Returned "bigquery.Client") [])
            _ eq_refl _ eq_refl).
Defined.

(** ** Validation metrics *)

Section ValidationMetricsFacts.

Import ValidationMetrics PyDict.

(** X13. [get_validation_metrics] never raises and never returns the
    measured dictionary: the ["timestamp"] entry cannot be evaluated
    (the module does not import [logging]), so for every prompt, every
    verdict of the validator and every logger the result is the error
    dictionary, with ["is_safe"] false and the length of the prompt.  The
    trace is the validator's. *)
Theorem get_validation_metrics_never_measures
  (validate : string -> M Trace bool) (formatTime_of_logger : Outcome unit)
  (prompt : string) (t : Trace) :
  exists error,
    get_validation_metrics validate formatTime_of_logger prompt t
    = (Returned (NotMeasured error (String.length prompt)), snd (validate prompt t))
    /\ (forall e, fst (validate prompt t) = Raised e -> error = str e)
    /\ (forall is_safe,
          fst (validate prompt t) = Returned is_safe ->
          formatTime_of_logger = Returned tt ->
          error = "name 'logging' is not defined").
Proof.
  assert (L : (if py_not prompt then O else String.length prompt)
              = String.length prompt) by now destruct prompt.
  unfold get_validation_metrics, timestamp_entry, try_, bind, eval, raise.
  destruct (validate prompt t) as [[b|e] t1]; cbn [fst snd].
  - destruct formatTime_of_logger as [[]|e].
    + cbn. rewrite L. eexists. split; [reflexivity|].
      split; [discriminate | reflexivity].
    + cbn [dispatch catches handler]. rewrite every_class_is_exception.
      unfold ret. rewrite L. eexists. split; [reflexivity|].
      split; [discriminate | intros _ _ H; discriminate H].
  - cbn [dispatch catches handler]. rewrite every_class_is_exception.
    unfold ret. rewrite L. eexists. split; [reflexivity|].
    split; [now intros e' [= <-] | discriminate].
Qed.

End ValidationMetricsFacts.

(** ** More on text *)

Section MoreTextFacts.

Lemma rstrip_idempotent (s : string) : rstrip (rstrip s) = rstrip s.
Proof.
  induction s as [|c r IH]; [reflexivity|].
  cbn [rstrip]. destruct (rstrip r) as [|c' r'] eqn:E.
  - destruct (isspace c) eqn:S; [reflexivity|]. cbn. now rewrite S.
  - change (rstrip (String c (String c' r')))
      with (match rstrip (String c' r') with
            | EmptyString => if isspace c then EmptyString else String c EmptyString
            | String a x => String c (String a x)
            end).
    now rewrite IH.
Qed.

Lemma lstrip_keeps_head (c : ascii) (r : string) :
  isspace c = false -> lstrip (String c r) = String c r.
Proof. intros E. cbn. now rewrite E. Qed.

(** Stripping twice is stripping once. *)
Lemma strip_idempotent (s : string) : strip (strip s) = strip s.
Proof.
  unfold strip.
  destruct (lstrip_shape s) as [E | (c & r & E & Hc)]; rewrite E.
  - reflexivity.
  - destruct (@rstrip_keeps_head c r Hc) as [r' Er]. rewrite Er.
    rewrite (@lstrip_keeps_head c r' Hc), <- Er. apply rstrip_idempotent.
Qed.

Lemma all_chars_lstrip (p : ascii -> bool) (s : string) :
  all_chars p s = true -> all_chars p (lstrip s) = true.
Proof.
  induction s as [|c r IH]; [reflexivity|]. cbn.
  intros H. apply andb_true_iff in H. destruct H as [Hc Hr].
  destruct (isspace c); [now apply IH | cbn; now rewrite Hc, Hr].
Qed.

Lemma all_chars_rstrip (p : ascii -> bool) (s : string) :
  all_chars p s = true -> all_chars p (rstrip s) = true.
Proof.
  induction s as [|c r IH]; [reflexivity|]. cbn.
  intros H. apply andb_true_iff in H. destruct H as [Hc Hr].
  specialize (IH Hr). destruct (rstrip r) as [|c' r'].
  - destruct (isspace c); [reflexivity | cbn; now rewrite Hc].
  - change (all_chars p (String c (String c' r')))
      with (p c && all_chars p (String c' r')).
    now rewrite Hc, IH.
Qed.

Lemma all_chars_strip (p : ascii -> bool) (s : string) :
  all_chars p s = true -> all_chars p (strip s) = true.
Proof. intros H. now apply all_chars_rstrip, all_chars_lstrip. Qed.

(** Stripped text that is not empty begins with a character that is no
    white space. *)
Lemma strip_shape (s : string) :
  blank s = false ->
  exists c r, strip s = String c r /\ isspace c = false.
Proof.
  intros B. unfold strip.
  destruct (lstrip_shape s) as [E | (c & r & E & Hc)].
  - apply blank_lstrip in E. congruence.
  - rewrite E. destruct (@rstrip_keeps_head c r Hc) as [r' Er].
    now exists c, r'.
Qed.

(** The two facts about case below are facts of the first 128
    characters: they are asked of nothing else. *)
Lemma lower_upper_char (c : ascii) :
  (code c <? 128)%nat = true -> lower_char (upper_char c) = lower_char c.
Proof.
  destruct c as [[] [] [] [] [] [] [] []]; intros H;
    vm_compute in H; try discriminate H; reflexivity.
Qed.

Lemma lower_lower_char (c : ascii) :
  (code c <? 128)%nat = true -> lower_char (lower_char c) = lower_char c.
Proof.
  destruct c as [[] [] [] [] [] [] [] []]; intros H;
    vm_compute in H; try discriminate H; reflexivity.
Qed.

Lemma lower_char_is_not_upper (c : ascii) : is_AZ (lower_char c) = false.
Proof. destruct c as [[] [] [] [] [] [] [] []]; reflexivity. Qed.

Lemma lower_char_of_space (c : ascii) : isspace c = true -> is_word (lower_char c) = false.
Proof. destruct c as [[] [] [] [] [] [] [] []]; intros H; try discriminate H; reflexivity. Qed.

Lemma lower_upper (s : string) :
  Readings.ascii_only s = true -> lower (upper s) = lower s.
Proof.
  unfold Readings.ascii_only, lower, upper.
  induction s as [|c r IH]; cbn; [reflexivity|].
  intros A. apply andb_true_iff in A. destruct A as [Ac Ar].
  now rewrite (lower_upper_char c Ac), (IH Ar).
Qed.

Lemma lower_lower (s : string) :
  Readings.ascii_only s = true -> lower (lower s) = lower s.
Proof.
  unfold Readings.ascii_only, lower.
  induction s as [|c r IH]; cbn; [reflexivity|].
  intros A. apply andb_true_iff in A. destruct A as [Ac Ar].
  now rewrite (lower_lower_char c Ac), (IH Ar).
Qed.

End MoreTextFacts.

(** ** More on the two scanners *)

Section Scanners.

Import ResponseEvaluator Readings.

Lemma lower_has_no_upper (s : string) :
  all_chars (fun c => negb (is_AZ c)) (lower s) = true.
Proof.
  unfold lower. induction s as [|c r IH]; cbn; [reflexivity|].
  now rewrite lower_char_is_not_upper, IH.
Qed.

Lemma word_run_token_chars (s : string) :
  all_chars (fun c => negb (is_AZ c)) s = true ->
  all_chars token_char (word_run s) = true.
Proof.
  induction s as [|c r IH]; cbn; [reflexivity|].
  intros H. apply andb_true_iff in H. destruct H as [Hc Hr].
  destruct (is_word c) eqn:W; [|reflexivity].
  cbn. rewrite (IH Hr), andb_true_r.
  unfold is_word in W. unfold token_char.
  destruct (is_AZ c); [discriminate Hc | exact W].
Qed.

Lemma findall_tokens (rest : string) (prev : option ascii) (skip : nat) :
  all_chars (fun c => negb (is_AZ c)) rest = true ->
  Forall lower_case_token (re_findall_from prev skip rest).
Proof.
  revert prev skip. induction rest as [|c r IH]; intros prev skip H;
    cbn [re_findall_from]; [constructor|].
  assert (Hr : all_chars (fun c => negb (is_AZ c)) r = true).
  { cbn in H. apply andb_true_iff in H. tauto. }
  destruct skip as [|k]; [|now apply IH].
  destruct (word_match prev (String c r)) as [w|] eqn:M; [|now apply IH].
  constructor; [|now apply IH].
  pose proof (word_match_token _ _ M) as [N _]. split; [exact N|].
  unfold word_match in M.
  destruct (negb _ && is_word c); [|discriminate M].
  injection M as <-. now apply (word_run_token_chars (String c r)).
Qed.

(** X14. Every word of [tokenize_words] is a run, not empty, of
    lower-case letters, digits and underscores: no upper-case letter, no
    punctuation and no white space gets into a word. *)
Theorem tokenize_words_gives_lower_case_tokens (text : string) :
  Forall lower_case_token (tokenize_words text).
Proof. apply findall_tokens, lower_has_no_upper. Qed.

(** X15. On ASCII text [tokenize_words] does not see the case of its
    input: the text, its upper-case form and its lower-case form have
    the same words. *)
Theorem tokenize_words_ignores_case (text : string) :
  Readings.ascii_only text = true ->
  tokenize_words (upper text) = tokenize_words text
  /\ tokenize_words (lower text) = tokenize_words text.
Proof.
  intros A. unfold tokenize_words.
  now rewrite (lower_upper text A), (lower_lower text A).
Qed.

Lemma tokenize_words_ignores_case_witness :
  tokenize_words (upper "Snow plows, 24 h") = tokenize_words "Snow plows, 24 h"
  /\ tokenize_words (lower "Snow plows, 24 h") = tokenize_words "Snow plows, 24 h".
Proof.
  apply (tokenize_words_ignores_case "Snow plows, 24 h"). reflexivity.
Defined.

(** X16. Every sentence of [split_into_sentences] is not empty and has
    no white space at either end. *)
Theorem split_into_sentences_gives_stripped_sentences (text : string) :
  Forall (fun s => s <> EmptyString /\ strip s = s) (split_into_sentences text).
Proof.
  unfold split_into_sentences. apply Forall_forall. intros s H.
  apply in_map_iff in H. destruct H as (piece & <- & H).
  apply filter_In in H. destruct H as [_ H].
  split; [now destruct (strip piece) | apply strip_idempotent].
Qed.

Lemma re_split_without_terminator (rest : string) (prev : option ascii)
  (piece : string) :
  match prev with Some p => is_terminator p = false | None => True end ->
  no_terminator rest = true ->
  re_split_from prev O piece rest = [(piece ++ rest)%string].
Proof.
  revert prev piece. induction rest as [|c r IH]; intros prev piece P N.
  - cbn. now rewrite append_empty_r.
  - cbn [re_split_from].
    assert (B : boundary_match prev (String c r) = None).
    { unfold boundary_match. destruct prev as [p|]; [now rewrite P | reflexivity]. }
    rewrite B. unfold no_terminator in N. cbn in N.
    apply andb_true_iff in N. destruct N as [Nc Nr].
    rewrite IH; [| now apply negb_true_iff in Nc | exact Nr].
    now rewrite append_assoc.
Qed.

(** X17. A text without ['.'], ['!'] and ['?'] that is not blank is one
    sentence: the text, stripped. *)
Theorem text_without_terminator_is_one_sentence (text : string) :
  blank text = false ->
  no_terminator text = true ->
  split_into_sentences text = [strip text].
Proof.
  intros B N. unfold split_into_sentences.
  rewrite re_split_without_terminator;
    [| exact I | now apply all_chars_strip].
  cbn [append filter]. rewrite strip_idempotent.
  destruct (strip_shape text B) as (c & r & E & _). rewrite E. cbn [py_not negb map].
  now rewrite <- E, strip_idempotent.
Qed.

(** The first piece of a split begins with what was already gathered. *)
Lemma re_split_from_head (rest : string) (prev : option ascii) (skip : nat)
  (piece : string) :
  exists tail others,
    re_split_from prev skip piece rest = (piece ++ tail)%string :: others.
Proof.
  revert prev skip piece. induction rest as [|c r IH]; intros prev skip piece.
  - exists EmptyString, []. cbn. now rewrite append_empty_r.
  - cbn [re_split_from]. destruct skip as [|k]; [|apply IH].
    destruct (boundary_match prev (String c r)) as [[|k]|].
    + destruct (IH (Some c) O (piece ++ String c EmptyString)%string)
        as (tail & others & E).
      rewrite E. exists (String c tail), others. now rewrite append_assoc.
    + exists EmptyString, (re_split_from (Some c) k EmptyString r).
      now rewrite append_empty_r.
    + destruct (IH (Some c) O (piece ++ String c EmptyString)%string)
        as (tail & others & E).
      rewrite E. exists (String c tail), others. now rewrite append_assoc.
Qed.

(** Text that is not blank has a sentence. *)
Lemma split_into_sentences_of_text (text : string) :
  blank text = false -> split_into_sentences text <> [].
Proof.
  intros B. unfold split_into_sentences.
  destruct (strip_shape text B) as (c & r & E & Hc). rewrite E.
  cbn [re_split_from]. cbn [boundary_match].
  destruct (re_split_from_head r (Some c) O (EmptyString ++ String c EmptyString))
    as (tail & others & S).
  rewrite S. cbn [append].
  assert (K : negb (py_not (strip (String c tail))) = true).
  { destruct (@rstrip_keeps_head c tail Hc) as [r' Er].
    unfold strip. now rewrite (@lstrip_keeps_head c tail Hc), Er. }
  cbn [filter]. rewrite K. discriminate.
Qed.

Lemma findall_of_non_words (rest : string) (prev : option ascii) (skip : nat) :
  all_chars (fun c => negb (is_word c)) rest = true ->
  re_findall_from prev skip rest = [].
Proof.
  revert prev skip. induction rest as [|c r IH]; intros prev skip H;
    cbn [re_findall_from]; [reflexivity|].
  cbn in H. apply andb_true_iff in H. destruct H as [Hc Hr].
  destruct skip as [|k]; [|now apply IH].
  unfold word_match. apply negb_true_iff in Hc. rewrite Hc, andb_false_r.
  now apply IH.
Qed.

(** Blank text has no word. *)
Lemma tokenize_words_of_blank (text : string) :
  blank text = true -> tokenize_words text = [].
Proof.
  intros B. unfold tokenize_words. apply findall_of_non_words.
  unfold blank in B. unfold lower.
  induction text as [|c r IH]; [reflexivity|].
  cbn in *. apply andb_true_iff in B. destruct B as [Bc Br].
  now rewrite (lower_char_of_space c Bc), IH.
Qed.

End Scanners.

(** ** More on the fluency heuristic *)

Section FluencyFloor.

Import ResponseEvaluator.
Local Open Scope Q_scope.

Lemma fluency_in_range (text : string) : 1 <= compute_fluency_score text <= 5.
Proof.
  unfold compute_fluency_score.
  destruct (py_not text || py_not (strip text)); [split; discriminate|].
  destruct (is_empty (split_into_sentences text) || is_empty (tokenize_words text));
    [split; discriminate|].
  apply clamped_in_range.
Qed.

(** X18. The score is 1 exactly for the texts without a word; a text
    with at least one word scores 2.5 or more, so the lower end of the
    final clamp is never what decides. *)
Theorem compute_fluency_score_floor (text : string) :
  (tokenize_words text = [] -> compute_fluency_score text == 1)
  /\ (tokenize_words text <> [] -> 5 # 2 <= compute_fluency_score text).
Proof.
  unfold compute_fluency_score. rewrite blank_guard. split.
  - intros W. rewrite W. destruct (blank text); [reflexivity|].
    now rewrite orb_true_r.
  - intros W. destruct (blank text) eqn:B.
    + now apply tokenize_words_of_blank in B.
    + pose proof (split_into_sentences_of_text text B) as S.
      destruct (split_into_sentences text) as [|s ss]; [congruence|].
      destruct (tokenize_words text) as [|w ws]; [congruence|].
      cbn [is_empty orb negb].
      repeat match goal with
             | |- context [if Qltb ?a ?b then _ else _] => destruct (Qltb a b)
             end;
        discriminate.
Qed.

End FluencyFloor.

Lemma compute_fluency_score_floor_witness :
  (ResponseEvaluator.compute_fluency_score "?!" == 1)%Q
  /\ (5 # 2 <= ResponseEvaluator.compute_fluency_score "No. No. No. No.")%Q.
Proof.
  split.
  - apply (proj1 (compute_fluency_score_floor "?!")). reflexivity.
  - apply (proj2 (compute_fluency_score_floor "No. No. No. No.")). discriminate.
Defined.

Lemma text_without_terminator_is_one_sentence_witness :
  ResponseEvaluator.split_into_sentences "  snow removal, Anchorage  "
  = ["snow removal, Anchorage"]%string.
Proof.
  apply (text_without_terminator_is_one_sentence "  snow removal, Anchorage  ");
    reflexivity.
Defined.

(** ** Word overlap and the evaluation record *)

Section Rounding3.

Import ResponseEvaluator EvaluationMetrics.
Local Open Scope Q_scope.

Variable ties_up : Q -> bool.

Lemma round_nearest_bounds (x : Q) (a b : Z) :
  inject_Z a <= x <= inject_Z b ->
  (a <= round_nearest ties_up x <= b)%Z.
Proof.
  intros [La Lb]. unfold round_nearest.
  assert (Fa : (a <= Qfloor x)%Z).
  { rewrite <- (Qfloor_Z a). now apply Qfloor_resp_le. }
  assert (Fb : (Qfloor x <= b)%Z).
  { rewrite <- (Qfloor_Z b). now apply Qfloor_resp_le. }
  destruct (Z.eq_dec (Qfloor x) b) as [E | N].
  - assert (X : x - inject_Z (Qfloor x) <= 0).
    { rewrite E. unfold Qminus. rewrite <- (Qplus_opp_r (inject_Z b)).
      apply Qplus_le_l. exact Lb. }
    assert (C : Qcompare (x - inject_Z (Qfloor x)) (1 # 2) = Lt).
    { apply Qlt_alt. apply Qle_lt_trans with 0; [exact X | reflexivity]. }
    rewrite C. lia.
  - destruct (Qcompare (x - inject_Z (Qfloor x)) (1 # 2));
      [destruct (ties_up x)| |]; lia.
Qed.

(** A quotient between 0 and 1 is rounded to a number between 0 and 1. *)
Lemma round3_unit_interval (x : Q) : 0 <= x <= 1 -> 0 <= round3 ties_up x <= 1.
Proof.
  intros [L U]. unfold round3.
  assert (B : (0 <= round_nearest ties_up (x * 1000) <= 1000)%Z).
  { apply round_nearest_bounds. split.
    - setoid_replace (inject_Z 0) with (0 * 1000) by reflexivity.
      apply Qmult_le_compat_r; [exact L | discriminate].
    - setoid_replace (inject_Z 1000) with (1 * 1000) by reflexivity.
      apply Qmult_le_compat_r; [exact U | discriminate]. }
  set (r := round_nearest ties_up (x * 1000)) in *. split.
  - apply Qle_shift_div_l; [reflexivity|].
    unfold Qle, Qmult, inject_Z. cbn [Qnum Qden]. lia.
  - apply Qle_shift_div_r; [reflexivity|].
    unfold Qle, Qmult, inject_Z. cbn [Qnum Qden]. lia.
Qed.

(** A quotient that is not negative is not rounded below 0. *)
Lemma round3_nonnegative (x : Q) : 0 <= x -> 0 <= round3 ties_up x.
Proof.
  intros L. unfold round3.
  assert (B : (0 <= round_nearest ties_up (x * 1000)
               <= Qfloor (x * 1000) + 1)%Z).
  { apply round_nearest_bounds. split.
    - setoid_replace (inject_Z 0) with (0 * 1000) by reflexivity.
      apply Qmult_le_compat_r; [exact L | discriminate].
    - apply Qlt_le_weak. apply Qlt_floor. }
  set (r := round_nearest ties_up (x * 1000)) in *.
  apply Qle_shift_div_l; [reflexivity|].
  unfold Qle, Qmult, inject_Z. cbn [Qnum Qden]. lia.
Qed.

(** A whole number of thousandths is left as it is. *)
Lemma round3_exact (x : Q) (k : Z) :
  x * 1000 == inject_Z k -> round3 ties_up x == inject_Z k / 1000.
Proof.
  intros E. unfold round3.
  assert (B : (k <= round_nearest ties_up (x * 1000) <= k)%Z).
  { apply round_nearest_bounds. rewrite E. split; apply Qle_refl. }
  replace (round_nearest ties_up (x * 1000)) with k by lia. reflexivity.
Qed.

End Rounding3.

Section WordOverlap.

Import ResponseEvaluator EvaluationMetrics.
Local Open Scope Q_scope.

Variable ties_up : Q -> bool.

Lemma py_set_is_empty (words : list string) :
  is_empty (py_set words) = is_empty words.
Proof.
  destruct words as [|w ws]; [reflexivity|].
  assert (H : In w (py_set (w :: ws))) by (apply nodup_In; now left).
  now destruct (py_set (w :: ws)).
Qed.

Lemma member_iff (w : string) (b : list string) :
  existsb (String.eqb w) b = true <-> In w b.
Proof.
  rewrite existsb_exists. split.
  - intros (x & H & E). apply String.eqb_eq in E. now subst.
  - intros H. exists w. split; [exact H | apply String.eqb_refl].
Qed.

Lemma intersection_all (a b : list string) :
  (forall w, In w a -> In w b) -> intersection a b = a.
Proof.
  unfold intersection. induction a as [|x a IH]; intros H; [reflexivity|].
  cbn. rewrite (proj2 (member_iff x b)); [|apply H; now left].
  f_equal. apply IH. intros w Hw. apply H. now right.
Qed.

Lemma intersection_none (a b : list string) :
  (forall w, In w a -> ~ In w b) -> intersection a b = [].
Proof.
  unfold intersection. induction a as [|x a IH]; intros H; [reflexivity|].
  cbn. destruct (existsb (String.eqb x) b) eqn:E.
  - apply member_iff in E. exfalso. apply (H x); [now left | exact E].
  - apply IH. intros w Hw. apply H. now right.
Qed.

Lemma len_positive {A} (x : A) (xs : list A) : 0 < len (x :: xs).
Proof.
  unfold len. rewrite <- (Zlt_Qlt 0). cbn [List.length]. lia.
Qed.

Lemma len_monotone {A} (xs ys : list A) :
  (List.length xs <= List.length ys)%nat -> len xs <= len ys.
Proof. intros H. unfold len. rewrite <- Zle_Qle. lia. Qed.

Lemma word_overlap_range (reference prediction : string) :
  0 <= _compute_word_overlap ties_up reference prediction <= 1
  /\ (tokenize_words reference = [] ->
      _compute_word_overlap ties_up reference prediction = 0).
Proof.
  unfold _compute_word_overlap. rewrite py_set_is_empty. split.
  - destruct (tokenize_words reference) as [|w ws] eqn:W;
      [split; discriminate|].
    cbn [is_empty]. apply round3_unit_interval.
    pose proof (py_set_is_empty (w :: ws)) as N. cbn [is_empty] in N.
    destruct (py_set (w :: ws)) as [|x xs]; [discriminate N|].
    pose proof (len_positive x xs) as P. split.
    + apply Qle_shift_div_l; [exact P|]. rewrite Qmult_0_l.
      unfold len. rewrite <- (Zle_Qle 0). lia.
    + apply Qle_shift_div_r; [exact P|]. rewrite Qmult_1_l.
      apply len_monotone. apply filter_length_le.
  - intros ->. reflexivity.
Qed.

(** X19. The word overlap is always between 0 and 1, and it is 0 when
    the reference has no word: no division by zero. *)
Theorem word_overlap_in_unit_interval (reference prediction : string) :
  0 <= _compute_word_overlap ties_up reference prediction <= 1
  /\ (tokenize_words reference = [] ->
      _compute_word_overlap ties_up reference prediction = 0).
Proof. apply word_overlap_range. Qed.

(** X20. When every word of the reference occurs in the prediction the
    overlap is 1, whatever else the prediction says and in whatever
    order; when no word of the reference occurs in it the overlap is 0. *)
Theorem word_overlap_extremes (reference prediction : string) :
  tokenize_words reference <> [] ->
  ((forall w, In w (tokenize_words reference) -> In w (tokenize_words prediction)) ->
   _compute_word_overlap ties_up reference prediction == 1)
  /\ ((forall w, In w (tokenize_words reference) ->
                 ~ In w (tokenize_words prediction)) ->
      _compute_word_overlap ties_up reference prediction == 0).
Proof.
  intros N. unfold _compute_word_overlap. rewrite py_set_is_empty.
  destruct (tokenize_words reference) as [|w ws] eqn:W; [congruence|].
  cbn [is_empty].
  pose proof (py_set_is_empty (w :: ws)) as E. cbn [is_empty] in E.
  destruct (py_set (w :: ws)) as [|x xs] eqn:S; [discriminate E|].
  assert (P : ~ len (x :: xs) == 0).
  { intros Z. pose proof (len_positive x xs) as L. rewrite Z in L.
    now apply Qlt_irrefl in L. }
  split; intros H.
  - rewrite intersection_all.
    + rewrite (@round3_exact ties_up _ 1000%Z); [reflexivity|].
      unfold Qdiv. rewrite Qmult_inv_r; [reflexivity | exact P].
    + intros v Hv. unfold py_set. apply nodup_In. apply H.
      rewrite <- S in Hv. now apply nodup_In in Hv.
  - rewrite intersection_none.
    + rewrite (@round3_exact ties_up _ 0%Z); [reflexivity|].
      unfold Qdiv. change (len []) with 0. now rewrite !Qmult_0_l.
    + intros v Hv Hp. unfold py_set in Hp. apply nodup_In in Hp.
      rewrite <- S in Hv. apply nodup_In in Hv. now apply (H v).
Qed.

(** X21. On ASCII text the word overlap does not see the case of either
    text. *)
Theorem word_overlap_ignores_case (reference prediction : string) :
  Readings.ascii_only reference = true ->
  Readings.ascii_only prediction = true ->
  _compute_word_overlap ties_up (upper reference) (lower prediction)
  = _compute_word_overlap ties_up reference prediction
  /\ _compute_word_overlap ties_up (lower reference) (upper prediction)
     = _compute_word_overlap ties_up reference prediction.
Proof.
  intros R P. unfold _compute_word_overlap, tokenize_words.
  now rewrite (lower_upper reference R), (lower_upper prediction P),
    (lower_lower reference R), (lower_lower prediction P).
Qed.

End WordOverlap.

Lemma word_overlap_extremes_witness :
  (EvaluationMetrics._compute_word_overlap (fun _ => false)
     "Report unplowed roads." "Roads unplowed? Report them!" == 1)%Q
  /\ (EvaluationMetrics._compute_word_overlap (fun _ => false)
        "Report unplowed roads." "The weather is nice today." == 0)%Q.
Proof.
  assert (N : ResponseEvaluator.tokenize_words "Report unplowed roads." <> [])
    by discriminate.
  split.
  - apply (proj1 (word_overlap_extremes (fun _ => false)
                    "Report unplowed roads." "Roads unplowed? Report them!" N)).
    intros w H. vm_compute in H. vm_compute. tauto.
  - apply (proj2 (word_overlap_extremes (fun _ => false)
                    "Report unplowed roads." "The weather is nice today." N)).
    intros w H. vm_compute in H. vm_compute.
    intros K. repeat (destruct H as [H | H]; [subst w;
      repeat (destruct K as [K | K]; [discriminate K|]); exact K|]). exact H.
Defined.

Lemma word_overlap_ignores_case_witness :
  EvaluationMetrics._compute_word_overlap (fun _ => false)
    (upper "Report unplowed roads.") (lower "Roads unplowed? Report them!")
  = EvaluationMetrics._compute_word_overlap (fun _ => false)
      "Report unplowed roads." "Roads unplowed? Report them!"
  /\ EvaluationMetrics._compute_word_overlap (fun _ => false)
       (lower "Report unplowed roads.") (upper "Roads unplowed? Report them!")
     = EvaluationMetrics._compute_word_overlap (fun _ => false)
         "Report unplowed roads." "Roads unplowed? Report them!".
Proof.
  apply (@word_overlap_ignores_case (fun _ => false)
           "Report unplowed roads." "Roads unplowed? Report them!");
    reflexivity.
Defined.

Section EvaluationRecordFacts.

Import ResponseEvaluator EvaluationMetrics PyDict RecordReadings.
Local Open Scope Q_scope.

Variable ties_up : Q -> bool.
Variable rouge_compute : string -> string -> Outcome (dict Q).
Variable bertscore_compute : string -> string -> Outcome (dict (list Q)).
Variable Tensor : Type.
Variable encode : string -> Outcome Tensor.
Variable pytorch_cos_sim : Tensor -> Tensor -> Outcome Q.
Variable S : Type.

(** The record, by what the two scorers delivered. *)
Lemma compute_comprehensive_metrics_run (reference prediction : string) (s : S) :
  @compute_comprehensive_metrics ties_up rouge_compute bertscore_compute
    Tensor encode pytorch_cos_sim S reference prediction s =
  (Returned
     (match rouge_compute prediction reference,
            bertscore_compute prediction reference with
      | Returned rd, Returned bd =>
          if scorers_delivered (Returned rd) (Returned bd) then
            mk_record reference prediction
              (get rd "rouge1" 0) (get rd "rouge2" 0) (get rd "rougeL" 0)
              (get rd "rougeLsum" 0)
              (first_score bd "precision") (first_score bd "recall")
              (first_score bd "f1")
              (compute_fluency_score prediction)
              (compute_semantic_similarity encode pytorch_cos_sim
                 reference prediction)
              (round3 ties_up (len_str prediction / len_or_one reference))
              (_compute_word_overlap ties_up reference prediction)
              false
          else _get_default_metrics reference prediction
      | _, _ => _get_default_metrics reference prediction
      end),
   s).
Proof.
  unfold compute_comprehensive_metrics, try_, bind, eval, ret.
  destruct (rouge_compute prediction reference) as [rd|e];
    [| cbn [dispatch catches handler]; now rewrite every_class_is_exception].
  destruct (bertscore_compute prediction reference) as [bd|e];
    [| cbn [dispatch catches handler]; now rewrite every_class_is_exception].
  unfold scorers_delivered, has_score, has_first_score, getitem, get,
    first_score, first_item.
  destruct (dict_lookup rd "rouge1"); [|reflexivity].
  destruct (dict_lookup rd "rouge2"); [|reflexivity].
  destruct (dict_lookup rd "rougeL"); [|reflexivity].
  destruct (dict_lookup bd "precision") as [[|p ps]|]; try reflexivity.
  destruct (dict_lookup bd "recall") as [[|r rs]|]; try reflexivity.
  destruct (dict_lookup bd "f1") as [[|f fs]|]; reflexivity.
Qed.

(** X22. [compute_comprehensive_metrics] never raises.  The ["error"]
    key is there exactly when a scorer raised or left out an entry that
    is read by index, and then the record is the default one, whatever
    the texts are; a ROUGE result without ["rougeLsum"] is no failure,
    the record has 0 there.  Otherwise every field is the scorer's
    entry or the value computed from the two texts. *)
Theorem compute_comprehensive_metrics_record (reference prediction : string) (s : S) :
  exists rec,
    @compute_comprehensive_metrics ties_up rouge_compute bertscore_compute
    Tensor encode pytorch_cos_sim S reference prediction s = (Returned rec, s)
    /\ error rec
       = negb (scorers_delivered (rouge_compute prediction reference)
                 (bertscore_compute prediction reference))
    /\ (error rec = true -> rec = _get_default_metrics reference prediction)
    /\ (error rec = false ->
        exists rd bd,
          rouge_compute prediction reference = Returned rd
          /\ bertscore_compute prediction reference = Returned bd
          /\ rouge1 rec = get rd "rouge1" 0
          /\ rouge2 rec = get rd "rouge2" 0
          /\ rougeL rec = get rd "rougeL" 0
          /\ rougeLsum rec = get rd "rougeLsum" 0
          /\ bertscore_precision rec = first_score bd "precision"
          /\ bertscore_recall rec = first_score bd "recall"
          /\ bertscore_f1 rec = first_score bd "f1"
          /\ fluency_score rec = compute_fluency_score prediction
          /\ semantic_similarity rec
             = compute_semantic_similarity encode pytorch_cos_sim
                 reference prediction
          /\ length_ratio rec
             = round3 ties_up (len_str prediction / len_or_one reference)
          /\ word_overlap rec = _compute_word_overlap ties_up reference prediction).
Proof.
  rewrite compute_comprehensive_metrics_run. eexists. split; [reflexivity|].
  destruct (rouge_compute prediction reference) as [rd|e];
    [| cbn; split; [reflexivity|]; split; [reflexivity | discriminate]].
  destruct (bertscore_compute prediction reference) as [bd|e];
    [| cbn; split; [reflexivity|]; split; [reflexivity | discriminate]].
  destruct (scorers_delivered (Returned rd) (Returned bd)); cbn [error negb].
  - split; [reflexivity|]. split; [discriminate|].
    intros _. exists rd, bd. repeat split.
  - split; [reflexivity|]. split; [reflexivity | discriminate].
Qed.

Lemma length_ratio_nonnegative (reference prediction : string) :
  0 <= len_str prediction / len_or_one reference.
Proof.
  apply Qle_shift_div_l.
  - unfold len_or_one. rewrite <- (Zlt_Qlt 0). lia.
  - rewrite Qmult_0_l. unfold len_str. rewrite <- (Zle_Qle 0). lia.
Qed.

(** X23. [evaluate_text] (and [evaluate_response_quality], which it
    calls) never raises and returns one row; the row repeats the two
    texts, and its locally computed fields are in range whether the
    scorers failed or not: fluency in [1, 5], word overlap in [0, 1],
    length ratio at least 0. *)
Theorem evaluate_text_gives_one_row_in_range (reference prediction : string) (s : S) :
  exists row,
    @evaluate_text ties_up rouge_compute bertscore_compute
      Tensor encode pytorch_cos_sim S reference prediction s
    = (Returned [row], s)
    /\ EvaluationMetrics.reference row = reference
    /\ EvaluationMetrics.prediction row = prediction
    /\ 1 <= fluency_score row <= 5
    /\ 0 <= word_overlap row <= 1
    /\ 0 <= length_ratio row.
Proof.
  unfold evaluate_text, evaluate_response_quality, bind, ret.
  rewrite compute_comprehensive_metrics_run.
  eexists. split; [reflexivity|].
  assert (D : let d := _get_default_metrics reference prediction in
              EvaluationMetrics.reference d = reference
              /\ EvaluationMetrics.prediction d = prediction
              /\ 1 <= fluency_score d <= 5
              /\ 0 <= word_overlap d <= 1
              /\ 0 <= length_ratio d).
  { cbn. repeat split; discriminate. }
  destruct (rouge_compute prediction reference) as [rd|e]; [|exact D].
  destruct (bertscore_compute prediction reference) as [bd|e]; [|exact D].
  destruct (scorers_delivered (Returned rd) (Returned bd)); [|exact D].
  cbn [EvaluationMetrics.reference EvaluationMetrics.prediction fluency_score
         word_overlap length_ratio].
  split; [reflexivity|]. split; [reflexivity|].
  split; [apply fluency_in_range|].
  split; [apply word_overlap_range|].
  apply round3_nonnegative, length_ratio_nonnegative.
Qed.

End EvaluationRecordFacts.

Section EvaluationRecordWitnesses.

Import ResponseEvaluator EvaluationMetrics PyDict RecordReadings EvaluatorDoubles.
Local Open Scope Q_scope.

Lemma word_overlap_in_unit_interval_witness :
  _compute_word_overlap (fun _ => false) "" "The weather is nice today." = 0.
Proof.
  apply (proj2 (word_overlap_in_unit_interval (fun _ => false)
                  "" "The weather is nice today.")).
  reflexivity.
Defined.

Lemma compute_comprehensive_metrics_record_witness :
  exists rec,
    @compute_comprehensive_metrics (fun _ => false) rouge_without_lsum
      bertscore_of_one Z Doubles.opposed_encode Doubles.opposed_cos_sim unit
      "Report unplowed roads." "Report roads." tt
    = (Returned rec, tt)
    /\ error rec = false
    /\ rougeLsum rec = 0
  /\ exists rec,
    @compute_comprehensive_metrics (fun _ => false) rouge_without_rouge2
      bertscore_of_one Z Doubles.opposed_encode Doubles.opposed_cos_sim unit
      "Report unplowed roads." "Report roads." tt
    = (Returned rec, tt)
    /\ rec = _get_default_metrics "Report unplowed roads." "Report roads.".
Proof.
  destruct (compute_comprehensive_metrics_record (fun _ => false)
              rouge_without_lsum bertscore_of_one
              Doubles.opposed_encode Doubles.opposed_cos_sim
              "Report unplowed roads." "Report roads." tt)
    as (rec & E & F & _ & M).
  exists rec. split; [exact E|]. split; [exact F|]. split.
  - destruct (M F) as (rd & bd & R & _ & _ & _ & _ & L & _).
    injection R as <-. exact L.
  - destruct (compute_comprehensive_metrics_record (fun _ => false)
                rouge_without_rouge2 bertscore_of_one
                Doubles.opposed_encode Doubles.opposed_cos_sim
                "Report unplowed roads." "Report roads." tt)
      as (rec' & E' & F' & D & _).
    exists rec'. split; [exact E' | exact (D F')].
Defined.

End EvaluationRecordWitnesses.

(** ** The session of the chat page *)

Section Session.

Import CoreEngine StreamlitInterface Body.

Lemma exchanges_append_bounded (n : nat) (history : list Message) (u a : Message) :
  (List.length history <= n)%nat ->
  role u = "user" -> role a = "assistant" ->
  exchanges history = true ->
  exchanges (history ++ [u; a])%list = true.
Proof.
  revert history. induction n as [|n IH]; intros history L Ru Ra E.
  - destruct history; [|cbn in L; lia]. cbn. now rewrite Ru, Ra.
  - destruct history as [|x [|y rest]].
    + cbn. now rewrite Ru, Ra.
    + discriminate E.
    + cbn in E. cbn [app exchanges].
      apply andb_true_iff in E. destruct E as [E1 E2]. rewrite E1. cbn [andb].
      apply IH; [cbn in L; lia | exact Ru | exact Ra | exact E2].
Qed.

Lemma exchanges_append (history : list Message) (u a : Message) :
  role u = "user" -> role a = "assistant" ->
  exchanges history = true ->
  exchanges (history ++ [u; a])%list = true.
Proof. now apply exchanges_append_bounded with (n := List.length history). Qed.

(** The run of [process_user_input] on a session that has its history
    and its counter. *)
Lemma process_user_input_run (agent : AlaskaSnowAgent) (id_of_input : Z)
  (user_input : string) (history : list Message) (c : option bool) (n : Z)
  (t : Trace) :
  exists r t',
    process_user_request agent id_of_input user_input t = (Returned r, t')
    /\ process_user_input agent id_of_input user_input
         (mk_session (Some history) c (Some n), t)
       = (Returned tt,
          (mk_session
             (Some (history
                    ++ [mk_message "user" user_input false;
                        mk_message "assistant" (response r) (negb (success r))])%list)
             c (Some (n + 1)%Z),
           t')).
Proof.
  destruct (process_user_request_returns agent id_of_input user_input t)
    as (r & t' & E).
  exists r, t'. split; [exact E|].
  unfold process_user_input, bind, try_, append_message, count_request, calling.
  cbn [fst snd messages clear_input request_count]. rewrite E.
  cbn [fst snd messages clear_input request_count].
  now rewrite <- app_assoc.
Qed.

End Session.

Section SessionFacts.

Import CoreEngine StreamlitInterface Body.

(** X24. [initialize_session_state] fills only what is missing: an entry
    that is there keeps its value (a history is never reset), all three
    entries are there afterwards, and a second call changes nothing. *)
Theorem initialize_session_state_fills_only_gaps (s : SessionState) :
  initialize_session_state (initialize_session_state s) = initialize_session_state s
  /\ (forall history,
        messages s = Some history ->
        messages (initialize_session_state s) = Some history)
  /\ (forall flag,
        clear_input s = Some flag ->
        clear_input (initialize_session_state s) = Some flag)
  /\ (forall n,
        request_count s = Some n ->
        request_count (initialize_session_state s) = Some n)
  /\ (messages s = None -> messages (initialize_session_state s) = Some [])
  /\ (clear_input s = None -> clear_input (initialize_session_state s) = Some false)
  /\ (request_count s = None ->
      request_count (initialize_session_state s) = Some 0%Z).
Proof.
  destruct s as [[h|] [b|] [n|]]; cbn; repeat split; congruence.
Qed.

Lemma process_user_input_keeps_consistent
  (agent : AlaskaSnowAgent) (id_of_input : Z) (user_input : string)
  (s : SessionState) (t : Trace) :
  consistent s ->
  exists r t' s' history n,
    messages s = Some history
    /\ request_count s = Some n
    /\ process_user_request agent id_of_input user_input t = (Returned r, t')
    /\ process_user_input agent id_of_input user_input (s, t)
       = (Returned tt, (s', t'))
    /\ messages s'
       = Some (history
               ++ [mk_message "user" user_input false;
                   mk_message "assistant" (response r) (negb (success r))])%list
    /\ request_count s' = Some (n + 1)%Z
    /\ clear_input s' = clear_input s
    /\ consistent s'.
Proof.
  intros (history & n & M & C & F & E & L).
  destruct s as [m c k]. cbn in M, C, F. subst m k.
  destruct (process_user_input_run agent id_of_input user_input history c n t)
    as (r & t' & R & P).
  exists r, t'. eexists. exists history, n.
  split; [reflexivity|]. split; [reflexivity|]. split; [exact R|].
  split; [exact P|]. cbn [messages request_count clear_input].
  split; [reflexivity|]. split; [reflexivity|]. split; [reflexivity|].
  eexists _, _. cbn [messages request_count clear_input].
  split; [reflexivity|]. split; [reflexivity|]. split; [exact F|]. split.
  - now apply exchanges_append.
  - rewrite length_app. cbn [List.length]. lia.
Qed.

(** X25. On a session that has its entries, [process_user_input] never
    raises and adds exactly one exchange to the history: the user's
    text, then the assistant's message, whose content is the response of
    the pipeline and whose error flag is the negation of [success].  The
    counter goes up by one, and the page's own fallback message is never
    what gets appended. *)
Theorem process_user_input_adds_one_exchange
  (agent : AlaskaSnowAgent) (id_of_input : Z) (user_input : string)
  (s : SessionState) (t : Trace) :
  consistent s ->
  exists r t' s' history n,
    messages s = Some history
    /\ request_count s = Some n
    /\ process_user_request agent id_of_input user_input t = (Returned r, t')
    /\ process_user_input agent id_of_input user_input (s, t)
       = (Returned tt, (s', t'))
    /\ messages s'
       = Some (history
               ++ [mk_message "user" user_input false;
                   mk_message "assistant" (response r) (negb (success r))])%list
    /\ request_count s' = Some (n + 1)%Z
    /\ clear_input s' = clear_input s
    /\ consistent s'.
Proof. apply process_user_input_keeps_consistent. Qed.

(** X26. The counter counts the exchanges of the history from the start:
    a fresh session is consistent after [initialize_session_state];
    on a consistent session [initialize_session_state] changes nothing
    and "Clear Chat History" gives a consistent session again. *)
Theorem session_stays_consistent :
  consistent (initialize_session_state (mk_session None None None))
  /\ forall s,
      consistent s ->
      initialize_session_state s = s /\ consistent (clear_chat_history s).
Proof.
  split.
  - exists [], 0%Z. cbn. repeat split; discriminate.
  - intros s (history & n & M & C & F & E & L).
    destruct s as [m c k]. cbn in M, C, F. subst m k.
    destruct c as [b|]; [|congruence]. split; [reflexivity|].
    exists [], 0%Z. cbn. repeat split; discriminate.
Qed.

(** X27. The send button plays no part in the input step of [main]: the
    input is taken exactly when it is not blank.  Blank input leaves the
    session and the trace as they are.  Other input is processed
    stripped: on a consistent session, with the repository's
    components, the step returns, sets [clear_input], keeps the session
    consistent, and the first call it adds to the trace is the
    classifier's, on the stripped text. *)
Theorem main_input_step_takes_text_that_is_not_blank
  (svc : Services) (id_of_input : Z) (send_button : bool) (user_input : string)
  (s : SessionState) (t : Trace) :
  input_accepted send_button user_input = negb (blank user_input)
  /\ (blank user_input = true ->
      main_input_step (alaska_agent svc) id_of_input send_button user_input (s, t)
      = (Returned tt, (s, t)))
  /\ (blank user_input = false ->
      consistent s ->
      exists s' rest,
        main_input_step (alaska_agent svc) id_of_input send_button user_input (s, t)
        = (Returned tt,
           (s', (t ++ Journey.classify_call (strip user_input) :: rest)%list))
        /\ clear_input s' = Some true
        /\ consistent s').
Proof.
  assert (A : input_accepted send_button user_input = negb (blank user_input)).
  { unfold input_accepted. rewrite <- blank_guard.
    destruct user_input as [|c r]; [now rewrite andb_false_r|].
    cbn [py_not negb orb]. now rewrite orb_true_r. }
  split; [exact A|]. unfold main_input_step. rewrite A. split.
  - now intros ->.
  - intros B K. rewrite B. cbn [negb].
    assert (B' : blank (strip user_input) = false).
    { destruct (blank (strip user_input)) eqn:X; [|reflexivity].
      apply strip_empty_iff_blank in X. rewrite strip_idempotent in X.
      apply strip_empty_iff_blank in X. congruence. }
    destruct (process_user_input_keeps_consistent (alaska_agent svc) id_of_input
                (strip user_input) t K)
      as (r & t' & s' & history & n & M & C & R & P & M' & C' & F' & K').
    destruct (request_ends_in svc id_of_input (strip user_input) t)
      as (r1 & t1 & R1 & J).
    rewrite R in R1. injection R1 as <- <-.
    assert (T : exists rest,
               t' = (t ++ Journey.classify_call (strip user_input) :: rest)%list).
    { destruct J; try congruence; eexists; reflexivity. }
    destruct T as [rest ->].
    unfold bind, modify. rewrite P. cbn [fst snd].
    eexists _, rest. split; [reflexivity|].
    cbn [clear_input]. split; [reflexivity|].
    destruct K' as (h' & n' & Mh & Cn & _ & E & L).
    exists h', n'. cbn [messages request_count clear_input].
    repeat split; try assumption. discriminate.
Qed.

End SessionFacts.

Section SessionWitnesses.

Import CoreEngine StreamlitInterface EvaluatorDoubles.

Lemma one_exchange_is_consistent : consistent one_exchange.
Proof.
  exists [mk_message "user" "Is Main Street plowed?" false;
          mk_message "assistant" "Yes, since 6 AM." false], 1%Z.
  cbn. repeat split; discriminate.
Qed.

Lemma initialize_session_state_fills_only_gaps_witness :
  messages (initialize_session_state one_exchange) = messages one_exchange
  /\ messages (initialize_session_state empty_session) = Some [].
Proof.
  split.
  - apply (proj1 (proj2 (initialize_session_state_fills_only_gaps one_exchange))).
    reflexivity.
  - apply (proj1 (proj2 (proj2 (proj2 (proj2
             (initialize_session_state_fills_only_gaps empty_session)))))).
    reflexivity.
Defined.

Lemma process_user_input_adds_one_exchange_witness :
  exists s' t',
    process_user_input (alaska_agent Doubles.chat_down_services) 7
      "How do I report an unplowed road?" (one_exchange, [])
    = (Returned tt, (s', t'))
    /\ request_count s' = Some 2%Z.
Proof.
  destruct (process_user_input_adds_one_exchange
              (alaska_agent Doubles.chat_down_services) 7
              "How do I report an unplowed road?" []
              one_exchange_is_consistent)
    as (r & t' & s' & history & n & _ & C & _ & P & _ & C' & _).
  exists s', t'. split; [exact P|].
  injection C as <-. exact C'.
Defined.

Lemma session_stays_consistent_witness :
  initialize_session_state one_exchange = one_exchange
  /\ consistent (clear_chat_history one_exchange).
Proof.
  exact (proj2 session_stays_consistent one_exchange one_exchange_is_consistent).
Defined.

Lemma main_input_step_takes_text_that_is_not_blank_witness :
  main_input_step (alaska_agent Doubles.healthy_services) 7 true "   "
    (one_exchange, [])
  = (Returned tt, (one_exchange, []))
  /\ exists s' rest,
      main_input_step (alaska_agent Doubles.healthy_services) 7 false
        "  Is Main Street plowed? " (one_exchange, [])
      = (Returned tt,
         (s', ([] ++ Journey.classify_call
                       (strip "  Is Main Street plowed? ") :: rest)%list))
      /\ clear_input s' = Some true
      /\ consistent s'.
Proof.
  split.
  - apply (proj1 (proj2 (main_input_step_takes_text_that_is_not_blank
                           Doubles.healthy_services 7 true "   "
                           one_exchange []))).
    reflexivity.
  - apply (proj2 (proj2 (main_input_step_takes_text_that_is_not_blank
                           Doubles.healthy_services 7 false
                           "  Is Main Street plowed? " one_exchange []))).
    + reflexivity.
    + exact one_exchange_is_consistent.
Defined.

End SessionWitnesses.

(** ** Remaining facts *)

Section Remaining.

Import CoreEngine CoreEngineApi PyDict ValidationMetrics.

(** X28. The classes of [utils/exceptions.py]: every class is caught by
    [except Exception]; [except AlaskaAgentException] catches exactly
    the five classes of the module; the four specific errors are
    unrelated to each other, so a clause naming one never catches
    another; and [issubclass] is a partial order. *)
Theorem exception_hierarchy :
  (forall c, issubclass c Exception = true)
  /\ (forall c, issubclass c AlaskaAgentException = negb (exn_class_eqb c Exception))
  /\ (forall c d,
        base_class c = Some AlaskaAgentException ->
        base_class d = Some AlaskaAgentException ->
        issubclass c d = true -> c = d)
  /\ (forall c, issubclass c c = true)
  /\ (forall c d, issubclass c d = true -> issubclass d c = true -> c = d)
  /\ (forall c d e,
        issubclass c d = true -> issubclass d e = true -> issubclass c e = true).
Proof.
  repeat split.
  - now intros [].
  - now intros [].
  - intros [] []; cbn; congruence.
  - now intros [].
  - intros [] []; cbn; congruence.
  - intros [] [] []; cbn; congruence.
Qed.

End Remaining.

Section RemainingWitnesses.

Import CoreEngine CoreEngineApi PyDict ValidationMetrics.

Lemma health_check_reports_both_components_witness :
  exists h t',
    health_check Doubles.unreachable_classifier_agent
      (Returned "<class 'google.cloud.bigquery.client.Client'>") []
    = (Returned h, t')
    /\ dict_lookup (components h) "safety_validator"
       = Some (Unhealthy "Safety validation error: Model error")
    /\ overall_healthy h = false
    /\ dict_lookup (components h) "response_generator"
       = Some (ClientPresent "<class 'google.cloud.bigquery.client.Client'>").
Proof.
  destruct (health_check_reports_both_components
              Doubles.unreachable_classifier_agent
              (Returned "<class 'google.cloud.bigquery.client.Client'>") [])
    as (h & t' & E & _ & _ & F & G).
  exists h, t'. split; [exact E|].
  destruct (F (mk_exn SafetyValidationError "Safety validation error: Model error")
              eq_refl) as [F1 F2].
  split; [exact F1|]. split; [exact F2 | exact G].
Defined.

Lemma get_validation_metrics_never_measures_witness :
  exists t',
    get_validation_metrics
      (SafetyValidator.validate_prompt_safety Doubles.healthy_services)
      (Returned tt) "Test prompt" []
    = (Returned (NotMeasured "name 'logging' is not defined" 11), t').
Proof.
  destruct (get_validation_metrics_never_measures
              (SafetyValidator.validate_prompt_safety Doubles.healthy_services)
              (Returned tt) "Test prompt" [])
    as (error & E & _ & N).
  rewrite (N true eq_refl eq_refl) in E. eexists. exact E.
Defined.

Lemma exception_hierarchy_witness :
  RAGRetrievalError = RAGRetrievalError
  /\ issubclass BigQueryConnectionError Exception = true.
Proof.
  split.
  - apply (proj1 (proj2 (proj2 exception_hierarchy))
             RAGRetrievalError RAGRetrievalError); reflexivity.
  - apply (proj1 exception_hierarchy).
Defined.

End RemainingWitnesses.

(* ================================================================== *)
(** * The fluency heuristic against the specification's wording        *)
(* ================================================================== *)

Section StringToolkit.

Lemma length_append (a b : string) :
  String.length (a ++ b) = (String.length a + String.length b)%nat.
Proof. induction a as [|c a IH]; cbn; [reflexivity | now rewrite IH]. Qed.

Lemma append_same_length (a b x y : string) :
  (a ++ x = b ++ y)%string -> String.length a = String.length b ->
  a = b /\ x = y.
Proof.
  revert b. induction a as [|c a IH]; intros [|d b] E L; cbn in *;
    try discriminate L; [now split|].
  injection E as -> E. injection L as L.
  destruct (IH b E L) as [-> ->]. now split.
Qed.

Lemma last_char_unique (a b : string) (c d : ascii) :
  (a ++ String c "" = b ++ String d "")%string -> a = b /\ c = d.
Proof.
  intros E. assert (L : String.length a = String.length b).
  { apply (f_equal String.length) in E. rewrite !length_append in E.
    cbn in E. lia. }
  destruct (append_same_length _ _ _ _ E L) as [-> H].
  now injection H as ->.
Qed.

Lemma all_chars_append (p : ascii -> bool) (a b : string) :
  all_chars p (a ++ b) = all_chars p a && all_chars p b.
Proof.
  induction a as [|c a IH]; cbn; [reflexivity|].
  now rewrite IH, andb_assoc.
Qed.

Lemma all_chars_ext (p q : ascii -> bool) (s : string) :
  (forall c, p c = q c) -> all_chars p s = all_chars q s.
Proof.
  intros H. induction s as [|c s IH]; cbn; [reflexivity|].
  now rewrite H, IH.
Qed.

Lemma map_chars_ext (f g : ascii -> ascii) (s : string) :
  (forall c, f c = g c) -> map_chars f s = map_chars g s.
Proof.
  intros H. induction s as [|c s IH]; cbn; [reflexivity|].
  now rewrite H, IH.
Qed.

End StringToolkit.

(** ** The character classes of the code are those of the specification *)

Section CharacterClasses.

Import ResponseEvaluator FluencySpec.

Lemma terminator_is (c : ascii) : terminator c = is_terminator c.
Proof. destruct c as [[] [] [] [] [] [] [] []]; reflexivity. Qed.

Lemma upper_case_letter_is (c : ascii) : upper_case_letter c = is_AZ c.
Proof. destruct c as [[] [] [] [] [] [] [] []]; reflexivity. Qed.

End CharacterClasses.

(** ** The rules do not depend on how a class is written *)

Section RulesExtensional.

Import FluencySpec.

Lemma ends_with_ext (p q : ascii -> bool) (s : string) :
  (forall c, p c = q c) -> ends_with p s -> ends_with q s.
Proof. intros H (a & c & E & P). exists a, c. now rewrite <- H. Qed.

Lemma starts_with_ext (p q : ascii -> bool) (s : string) :
  (forall c, p c = q c) -> starts_with p s -> starts_with q s.
Proof. intros H (c & r & E & P). exists c, r. now rewrite <- H. Qed.

Lemma gap_ext (p q : ascii -> bool) (g : string) :
  (forall c, p c = q c) -> gap p g -> gap q g.
Proof. intros H [N A]. split; [exact N|]. now rewrite <- (all_chars_ext p q g H). Qed.

Lemma has_boundary_ext (e s b e' s' b' : ascii -> bool) (x : string) :
  (forall c, e c = e' c) -> (forall c, s c = s' c) -> (forall c, b c = b' c) ->
  has_boundary e s b x -> has_boundary e' s' b' x.
Proof.
  intros He Hs Hb (before & g & after & E & A & G & B).
  exists before, g, after. split; [exact E|]. split; [|split].
  - now apply ends_with_ext with e.
  - now apply gap_ext with s.
  - now apply starts_with_ext with b.
Qed.

Lemma cut_at_boundaries_ext (e s b e' s' b' : ascii -> bool)
  (x : string) (l : list string) :
  (forall c, e c = e' c) -> (forall c, s c = s' c) -> (forall c, b c = b' c) ->
  cut_at_boundaries e s b x l -> cut_at_boundaries e' s' b' x l.
Proof.
  intros He Hs Hb H. induction H as [x N | p g rest l N E G B H IH].
  - apply last_sentence. intros K. apply N.
    now apply has_boundary_ext with e' s' b'.
  - apply sentence_then.
    + intros K. apply N. now apply has_boundary_ext with e' s' b'.
    + now apply ends_with_ext with e.
    + now apply gap_ext with s.
    + now apply starts_with_ext with b.
    + exact IH.
Qed.

Lemma maximal_runs_ext (p q : ascii -> bool) (x : string) (l : list string) :
  (forall c, p c = q c) -> maximal_runs p x l -> maximal_runs q x l.
Proof.
  intros H R.
  assert (S : forall s, separator p s -> separator q s).
  { intros s. unfold separator. intros K. rewrite <- K.
    apply all_chars_ext. intros c. now rewrite H. }
  induction R as [sep Hs | sep w rest l Hs N W M R IH].
  - apply no_word. now apply S.
  - apply word_then; [now apply S | exact N | | | exact IH].
    + now rewrite <- (all_chars_ext p q w H).
    + intros K. apply M. apply starts_with_ext with q; [|exact K].
      intros c. now rewrite H.
Qed.

End RulesExtensional.

(** ** The sentence scanner cuts at the boundaries *)

Section SentenceScanner.

Import ResponseEvaluator FluencySpec.

Lemma terminator_is_not_space (c : ascii) : isspace c = true -> is_terminator c = false.
Proof. destruct c as [[] [] [] [] [] [] [] []]; intros H; try discriminate H; reflexivity. Qed.

Lemma space_run_gap (g b : string) :
  all_chars isspace g = true -> ~ starts_with isspace b ->
  space_run (g ++ b) = String.length g.
Proof.
  intros G N. induction g as [|x g IH]; cbn.
  - destruct b as [|c r]; [reflexivity|].
    destruct (isspace c) eqn:E; [|cbn; now rewrite E].
    exfalso. apply N. now exists c, r.
  - cbn in G. apply andb_true_iff in G. destruct G as [Gx Gg].
    rewrite Gx. f_equal. now apply IH.
Qed.

Lemma char_at_gap (g b : string) :
  char_at (String.length g) (g ++ b) = char_at O b.
Proof. induction g as [|x g IH]; [reflexivity | exact IH]. Qed.

Lemma space_run_decompose (s : string) :
  exists g b,
    s = (g ++ b)%string /\ all_chars isspace g = true
    /\ String.length g = space_run s.
Proof.
  induction s as [|c r (g & b & E & G & L)].
  - now exists EmptyString, EmptyString.
  - cbn. destruct (isspace c) eqn:S.
    + exists (String c g), b. cbn. rewrite S, G, <- E, L. auto.
    + now exists EmptyString, (String c r).
Qed.

(** A match of [boundary_match] is a boundary of the rule. *)
Lemma boundary_match_decompose (prev : option ascii) (rest : string) (n : nat) :
  boundary_match prev rest = Some n ->
  exists p g b,
    prev = Some p /\ is_terminator p = true
    /\ rest = (g ++ b)%string /\ gap isspace g /\ String.length g = n
    /\ starts_with is_AZ b.
Proof.
  unfold boundary_match. destruct prev as [p|]; [|discriminate].
  destruct (is_terminator p) eqn:T; [|discriminate].
  destruct (space_run rest) as [|k] eqn:R; [discriminate|].
  destruct (char_at (S k) rest) as [c|] eqn:C; [|discriminate].
  destruct (is_AZ c) eqn:U; [|discriminate].
  intros [= <-].
  destruct (space_run_decompose rest) as (g & b & E & G & L).
  rewrite R in L. exists p, g, b.
  split; [reflexivity|]. split; [exact T|]. split; [exact E|].
  split; [split; [intros ->; discriminate L | exact G]|].
  split; [exact L|].
  rewrite E, <- L, char_at_gap in C.
  destruct b as [|c' b']; [discriminate C|].
  cbn in C. injection C as ->. now exists c, b'.
Qed.

(** A boundary of the rule is matched by [boundary_match]. *)
Lemma boundary_match_complete (p : ascii) (g b : string) :
  is_terminator p = true -> gap isspace g -> starts_with is_AZ b ->
  boundary_match (Some p) (g ++ b) = Some (String.length g).
Proof.
  intros T [N G] (c & r & -> & U). unfold boundary_match. rewrite T.
  rewrite space_run_gap; [| exact G |].
  - destruct g as [|x g]; [congruence|].
    pose proof (char_at_gap (String x g) (String c r)) as C.
    cbn [String.length] in *. rewrite C. cbn [char_at]. now rewrite U.
  - intros (c' & r' & E & S). injection E as <- <-.
    rewrite (upper_case_is_not_space c U) in S. discriminate S.
Qed.

(** The characters of a match are passed over. *)
Lemma re_split_skip (g : string) (prev : option ascii) (piece rest : string) :
  (exists c, prev = Some c /\ isspace c = true) ->
  all_chars isspace g = true ->
  exists prev',
    re_split_from prev (String.length g) piece (g ++ rest)
    = re_split_from prev' O piece rest
    /\ exists c, prev' = Some c /\ isspace c = true.
Proof.
  revert prev. induction g as [|x g IH]; intros prev P G.
  - now exists prev.
  - cbn in G. apply andb_true_iff in G. destruct G as [Gx Gg].
    cbn [String.length append re_split_from].
    apply IH; [now exists x | exact Gg].
Qed.

Lemma no_boundary_in_scanned (piece rest : string) :
  (forall a g b,
      (piece ++ rest = a ++ g ++ b)%string ->
      ends_with is_terminator a -> gap isspace g -> starts_with is_AZ b ->
      (String.length piece <= String.length a)%nat) ->
  ~ has_boundary is_terminator isspace is_AZ piece.
Proof.
  intros Inv (a & g & b & E & A & G & (c & r & -> & U)).
  assert (L : (String.length piece <= String.length a)%nat).
  { apply (Inv a g (String c r ++ rest)%string).
    - rewrite E, !append_assoc. reflexivity.
    - exact A.
    - exact G.
    - now exists c, (r ++ rest)%string. }
  apply (f_equal String.length) in E. rewrite !length_append in E.
  destruct G as [N _]. destruct g; [congruence|]. cbn in E. lia.
Qed.

(** The scanner, started where no boundary begins inside what was
    gathered, cuts the rest of the text at its boundaries. *)
Lemma re_split_from_cuts (n : nat) :
  forall (rest : string) (prev : option ascii) (piece : string),
    (String.length rest <= n)%nat ->
    ((piece = EmptyString /\ forall p, prev = Some p -> is_terminator p = false)
     \/ exists a p, piece = (a ++ String p "")%string /\ prev = Some p) ->
    (forall a g b,
        (piece ++ rest = a ++ g ++ b)%string ->
        ends_with is_terminator a -> gap isspace g -> starts_with is_AZ b ->
        (String.length piece <= String.length a)%nat) ->
    cut_at_boundaries is_terminator isspace is_AZ (piece ++ rest)
      (re_split_from prev O piece rest).
Proof.
  induction n as [|n IH]; intros rest prev piece L OK Inv.
  - destruct rest; [|cbn in L; lia]. cbn. rewrite append_empty_r.
    apply last_sentence. apply (@no_boundary_in_scanned piece EmptyString Inv).
  - destruct rest as [|c r].
    { cbn. rewrite append_empty_r. apply last_sentence.
      apply (@no_boundary_in_scanned piece EmptyString Inv). }
    cbn [re_split_from].
    destruct (boundary_match prev (String c r)) as [m|] eqn:BM.
    + destruct (boundary_match_decompose _ _ BM)
        as (p & g & b & -> & T & E & G & Lg & B).
      destruct g as [|x g]; [destruct G; congruence|].
      cbn in E. injection E as <- ->. cbn in Lg. subst m.
      destruct G as [_ G]. cbn in G. apply andb_true_iff in G.
      destruct G as [Gc Gg].
      destruct (re_split_skip g EmptyString b
                  (ex_intro _ c (conj eq_refl Gc)) Gg)
        as (prev' & S & (c' & -> & Sc')).
      rewrite S.
      change (piece ++ String c (g ++ b))%string
        with (piece ++ String c g ++ b)%string.
      apply sentence_then.
      * apply (@no_boundary_in_scanned piece (String c (g ++ b)) Inv).
      * destruct OK as [[-> N] | (a & p' & -> & [= <-])].
        -- rewrite (N p eq_refl) in T. discriminate T.
        -- now exists a, p.
      * split; [discriminate | cbn; now rewrite Gc, Gg].
      * exact B.
      * change b with (EmptyString ++ b)%string at 1.
        apply IH.
        -- cbn in L. rewrite length_append in L. lia.
        -- left. split; [reflexivity|]. intros p0 [= <-].
           now apply terminator_is_not_space.
        -- intros; cbn; lia.
    + assert (K : cut_at_boundaries is_terminator isspace is_AZ
                    ((piece ++ String c "") ++ r)
                    (re_split_from (Some c) O (piece ++ String c "") r)).
      { apply IH.
        - cbn in L. lia.
        - right. now exists piece, c.
        - intros a g b E A G B. rewrite append_assoc in E. cbn in E.
          pose proof (Inv a g b E A G B) as La.
          rewrite length_append. cbn.
          destruct (Nat.eq_dec (String.length piece) (String.length a)) as [Q|Q];
            [|lia].
          exfalso.
          destruct (append_same_length _ _ _ _ E Q) as [<- R].
          destruct A as (a' & t & Ea & Tt).
          destruct OK as [[-> _] | (a'' & p' & Ep & ->)].
          + destruct a'; discriminate Ea.
          + rewrite Ep in Ea. apply last_char_unique in Ea.
            destruct Ea as [_ ->].
            rewrite R, (boundary_match_complete t Tt G B) in BM.
            discriminate BM. }
      rewrite append_assoc in K. cbn in K.
      destruct (boundary_match prev (String c r)) as [[|k]|] eqn:BM';
        try discriminate BM; exact K.
Qed.

(** [re.split] of the sentence pattern cuts a text at its boundaries. *)
Lemma re_split_cuts (s : string) :
  cut_at_boundaries is_terminator isspace is_AZ s
    (re_split_from None O EmptyString s).
Proof.
  change s with (EmptyString ++ s)%string at 1.
  apply (@re_split_from_cuts (String.length s)).
  - lia.
  - left. split; [reflexivity | discriminate].
  - intros; cbn; lia.
Qed.

End SentenceScanner.

(** ** The sentences are the pieces, as they are *)

Section SentencesAreThePieces.

Import ResponseEvaluator FluencySpec.

Lemma rstrip_ends_nonspace (a : string) (t : ascii) :
  isspace t = false -> rstrip (a ++ String t "") = (a ++ String t "")%string.
Proof.
  intros T. induction a as [|x a IH].
  - cbn. now rewrite T.
  - cbn [append rstrip]. rewrite IH. now destruct a.
Qed.

Lemma rstrip_suffix (x y : string) :
  rstrip (x ++ y) = (x ++ y)%string -> y <> EmptyString -> rstrip y = y.
Proof.
  intros E N. induction x as [|c x IH]; [exact E|].
  apply IH. cbn [append rstrip] in E.
  destruct (rstrip (x ++ y)) as [|c' r'] eqn:R.
  - destruct (isspace c); [discriminate E|].
    injection E as E. destruct x; [congruence | discriminate E].
  - now injection E as E.
Qed.

(** A text that begins and ends with a character that is no white
    space is its own stripped form, and is kept by the filter. *)
Lemma strip_of_trimmed (x : string) :
  (exists c r, x = String c r /\ isspace c = false) -> rstrip x = x ->
  strip x = x /\ negb (py_not (strip x)) = true.
Proof.
  intros (c & r & -> & S) R. unfold strip.
  rewrite (@lstrip_keeps_head c r S), R. now split.
Qed.

Lemma pieces_are_trimmed (s : string) (pieces : list string) :
  cut_at_boundaries is_terminator isspace is_AZ s pieces ->
  (exists c r, s = String c r /\ isspace c = false) -> rstrip s = s ->
  Forall (fun x => (exists c r, x = String c r /\ isspace c = false)
                   /\ rstrip x = x) pieces.
Proof.
  intros H. induction H as [s N | p g rest l N E G B H IH]; intros Hd Tl.
  - constructor; [now split | constructor].
  - destruct E as (a & t & -> & Tt).
    destruct B as (u & rest' & -> & U).
    constructor.
    + split.
      * destruct Hd as (c & r & Ec & Sc).
        destruct a as [|x a]; cbn in Ec; injection Ec as -> _;
          eexists _, _; split; try reflexivity; exact Sc.
      * apply rstrip_ends_nonspace.
        destruct (isspace t) eqn:St; [|reflexivity].
        now rewrite (terminator_is_not_space t St) in Tt.
    + apply IH.
      * exists u, rest'. split; [reflexivity|].
        now apply upper_case_is_not_space.
      * apply rstrip_suffix with (x := ((a ++ String t "") ++ g)%string);
          [|discriminate].
        now rewrite append_assoc.
Qed.

Lemma trimmed_pieces_are_kept (pieces : list string) :
  Forall (fun x => (exists c r, x = String c r /\ isspace c = false)
                   /\ rstrip x = x) pieces ->
  map strip (filter (fun s => negb (py_not (strip s))) pieces) = pieces.
Proof.
  induction 1 as [|x l [Hd Tl] _ IH]; [reflexivity|].
  destruct (strip_of_trimmed Hd Tl) as [S K].
  cbn [filter]. rewrite K. cbn [map]. now rewrite S, IH.
Qed.

(** For text that is not blank, [split_into_sentences] gives the
    stripped text cut at its boundaries. *)
Lemma split_into_sentences_cuts (text : string) :
  blank text = false ->
  cut_at_boundaries is_terminator isspace is_AZ (strip text)
    (split_into_sentences text).
Proof.
  intros B. unfold split_into_sentences.
  pose proof (re_split_cuts (strip text)) as C.
  rewrite trimmed_pieces_are_kept; [exact C|].
  apply (pieces_are_trimmed C).
  - destruct (strip_shape text B) as (c & r & E & S). now exists c, r.
  - unfold strip. apply rstrip_idempotent.
Qed.

End SentencesAreThePieces.

(** ** The word scanner finds the maximal runs *)

Section WordScanner.

Import ResponseEvaluator FluencySpec.

Lemma word_run_decompose (s : string) :
  exists b, s = (word_run s ++ b)%string /\ ~ starts_with is_word b.
Proof.
  induction s as [|c r (b & E & N)].
  - exists EmptyString. split; [reflexivity|]. now intros (c & r & E & _).
  - cbn. destruct (is_word c) eqn:W.
    + exists b. cbn. now rewrite <- E.
    + exists (String c r). split; [reflexivity|].
      intros (c' & r' & [= <- <-] & W'). congruence.
Qed.

(** One more separator character in front changes no word. *)
Lemma maximal_runs_after_separator (c : ascii) (s : string) (words : list string) :
  is_word c = false ->
  maximal_runs is_word s words ->
  maximal_runs is_word (String c s) words.
Proof.
  intros W H. destruct H as [sep S | sep w rest l S N A M R].
  - apply no_word. unfold separator in *. cbn. now rewrite W, S.
  - change (String c (sep ++ w ++ rest))
      with (String c sep ++ w ++ rest)%string.
    apply word_then; try assumption.
    unfold separator in *. cbn. now rewrite W, S.
Qed.

Lemma re_findall_from_runs (rest : string) :
  forall (prev : option ascii) (skip : nat),
    (forall w b,
        rest = (w ++ b)%string -> all_chars is_word w = true ->
        ~ starts_with is_word b -> String.length w = skip ->
        maximal_runs is_word b (re_findall_from prev skip rest))
    /\ ((forall p, prev = Some p -> is_word p = false) ->
        maximal_runs is_word rest (re_findall_from prev O rest)).
Proof.
  induction rest as [|c r IH]; intros prev skip.
  - split.
    + intros w b E _ _ _. destruct w; [|discriminate E].
      cbn in E. subst b. cbn. now apply no_word.
    + intros _. cbn. now apply no_word.
  - assert (Plain : is_word c = false ->
                    maximal_runs is_word (String c r)
                      (re_findall_from prev O (String c r))).
    { intros W. cbn [re_findall_from]. unfold word_match.
      rewrite W, andb_false_r.
      apply maximal_runs_after_separator; [exact W|].
      apply (proj2 (IH (Some c) O)). now intros p [= <-]. }
    split.
    + intros w b E A M L. destruct w as [|x w].
      * cbn in E, L. subst b skip. apply Plain.
        destruct (is_word c) eqn:W; [|reflexivity].
        exfalso. apply M. now exists c, r.
      * cbn in E, L. injection E as <- ->. subst skip.
        cbn [re_findall_from]. cbn in A. apply andb_true_iff in A.
        apply (proj1 (IH (Some c) (String.length w)) w b eq_refl);
          [tauto | exact M | reflexivity].
    + intros P. destruct (is_word c) eqn:W; [|now apply Plain].
      cbn [re_findall_from]. unfold word_match.
      assert (Q : match prev with Some p => is_word p | None => false end = false).
      { destruct prev as [p|]; [now apply P | reflexivity]. }
      rewrite Q, W. cbn [negb andb word_run]. rewrite W.
      destruct (word_run_decompose r) as (b & E & M).
      replace (String.length (String c (word_run r)) - 1)%nat
        with (String.length (word_run r)) by (cbn [String.length]; lia).
      rewrite E at 1.
      change (String c (word_run r ++ b))
        with (EmptyString ++ String c (word_run r) ++ b)%string.
      apply word_then.
      * reflexivity.
      * discriminate.
      * cbn. now rewrite W, word_run_chars.
      * exact M.
      * apply (proj1 (IH (Some c) (String.length (word_run r)))
                 (word_run r) b E (word_run_chars r) M eq_refl).
Qed.

(** [tokenize_words] gives the maximal runs of word characters of the
    lower-cased text. *)
Lemma tokenize_words_runs (text : string) :
  maximal_runs is_word (lower text) (tokenize_words text).
Proof.
  unfold tokenize_words.
  apply (proj2 (re_findall_from_runs (lower text) None O)). discriminate.
Qed.

End WordScanner.

(** ** The rules determine their result *)

Section RulesDeterministic.

Import FluencySpec.

Lemma append_split (a b c d : string) :
  (a ++ b = c ++ d)%string ->
  exists e, (a = (c ++ e)%string /\ d = (e ++ b)%string)
            \/ (c = (a ++ e)%string /\ b = (e ++ d)%string).
Proof.
  revert c. induction a as [|x a IH]; intros c E.
  - exists c. right. now split.
  - destruct c as [|y c].
    + exists (String x a). left. now split.
    + cbn in E. injection E as -> E. destruct (IH c E) as (e & [[-> ->] | [-> ->]]);
        exists e; [left | right]; now split.
Qed.

(** A run of [p] followed by something that does not start with [p]
    can be read in one way only. *)
Lemma run_unique (p : ascii -> bool) (a b x y : string) :
  all_chars p a = true -> all_chars p b = true ->
  ~ starts_with p x -> ~ starts_with p y ->
  (a ++ x = b ++ y)%string -> a = b /\ x = y.
Proof.
  revert b. induction a as [|c a IH]; intros [|d b] A B X Y E; cbn in *.
  - now split.
  - exfalso. apply X. apply andb_true_iff in B. exists d, (b ++ y)%string.
    split; [exact E | tauto].
  - exfalso. apply Y. apply andb_true_iff in A. exists c, (a ++ x)%string.
    split; [now symmetry | tauto].
  - injection E as -> E. apply andb_true_iff in A, B.
    destruct (IH b) as [-> ->]; try tauto; try now split.
Qed.

Lemma last_char_exists (s : string) :
  s <> EmptyString -> exists a c, s = (a ++ String c "")%string.
Proof.
  induction s as [|x s IH]; [congruence|]. intros _.
  destruct s as [|y s].
  - now exists EmptyString, x.
  - destruct IH as (a & c & E); [discriminate|].
    exists (String x a), c. cbn. now rewrite <- E.
Qed.

Lemma maximal_runs_inv (word : ascii -> bool) (s : string) (l : list string) :
  maximal_runs word s l ->
  (separator word s /\ l = [])
  \/ (exists sep w rest words,
         s = (sep ++ w ++ rest)%string /\ l = w :: words
         /\ separator word sep /\ w <> EmptyString /\ all_chars word w = true
         /\ ~ starts_with word rest /\ maximal_runs word rest words).
Proof.
  intros [sep S | sep w rest words S N A M R]; [left; now split|].
  right. exists sep, w, rest, words. repeat split; assumption.
Qed.

Lemma word_is_no_separator (word : ascii -> bool) (w x : string) :
  w <> EmptyString -> all_chars word w = true ->
  ~ starts_with (fun c => negb (word c)) (w ++ x).
Proof.
  intros N A (c & r & E & P). destruct w as [|d w]; [congruence|].
  cbn in E, A. injection E as -> _. apply andb_true_iff in A.
  destruct A as [A _]. now rewrite A in P.
Qed.

Lemma separator_has_no_word (word : ascii -> bool) (sep w rest : string) :
  w <> EmptyString -> all_chars word w = true ->
  ~ separator word (sep ++ w ++ rest).
Proof.
  unfold separator. intros N A S. rewrite !all_chars_append in S.
  destruct w as [|d w]; [congruence|]. cbn in A, S.
  apply andb_true_iff in A. destruct A as [A _]. rewrite A in S.
  cbn in S. now rewrite andb_false_r in S.
Qed.

Lemma maximal_runs_unique (word : ascii -> bool) (s : string) (l1 l2 : list string) :
  maximal_runs word s l1 -> maximal_runs word s l2 -> l1 = l2.
Proof.
  intros H1. revert l2.
  induction H1 as [sep S | sep w rest words S N A M R IH]; intros l2 H2;
    destruct (maximal_runs_inv H2)
      as [[S2 ->] | (sep2 & w2 & rest2 & words2 & E & -> & S2 & N2 & A2 & M2 & R2)].
  - reflexivity.
  - subst sep. now destruct (@separator_has_no_word word sep2 w2 rest2 N2 A2 S).
  - now destruct (@separator_has_no_word word sep w rest N A S2).
  - destruct (@run_unique (fun c => negb (word c)) sep sep2
                (w ++ rest)%string (w2 ++ rest2)%string) as [-> E'];
      try assumption; try now apply word_is_no_separator.
    destruct (@run_unique word w w2 rest rest2) as [-> ->]; try assumption.
    f_equal. now apply IH.
Qed.

Section Sentences.

Variables ends space begins : ascii -> bool.
Hypothesis ends_not_space : forall c, ends c = true -> space c = false.
Hypothesis begins_not_space : forall c, begins c = true -> space c = false.

Lemma gap_then_beginning (r : string) :
  starts_with begins r -> ~ starts_with space r.
Proof.
  intros (c & a & -> & B) (c' & a' & [= <- <-] & S).
  rewrite (begins_not_space B) in S. discriminate S.
Qed.

Lemma ending_is_no_gap (e : string) :
  ends_with ends e -> all_chars space e = true -> False.
Proof.
  intros (a & t & -> & T) A. rewrite all_chars_append in A.
  cbn in A. rewrite (ends_not_space T) in A. cbn in A.
  now rewrite andb_false_r in A.
Qed.

(** What reaches beyond a boundary contains it. *)
Lemma longer_has_boundary (s e g r tail : string) :
  e <> EmptyString -> ends_with ends (s ++ e) ->
  ends_with ends s -> gap space g -> starts_with begins r ->
  (g ++ r = e ++ tail)%string ->
  has_boundary ends space begins (s ++ e).
Proof.
  intros N E1 E2 [Ng G] B E.
  assert (Ee : ends_with ends e).
  { destruct E1 as (a & t & Ea & T).
    destruct (last_char_exists N) as (e' & u & ->).
    rewrite <- append_assoc in Ea.
    destruct (last_char_unique _ _ _ _ Ea) as [_ ->]. now exists e', t. }
  destruct (append_split _ _ _ _ E) as (x & [[-> ->] | [-> ->]]).
  - rewrite all_chars_append in G. apply andb_true_iff in G.
    destruct (ending_is_no_gap Ee (proj1 G)).
  - destruct x as [|c x].
    + rewrite append_empty_r in Ee. destruct (ending_is_no_gap Ee G).
    + exists s, g, (String c x). split; [reflexivity|].
      split; [exact E2|]. split; [now split|].
      destruct B as (c' & a' & [= <- <-] & Bc). now exists c, x.
Qed.

Lemma first_boundary_unique (s1 g1 r1 s2 g2 r2 : string) :
  ~ has_boundary ends space begins s1 -> ~ has_boundary ends space begins s2 ->
  ends_with ends s1 -> ends_with ends s2 ->
  gap space g1 -> gap space g2 ->
  starts_with begins r1 -> starts_with begins r2 ->
  (s1 ++ g1 ++ r1 = s2 ++ g2 ++ r2)%string ->
  s1 = s2 /\ g1 = g2 /\ r1 = r2.
Proof.
  intros N1 N2 E1 E2 G1 G2 B1 B2 E.
  destruct (append_split _ _ _ _ E) as (e & [[-> K] | [-> K]]).
  - destruct e as [|c e].
    + rewrite append_empty_r. cbn in K. split; [reflexivity|].
      destruct (@run_unique space g1 g2 r1 r2) as [-> ->];
        try apply G1; try apply G2; try (now apply gap_then_beginning);
        [now symmetry | now split].
    + destruct N1.
      apply longer_has_boundary with (g := g2) (r := r2) (tail := (g1 ++ r1)%string);
        try assumption. discriminate.
  - destruct e as [|c e].
    + rewrite append_empty_r. cbn in K. split; [reflexivity|].
      destruct (@run_unique space g1 g2 r1 r2) as [-> ->];
        try apply G1; try apply G2; try (now apply gap_then_beginning);
        [exact K | now split].
    + destruct N2.
      apply longer_has_boundary with (g := g1) (r := r1) (tail := (g2 ++ r2)%string);
        try assumption. discriminate.
Qed.

Lemma cut_at_boundaries_inv (s : string) (l : list string) :
  cut_at_boundaries ends space begins s l ->
  (~ has_boundary ends space begins s /\ l = [s])
  \/ (exists sentence g rest sentences,
         s = (sentence ++ g ++ rest)%string /\ l = sentence :: sentences
         /\ ~ has_boundary ends space begins sentence
         /\ ends_with ends sentence /\ gap space g /\ starts_with begins rest
         /\ cut_at_boundaries ends space begins rest sentences).
Proof.
  intros [x N | p g rest sentences N E G B H]; [left; now split|].
  right. exists p, g, rest, sentences. repeat split; try assumption; apply G.
Qed.

Lemma cut_at_boundaries_unique (s : string) (l1 l2 : list string) :
  cut_at_boundaries ends space begins s l1 ->
  cut_at_boundaries ends space begins s l2 -> l1 = l2.
Proof.
  intros H1. revert l2.
  induction H1 as [s N | p g rest l N E G B H IH]; intros l2 H2;
    destruct (cut_at_boundaries_inv H2)
      as [[N2 ->] | (p2 & g2 & rest2 & l' & E2 & -> & N2 & En2 & G2 & B2 & H')].
  - reflexivity.
  - destruct N. subst s. now exists p2, g2, rest2.
  - destruct N2. now exists p, g, rest.
  - destruct (first_boundary_unique N N2 E En2 G G2 B B2 E2) as (-> & -> & ->).
    f_equal. now apply IH.
Qed.

End Sentences.

End RulesDeterministic.

(** ** C7: the fluency heuristic *)

Section FluencyAlgorithm.

Import ResponseEvaluator Spec FluencySpec.
Local Open Scope Q_scope.

Lemma no_boundary_in_short_text (ends space begins : ascii -> bool) (s : string) :
  (String.length s < 3)%nat -> ~ has_boundary ends space begins s.
Proof.
  intros L (before & g & after & -> & (a & t & -> & _) & [N _] & (c & r & -> & _)).
  destruct g as [|x g]; [congruence|].
  rewrite !length_append in L. cbn in L. lia.
Qed.

(** The words of a text are what [tokenize_words] returns. *)
Lemma words_of_tokenize_words (text : string) :
  words_of text (tokenize_words text).
Proof. apply tokenize_words_runs. Qed.

(** The sentences of a text that is not blank are what
    [split_into_sentences] returns. *)
Lemma sentences_of_split_into_sentences (text : string) :
  blank text = false -> sentences_of text (split_into_sentences text).
Proof.
  intros B. unfold sentences_of.
  apply cut_at_boundaries_ext with is_terminator isspace is_AZ;
    [intros c; symmetry; apply terminator_is
    |reflexivity
    |intros c; symmetry; apply upper_case_letter_is
    |now apply split_into_sentences_cuts].
Qed.

Lemma words_of_unique (text : string) (words : list string) :
  words_of text words -> tokenize_words text = words.
Proof.
  intros H. apply maximal_runs_unique with is_word (lower text);
    [apply words_of_tokenize_words | exact H].
Qed.

Lemma sentences_of_unique (text : string) (sentences : list string) :
  blank text = false -> sentences_of text sentences ->
  split_into_sentences text = sentences.
Proof.
  intros B H.
  apply cut_at_boundaries_unique
    with terminator isspace upper_case_letter (strip text).
  - intros c T. destruct (isspace c) eqn:S; [|reflexivity].
    rewrite terminator_is, (terminator_is_not_space c S) in T. discriminate T.
  - intros c U. apply upper_case_is_not_space.
    now rewrite <- upper_case_letter_is.
  - now apply sentences_of_split_into_sentences.
  - exact H.
Qed.

Lemma Qltb_decides (x y : Q) :
  Qltb x y = if Qlt_le_dec x y then true else false.
Proof.
  destruct (Qlt_le_dec x y) as [L | G];
    [now apply Qltb_lt | now apply Qltb_ge].
Qed.

Lemma clamp_by_cases (score : Q) :
  py_max 1 (py_min 5 score) ==
  if Qlt_le_dec score 1 then 1
  else if Qlt_le_dec 5 score then 5
  else score.
Proof.
  unfold py_max, py_min. rewrite (Qltb_decides score 5).
  destruct (Qlt_le_dec score 5) as [A | A].
  - rewrite (Qltb_decides 1 score).
    destruct (Qlt_le_dec 1 score) as [B | B].
    + destruct (Qlt_le_dec score 1) as [C | C].
      * destruct (Qlt_irrefl 1). now apply Qlt_trans with score.
      * destruct (Qlt_le_dec 5 score) as [D | D]; [|reflexivity].
        destruct (Qlt_irrefl 5). now apply Qlt_trans with score.
    + destruct (Qlt_le_dec score 1) as [C | C]; [reflexivity|].
      destruct (Qlt_le_dec 5 score) as [D | D].
      * destruct (Qlt_irrefl 5). now apply Qlt_trans with score.
      * now apply Qle_antisym.
  - change (Qltb 1 5) with true. cbn iota.
    destruct (Qlt_le_dec score 1) as [C | C].
    + destruct (Qlt_irrefl 1). apply Qle_lt_trans with score; [|exact C].
      apply Qle_trans with 5; [discriminate | exact A].
    + destruct (Qlt_le_dec 5 score) as [D | D];
        [reflexivity | now apply Qle_antisym].
Qed.

(** The score of the code is the score of the three counts. *)
Lemma compute_fluency_score_of_counts (text : string) :
  compute_fluency_score text ==
  if blank text then 1
  else score_of_counts (List.length (split_into_sentences text))
         (List.length (tokenize_words text))
         (unique_count (tokenize_words text)).
Proof.
  unfold compute_fluency_score. rewrite blank_guard.
  destruct (blank text); [reflexivity|].
  unfold unique_count, py_set, len.
  destruct (split_into_sentences text) as [|s ss]; [reflexivity|].
  destruct (tokenize_words text) as [|w ws]; [reflexivity|].
  cbn [is_empty orb negb].
  unfold score_of_counts. cbn [List.length].
  set (avg_sentence_length :=
         inject_Z (Z.of_nat (S (List.length ws)))
         / inject_Z (Z.of_nat (S (List.length ss)))).
  set (word_variety :=
         inject_Z (Z.of_nat (List.length (nodup string_dec (w :: ws))))
         / inject_Z (Z.of_nat (S (List.length ws)))).
  rewrite (Qltb_decides avg_sentence_length 5),
    (Qltb_decides 25 avg_sentence_length),
    (Qltb_decides word_variety (1 # 2)),
    (Qltb_decides (4 # 5) word_variety).
  destruct (Qlt_le_dec avg_sentence_length 5),
    (Qlt_le_dec 25 avg_sentence_length),
    (Qlt_le_dec word_variety (1 # 2)),
    (Qlt_le_dec (4 # 5) word_variety); apply clamp_by_cases.
Qed.

(** The score of the code is the score of [Spec.fluency]. *)
Lemma compute_fluency_score_as_worded (text : string) :
  compute_fluency_score text == fluency text.
Proof.
  unfold compute_fluency_score, fluency. rewrite blank_guard.
  destruct (blank text); [reflexivity|].
  unfold py_set, len.
  destruct (split_into_sentences text) as [|s ss]; [reflexivity|].
  destruct (tokenize_words text) as [|w ws]; [reflexivity|].
  cbn [is_empty orb negb].
  set (avg_sentence_length := inject_Z (Z.of_nat (List.length (w :: ws))) / inject_Z (Z.of_nat (List.length (s :: ss)))).
  set (word_variety := inject_Z (Z.of_nat (List.length (nodup string_dec (w :: ws)))) / inject_Z (Z.of_nat (List.length (w :: ws)))).
  cbn [List.length]. unfold length_penalty, variety_bonus.
  destruct (Qltb avg_sentence_length 5), (Qltb 25 avg_sentence_length),
    (Qltb word_variety (1 # 2)), (Qltb (4 # 5) word_variety);
    reflexivity.
Qed.

(** C7. For every text, [compute_fluency_score] implements exactly the
    algorithm of the specification.  The rules of the specification
    give every text its sentences and its words: the sentences are the
    stripped text cut at each boundary (a '.', '!' or '?', then white
    space, then an upper-case letter; the white space is dropped), the
    words are the maximal runs of word characters of the lower-cased
    text.  Whatever lists the rules give, the score is 1 for empty or
    white-space-only text and for no sentences or no words, and
    otherwise 5, less 1.5 if the average sentence length is below 5,
    else less 1 if it is above 25, then less 1 if the word variety is
    below 0.5, else plus 0.5 if it is above 0.8, clamped to [1, 5],
    with both quotients taken from the three counts.  The rules leave
    no choice: for text that is not blank they give the list that
    [split_into_sentences] returns, and for every text the list that
    [tokenize_words] returns.  The score is the one of [Spec.fluency]
    and lies in [1, 5]. *)
Theorem compute_fluency_score_algorithm (text : string) :
  (exists sentences words,
      sentences_of text sentences /\ words_of text words)
  /\ (forall sentences words,
         sentences_of text sentences -> words_of text words ->
         compute_fluency_score text ==
         if blank text then 1
         else score_of_counts (List.length sentences) (List.length words)
                (unique_count words))
  /\ (blank text = false ->
      forall sentences,
        sentences_of text sentences -> split_into_sentences text = sentences)
  /\ (forall words, words_of text words -> tokenize_words text = words)
  /\ compute_fluency_score text == fluency text
  /\ 1 <= compute_fluency_score text <= 5.
Proof.
  split; [|split; [|split; [|split; [|split]]]].
  - destruct (blank text) eqn:B.
    + exists [EmptyString], (tokenize_words text).
      split; [|apply words_of_tokenize_words].
      unfold sentences_of. apply strip_empty_iff_blank in B. rewrite B.
      apply last_sentence, no_boundary_in_short_text. cbn. lia.
    + exists (split_into_sentences text), (tokenize_words text).
      split; [now apply sentences_of_split_into_sentences
             |apply words_of_tokenize_words].
  - intros sentences words S W.
    rewrite (compute_fluency_score_of_counts text).
    destruct (blank text) eqn:B; [reflexivity|].
    now rewrite (sentences_of_unique B S), (words_of_unique W).
  - intros B sentences S. now apply sentences_of_unique.
  - intros words W. now apply words_of_unique.
  - apply compute_fluency_score_as_worded.
  - apply fluency_in_range.
Qed.

Lemma compute_fluency_score_algorithm_witness :
  sentences_of "A. B" ["A."; "B"]
  /\ words_of "A. B" ["a"; "b"]
  /\ compute_fluency_score "A. B" == 4.
Proof.
  assert (S : sentences_of "A. B" ["A."; "B"]).
  { unfold sentences_of.
    change (strip "A. B") with ("A." ++ " " ++ "B")%string.
    apply sentence_then.
    - apply no_boundary_in_short_text. cbn. lia.
    - exists "A"%string, "."%char. split; reflexivity.
    - split; [discriminate | reflexivity].
    - exists "B"%char, EmptyString. split; reflexivity.
    - apply last_sentence, no_boundary_in_short_text. cbn. lia. }
  assert (W : words_of "A. B" ["a"; "b"]).
  { unfold words_of.
    change (lower "A. B") with ("" ++ "a" ++ ". b")%string.
    apply word_then; [reflexivity | discriminate | reflexivity | |].
    - intros (c & r & E & K). injection E as <- <-. discriminate K.
    - change ". b"%string with (". " ++ "b" ++ "")%string.
      apply word_then;
        [reflexivity | discriminate | reflexivity | | apply no_word; reflexivity].
      intros (c & r & E & _). discriminate E. }
  split; [exact S|]. split; [exact W|].
  apply (Qeq_trans _ _ _
           (proj1 (proj2 (compute_fluency_score_algorithm "A. B")) _ _ S W)).
  vm_compute. reflexivity.
Defined.

End FluencyAlgorithm.
